(** * The article lifecycle pipeline of the Bitcoin-mining news bot

    A shallow embedding of [bot_lib.py], [src/services/filtering.py],
    [main.py] and [tools.py]: the ingestion filter, the retry loop around
    the news provider, the image preparation, the three persisted stores
    (queue, posted ledger, digest cache), the three workflows that move
    articles between them, and the maintenance commands on the stores.

    Conventions of the embedding.
    - A Python [dict] of known shape is a record; a key that may be absent
      is an [option] field ([None] = key absent, so [d.get(k, dflt)] is
      [default dflt (k d)]).
    - [str] is [string] over 8-bit characters; [str.lower] lowers the ASCII
      letters.
    - [datetime] values (and the ISO strings that [isoformat] /
      [fromisoformat] convert them to and from) are microseconds on the
      local time line, as [Z]; a calendar day is a block of [day_us]
      microseconds, so [iso.startswith(now.strftime("%Y-%m-%d"))] is
      "same day".
    - Scores and thresholds ([int] or finite [float] in Python) are
      rationals.
    - A function that may raise returns [result]; a JSON file is
      [option (list _)], [None] when the file is absent or unreadable.
    - Every [datetime.now()] call site is its own clock reading. *)

From Stdlib Require Import ZArith QArith String Ascii List Lia Bool.
From Stdlib Require Import DecimalString DecimalNat.
From stdpp Require Import gmap strings list.
Import ListNotations.

Local Open Scope string_scope.
Local Open Scope list_scope.
Local Open Scope Z_scope.

(** ** Python values *)

Record Exception := { exc_class : string; exc_msg : string }.

Inductive result (A : Type) : Type :=
| Ok (a : A)
| Raise (e : Exception).
Arguments Ok {A} a.
Arguments Raise {A} e.

Definition bind {A B : Type} (r : result A) (k : A -> result B) : result B :=
  match r with
  | Ok a => k a
  | Raise e => Raise e
  end.

Definition lower_ascii (c : ascii) : ascii :=
  let n := N_of_ascii c in
  if ((65 <=? n) && (n <=? 90))%N then ascii_of_N (n + 32) else c.

(** [s.lower()] *)
Fixpoint lower (s : string) : string :=
  match s with
  | EmptyString => EmptyString
  | String c s' => String (lower_ascii c) (lower s')
  end.

(** [needle in hay] on strings *)
Fixpoint substr (needle hay : string) : bool :=
  String.prefix needle hay ||
  match hay with
  | EmptyString => false
  | String _ hay' => substr needle hay'
  end.

(** [s[:n]] *)
Fixpoint str_take (n : nat) (s : string) : string :=
  match n, s with
  | S n', String c s' => String c (str_take n' s')
  | _, _ => EmptyString
  end.

(** truth value of [d.get(k)] for a string-valued key: absent and [''] are
    falsy *)
Definition truthy (o : option string) : bool :=
  match o with
  | Some (String _ _) => true
  | _ => false
  end.

(** [l[-n:]] on lists, for every integer [n]: a positive [n] keeps the
    last [n] elements, [n = 0] gives [l[0:]] (the whole list) and a
    negative [n] gives [l[|n|:]]. *)
Definition slice_last {A : Type} (n : Z) (l : list A) : list A :=
  if 0 <? n then skipn (length l - Z.to_nat n)%nat l
  else skipn (Z.to_nat (- n)) l.

(** ** Time *)

Definition day_us : Z := 86400 * 1000000.
Definition timedelta_days (d : Z) : Z := d * day_us.
Definition timedelta_hours (h : Z) : Z := h * 3600 * 1000000.

(** the calendar day of an instant, i.e. its ["%Y-%m-%d"] prefix *)
Definition day_of (t : Z) : Z := t / day_us.

(** ** Data model *)

Record Source := { uri : option string; source_title : option string }.

(** an article as the news provider returns it *)
Record Article := {
  title : option string;
  url : option string;
  body : option string;
  source : option Source;
  image : option string;
  socialScore : option Q;
  sentiment : option Q;
  date : option Z
}.

(** an entry of the queue file, as [workflow_monitor] writes it *)
Record QueueEntry := {
  q_url : string;
  q_title : string;
  q_body : string;
  q_source : Source;
  q_image : option string;
  q_socialScore : Q;
  q_added_at : Z
}.

(** a record of the posted-articles file; [p_date] is absent in a record
    that has no ['date'] key *)
Record PostedRecord := {
  p_url : string;
  p_tweet_id : option string;
  p_date : option Z;
  p_timestamp : Z
}.

(** [config.py]: the module-level values the pipeline reads.  Keys come
    from the process environment and may be unset. *)
Record Config := {
  EVENT_REGISTRY_API_KEY : option string;
  GEMINI_API_KEY : option string;
  TWITTER_API_KEY : option string;
  TWITTER_API_SECRET : option string;
  TWITTER_ACCESS_TOKEN : option string;
  TWITTER_ACCESS_SECRET : option string;
  UNSPLASH_ACCESS_KEY : option string;
  GITHUB_TOKEN : option string;
  BLACKLISTED_SOURCES : list string;
  BLACKLISTED_KEYWORDS : list string;
  MIN_SOCIAL_SCORE : Q;
  MIN_ARTICLE_LENGTH : Z;
  MAX_TWEETS_PER_DAY : Z;
  MAX_QUEUE_SIZE : Z
}.

(** the three persisted files *)
Record Stores := {
  QUEUE_FILE : option (list QueueEntry);
  POSTED_ARTICLES_FILE : option (list PostedRecord);
  DAILY_BRIEF_CACHE : option (list Article)
}.

(** ** bot_lib.py: article filtering *)

Definition source_uri_of (a : Article) : string :=
  lower (default "" (uri (default {| uri := None; source_title := None |} (source a)))).

Definition filter_keep (blacklisted_sources blacklisted_keywords : list string)
    (min_social_score min_sentiment : Q) (article : Article) : bool :=
  (* Check required fields *)
  if negb (truthy (title article)) || negb (truthy (url article))
     || negb (truthy (body article)) then false
  (* Check blacklisted sources *)
  else if existsb (fun blacklisted => substr (lower blacklisted) (source_uri_of article))
            blacklisted_sources then false
  (* Check blacklisted keywords in title and body *)
  else if existsb (fun keyword =>
              substr (lower keyword) (lower (default "" (title article)))
              || substr (lower keyword) (lower (default "" (body article))))
            blacklisted_keywords then false
  (* Check social score threshold *)
  else if negb (Qle_bool min_social_score (default 0%Q (socialScore article))) then false
  (* Check sentiment threshold *)
  else if negb (Qle_bool min_sentiment (default 0%Q (sentiment article))) then false
  else true.

Definition filter_articles (articles : list Article)
    (blacklisted_sources blacklisted_keywords : list string)
    (min_social_score min_sentiment : Q) : list Article :=
  List.filter (filter_keep blacklisted_sources blacklisted_keywords
                 min_social_score min_sentiment) articles.

(** the loop of [remove_duplicate_articles], with its [seen_urls] set *)
Fixpoint remove_duplicates_from (seen_urls : gset string) (articles : list Article)
    : list Article :=
  match articles with
  | [] => []
  | article :: rest =>
      match url article with
      | Some (String c u' as u) =>
          if bool_decide (u ∈ seen_urls) then remove_duplicates_from seen_urls rest
          else article :: remove_duplicates_from ({[ u ]} ∪ seen_urls) rest
      | _ => remove_duplicates_from seen_urls rest
      end
  end.

Definition remove_duplicate_articles (articles : list Article) : list Article :=
  remove_duplicates_from ∅ articles.

(** ** bot_lib.py: fetch_articles_with_retry *)

(** what the retry loop does to the outside world, in order *)
Inductive Event :=
| Call (attempt : nat)      (* fetch_bitcoin_mining_articles(...) *)
| Sleep (seconds : Z).      (* time.sleep(wait_time) *)

(** ["invalid api key" in error_msg or "authentication" in error_msg] *)
Definition is_fatal (e : Exception) : bool :=
  let error_msg := lower (exc_msg e) in
  substr "invalid api key" error_msg || substr "authentication" error_msg.

(** ["rate limit" in error_msg] *)
Definition is_rate_limit (e : Exception) : bool :=
  let error_msg := lower (exc_msg e) in
  substr "rate limit" error_msg.

Section Retry.
(** the outcome of the call to [fetch_bitcoin_mining_articles] made at
    each attempt (its arguments are the same at every attempt) *)
Variable fetch_bitcoin_mining_articles : nat -> result (list Article).
Variable max_retries : Z.

(** the body of [for attempt in range(max_retries)], over the attempts
    that are left *)
Fixpoint retry_loop (range : list nat) : list Event * result (list Article) :=
  match range with
  | [] => ([], Ok [])
  | attempt :: rest =>
      match fetch_bitcoin_mining_articles attempt with
      | Ok articles => ([Call attempt], Ok articles)
      | Raise e =>
          (* Don't retry authentication errors *)
          if is_fatal e then ([Call attempt], Raise e)
          (* Retry with exponential backoff for rate limits *)
          else if is_rate_limit e then
            if Z.of_nat attempt <? max_retries - 1 then
              let wait_time := 2 ^ Z.of_nat attempt * 10 in
              let '(events, r) := retry_loop rest in
              (Call attempt :: Sleep wait_time :: events, r)
            else ([Call attempt], Raise e)
          (* Retry other transient errors *)
          else if Z.of_nat attempt <? max_retries - 1 then
            let wait_time := 2 ^ Z.of_nat attempt * 5 in
            let '(events, r) := retry_loop rest in
            (Call attempt :: Sleep wait_time :: events, r)
          else ([Call attempt], Raise e)
      end
  end.

Definition fetch_articles_with_retry : list Event * result (list Article) :=
  retry_loop (seq 0 (Z.to_nat max_retries)).
End Retry.

(** ** src/services/filtering.py *)

Module BitcoinMiningFilter.

Definition MINING_KEYWORDS : list string :=
  [ "mining"; "miner"; "miners"; "hashrate"; "hash rate";
    "asic"; "mining pool"; "mining rig"; "mining farm";
    "difficulty"; "difficulty adjustment"; "block reward";
    "mining hardware"; "mining operation"; "mining company";
    "proof of work"; "pow"; "mining equipment"; "mining power";
    "terahash"; "petahash"; "exahash"; "th/s"; "ph/s"; "eh/s" ].

(** [f"{title} {body}"] of the lowered fields *)
Definition content_of (article : Article) : string :=
  let title := lower (default "" (title article)) in
  let body := lower (default "" (body article)) in
  (title ++ " " ++ body)%string.

(** the counting loop: one for every keyword of the list that is in the
    content *)
Fixpoint count_keywords (keywords : list string) (content : string) : Z :=
  match keywords with
  | [] => 0
  | keyword :: rest =>
      (if substr keyword content then 1 else 0) + count_keywords rest content
  end.

Definition get_mining_keyword_count (article : Article) : Z :=
  count_keywords MINING_KEYWORDS (content_of article).

Definition _is_mining_relevant (min_mining_terms : Z) (article : Article) : bool :=
  min_mining_terms <=? count_keywords MINING_KEYWORDS (content_of article).

Definition filter_articles (min_mining_terms : Z) (articles : list Article)
    : list Article :=
  List.filter (_is_mining_relevant min_mining_terms) articles.

(** The relevance count in the words of the specification: the number of
    occurrences (positions at which a term starts) of the terms of the
    keyword set in the lowered [title + body]. *)
Fixpoint occurrences (term text : string) : Z :=
  (if String.prefix term text then 1 else 0) +
  match text with
  | EmptyString => 0
  | String _ text' => occurrences term text'
  end.

Definition spec_occurrence_count (article : Article) : Z :=
  let text := lower (default "" (title article) ++ default "" (body article))%string in
  fold_right (fun term n => occurrences term text + n) 0 MINING_KEYWORDS.

Definition spec_relevant (min_relevance_terms : Z) (article : Article) : bool :=
  min_relevance_terms <=? spec_occurrence_count article.

End BitcoinMiningFilter.

(** ** main.py: utility functions *)

Definition load_json_file {A : Type} (file : option (list A)) : list A :=
  default [] file.

(** [save_json_file]: the file then holds [data] *)
Definition save_json_file {A : Type} (data : list A) : option (list A) :=
  Some data.

Definition set_queue (q : option (list QueueEntry)) (st : Stores) : Stores :=
  {| QUEUE_FILE := q;
     POSTED_ARTICLES_FILE := POSTED_ARTICLES_FILE st;
     DAILY_BRIEF_CACHE := DAILY_BRIEF_CACHE st |}.

Definition set_posted (p : option (list PostedRecord)) (st : Stores) : Stores :=
  {| QUEUE_FILE := QUEUE_FILE st;
     POSTED_ARTICLES_FILE := p;
     DAILY_BRIEF_CACHE := DAILY_BRIEF_CACHE st |}.

Definition set_cache (c : option (list Article)) (st : Stores) : Stores :=
  {| QUEUE_FILE := QUEUE_FILE st;
     POSTED_ARTICLES_FILE := POSTED_ARTICLES_FILE st;
     DAILY_BRIEF_CACHE := c |}.

(** [p.get('date', '').startswith(today)] *)
Definition posted_on (today : Z) (p : PostedRecord) : bool :=
  match p_date p with
  | Some d => day_of d =? today
  | None => false
  end.

Definition get_posted_articles_today (now : Z) (st : Stores) : list string :=
  let posted := load_json_file (POSTED_ARTICLES_FILE st) in
  let today := day_of now in
  let today_posts := List.filter (posted_on today) posted in
  map p_url today_posts.

Definition KeyError (key : string) : Exception :=
  {| exc_class := "KeyError"; exc_msg := key |}.

(** [[p for p in posted if datetime.fromisoformat(p['date']) > cutoff]];
    [p['date']] raises on a record without the key *)
Fixpoint keep_after (cutoff : Z) (posted : list PostedRecord)
    : result (list PostedRecord) :=
  match posted with
  | [] => Ok []
  | p :: rest =>
      match p_date p with
      | None => Raise (KeyError "date")
      | Some d =>
          bind (keep_after cutoff rest)
               (fun kept => Ok (if cutoff <? d then p :: kept else kept))
      end
  end.

(** the three [datetime.now()] readings of [add_posted_article] *)
Record LedgerClock := { now_date : Z; now_timestamp : Z; now_cutoff : Z }.

Definition add_posted_article (clock : LedgerClock) (url : string)
    (tweet_id : option string) (st : Stores) : result Stores :=
  let posted := load_json_file (POSTED_ARTICLES_FILE st) in
  let posted := posted ++ [ {| p_url := url; p_tweet_id := tweet_id;
                               p_date := Some (now_date clock);
                               p_timestamp := now_timestamp clock |} ] in
  (* Keep only last 30 days *)
  let cutoff := now_cutoff clock - timedelta_days 30 in
  bind (keep_after cutoff posted)
       (fun posted => Ok (set_posted (save_json_file posted) st)).

(** ** main.py: workflow_monitor *)

Definition is_empty {A : Type} (l : list A) : bool :=
  match l with
  | [] => true
  | _ :: _ => false
  end.

Definition no_source : Source := {| uri := None; source_title := None |}.

(** the dict literal appended to the queue; [article['url']] and
    [article['title']] raise on an absent key *)
Definition queue_entry (added_at : Z) (article : Article) : result QueueEntry :=
  match url article with
  | None => Raise (KeyError "url")
  | Some u =>
      match title article with
      | None => Raise (KeyError "title")
      | Some t =>
          Ok {| q_url := u;
                q_title := t;
                q_body := str_take 500 (default "" (body article));  (* First 500 chars *)
                q_source := default no_source (source article);
                q_image := image article;
                q_socialScore := default 0%Q (socialScore article);
                q_added_at := added_at |}
      end
  end.

(** [article.get('url') in queue_urls]; [None] is in no set of strings *)
Definition url_in (o : option string) (urls : gset string) : bool :=
  match o with
  | Some u => bool_decide (u ∈ urls)
  | None => false
  end.

(** the loop [for article in unique_articles]; [queue_urls] is computed
    once, before the loop, and [now k] is the clock reading of iteration
    [k] *)
Fixpoint push_new (queue_urls : gset string) (now : nat -> Z) (k : nat)
    (queue : list QueueEntry) (unique_articles : list Article)
    : result (list QueueEntry) :=
  match unique_articles with
  | [] => Ok queue
  | article :: rest =>
      if url_in (url article) queue_urls
      then push_new queue_urls now (S k) queue rest
      else bind (queue_entry (now k) article)
                (fun entry => push_new queue_urls now (S k) (queue ++ [entry]) rest)
  end.

(** lines 176-200: load the queue, add the new articles, limit the queue
    size; the result is what line 203 saves *)
Definition monitor_queue_step (cfg : Config) (now : nat -> Z)
    (queue_file : option (list QueueEntry)) (unique_articles : list Article)
    : result (list QueueEntry) :=
  let queue := load_json_file queue_file in
  let queue_urls : gset string := list_to_set (map q_url queue) in
  bind (push_new queue_urls now 0 queue unique_articles)
       (fun queue =>
          Ok (if MAX_QUEUE_SIZE cfg <? Z.of_nat (length queue)
              then slice_last (MAX_QUEUE_SIZE cfg) queue
              else queue)).

(** [[a for a in cache if fromisoformat(a.get('date', now().isoformat())) > cutoff]];
    the default is a fresh clock reading at every element *)
Fixpoint keep_recent (cutoff : Z) (now : nat -> Z) (k : nat) (cache : list Article)
    : list Article :=
  match cache with
  | [] => []
  | a :: rest =>
      if cutoff <? default (now k) (date a)
      then a :: keep_recent cutoff now (S k) rest
      else keep_recent cutoff now (S k) rest
  end.

(** lines 206-214: extend the cache and keep only the last 24 hours; the
    result is what line 216 saves *)
Definition monitor_cache_step (now_cutoff : Z) (now_default : nat -> Z)
    (cache_file : option (list Article)) (unique_articles : list Article)
    : list Article :=
  let cache := load_json_file cache_file ++ unique_articles in
  let cutoff := now_cutoff - timedelta_hours 24 in
  keep_recent cutoff now_default 0 cache.

(** What one run of [workflow_monitor] gets from outside: the provider's
    answer at each fetch attempt, the clock, and the function bound to
    [bot_lib.filter_articles].  main.py calls that function by keyword with
    [articles], [blacklisted_sources], [blacklisted_keywords],
    [min_social_score] and [min_length]; the definition in bot_lib.py
    declares [min_sentiment] and no [min_length], so the workflow is
    modelled for any function of the called signature, which may raise;
    [call_filter_articles] below is the call on bot_lib.py's definition. *)
Record MonitorEnv := {
  fetch_outcome : nat -> result (list Article);
  lib_filter_articles :
    list Article -> list string -> list string -> Q -> Z -> result (list Article);
  now_added_at : nat -> Z;
  now_cache_cutoff : Z;
  now_default_date : nat -> Z
}.

Definition workflow_monitor (cfg : Config) (env : MonitorEnv) (st : Stores)
    : Stores * Z :=
  (* Check API key *)
  if negb (truthy (EVENT_REGISTRY_API_KEY cfg)) then (st, 1)
  else
    match snd (fetch_articles_with_retry (fetch_outcome env) 3) with
    | Raise _ => (st, 1)
    | Ok articles =>
        if is_empty articles then (st, 0)
        else
          match lib_filter_articles env articles (BLACKLISTED_SOURCES cfg)
                  (BLACKLISTED_KEYWORDS cfg) (MIN_SOCIAL_SCORE cfg)
                  (MIN_ARTICLE_LENGTH cfg) with
          | Raise _ => (st, 1)
          | Ok filtered_articles =>
              if is_empty filtered_articles then (st, 0)
              else
                let unique_articles := remove_duplicate_articles filtered_articles in
                match monitor_queue_step cfg (now_added_at env) (QUEUE_FILE st)
                        unique_articles with
                | Raise _ => (st, 1)
                | Ok queue =>
                    let st := set_queue (save_json_file queue) st in
                    let cache := monitor_cache_step (now_cache_cutoff env)
                                   (now_default_date env) (DAILY_BRIEF_CACHE st)
                                   unique_articles in
                    (set_cache (save_json_file cache) st, 0)
                end
          end
    end.

(** ** main.py: workflow_post *)

Definition missing_keys (cfg : Config) : list string :=
  map fst
    (List.filter (fun kv => negb (truthy (snd kv)))
       [ ("GEMINI_API_KEY", GEMINI_API_KEY cfg);
         ("TWITTER_API_KEY", TWITTER_API_KEY cfg);
         ("TWITTER_API_SECRET", TWITTER_API_SECRET cfg);
         ("TWITTER_ACCESS_TOKEN", TWITTER_ACCESS_TOKEN cfg);
         ("TWITTER_ACCESS_SECRET", TWITTER_ACCESS_SECRET cfg) ]).

(** What one run of [workflow_post] gets from outside: the clock and the
    outcomes of the three provider calls ([generate_social_media_content]
    on the entry's title and body, the image preparation, and
    [post_to_twitter] on text, url and image path), each of which returns
    or raises.  bot_lib.py holds placeholders for the content and posting
    functions, so what they answer is an input of the workflow. *)
Record PostEnv := {
  now_today : Z;
  lib_generate_social_media_content : string -> string -> result (option string);
  lib_fetch_and_prepare_images : result (list string);
  lib_post_to_twitter : string -> string -> option string -> result (option string);
  ledger_clock : LedgerClock
}.

(** lines 297-322: the image is optional, and an exception in its
    preparation is swallowed *)
Definition prepare_image (cfg : Config) (env : PostEnv) (article : QueueEntry)
    : option string :=
  if truthy (UNSPLASH_ACCESS_KEY cfg) && truthy (q_image article) then
    match lib_fetch_and_prepare_images env with
    | Ok (image_path :: _) => Some image_path
    | Ok [] => None
    | Raise _ => None
    end
  else None.

Definition workflow_post (cfg : Config) (env : PostEnv) (st : Stores)
    : Stores * Z :=
  (* Check API keys *)
  if negb (is_empty (missing_keys cfg)) then (st, 1)
  else
    (* Check rate limits *)
    let posted_today := get_posted_articles_today (now_today env) st in
    if MAX_TWEETS_PER_DAY cfg <=? Z.of_nat (length posted_today) then (st, 0)
    else
      (* Load queue *)
      match load_json_file (QUEUE_FILE st) with
      | [] => (st, 0)
      | article :: queue =>                       (* article = queue.pop(0) *)
          (* queue.insert(0, article); save_json_file(QUEUE_FILE, queue) *)
          let requeued := set_queue (save_json_file (article :: queue)) st in
          match lib_generate_social_media_content env (q_title article)
                  (q_body article) with
          | Raise _ => (requeued, 1)
          | Ok tweet_text =>
              match tweet_text with
              | Some (String _ _ as text) =>
                  let image_path := prepare_image cfg env article in
                  match lib_post_to_twitter env text (q_url article) image_path with
                  | Raise _ => (requeued, 1)
                  | Ok tweet_id =>
                      if truthy tweet_id then
                        (* Record posted article, then save updated queue *)
                        match add_posted_article (ledger_clock env) (q_url article)
                                tweet_id st with
                        | Raise _ => (requeued, 1)
                        | Ok st => (set_queue (save_json_file queue) st, 0)
                        end
                      else (requeued, 1)
                  end
              | _ => (st, 1)                      (* no content: return 1, nothing saved *)
              end
          end
      end.

(** ** main.py: workflow_daily_brief *)

Record GitHubResponse := { status_code : Z; html_url : option string }.

(** What one run of [workflow_daily_brief] gets from outside: the Gemini
    call on the formatted articles and the GitHub issue request on the
    generated brief (building its URL included), each of which returns or
    raises. *)
Record BriefEnv := {
  gemini_generate_content : list (string * string * string) -> result string;
  requests_post : string -> result GitHubResponse
}.

(** one line of the prompt: title, source title or ['Unknown'], url *)
Definition brief_line (a : Article) : result (string * string * string) :=
  match title a with
  | None => Raise (KeyError "title")
  | Some t =>
      match url a with
      | None => Raise (KeyError "url")
      | Some u =>
          Ok (t, default "Unknown" (source_title (default no_source (source a))), u)
      end
  end.

Fixpoint brief_lines (articles : list Article)
    : result (list (string * string * string)) :=
  match articles with
  | [] => Ok []
  | a :: rest =>
      bind (brief_line a)
           (fun line => bind (brief_lines rest) (fun lines => Ok (line :: lines)))
  end.

Definition workflow_daily_brief (cfg : Config) (env : BriefEnv) (st : Stores)
    : Stores * Z :=
  (* Check API keys *)
  if negb (truthy (GEMINI_API_KEY cfg)) then (st, 1)
  else if negb (truthy (GITHUB_TOKEN cfg)) then (st, 1)
  else
    (* Load cached articles *)
    let articles := load_json_file (DAILY_BRIEF_CACHE st) in
    if is_empty articles then (st, 0)
    else
      match brief_lines (firstn 50 articles) with    (* Limit to top 50 articles *)
      | Raise _ => (st, 1)
      | Ok articles_text =>
          match gemini_generate_content env articles_text with
          | Raise _ => (st, 1)
          | Ok brief_content =>
              match requests_post env brief_content with
              | Raise _ => (st, 1)
              | Ok response =>
                  if status_code response =? 201 then
                    match html_url response with
                    | None => (st, 1)              (* issue_data['html_url'] raises *)
                    | Some _ =>
                        (* Clear the cache *)
                        (set_cache (save_json_file []) st, 0)
                    end
                  else (st, 1)
              end
          end
      end.

(** ** Runs of the pipeline *)

(** one invocation of ingest or publish, in any environment *)
Inductive step (cfg : Config) : Stores -> Stores -> Prop :=
| step_monitor (env : MonitorEnv) (st : Stores) :
    step cfg st (fst (workflow_monitor cfg env st))
| step_post (env : PostEnv) (st : Stores) :
    step cfg st (fst (workflow_post cfg env st)).

(** the urls held by the queue store and by the posted ledger *)
Definition queue_urls_of (st : Stores) : list string :=
  map q_url (load_json_file (QUEUE_FILE st)).

Definition posted_urls_of (st : Stores) : list string :=
  map p_url (load_json_file (POSTED_ARTICLES_FILE st)).

(** no url is queued twice, and none is both queued and posted *)
Definition url_unique (st : Stores) : Prop :=
  NoDup (queue_urls_of st) /\
  forall u, u ∈ queue_urls_of st -> u ∉ posted_urls_of st.

(** the number of ledger records dated in calendar day [d], which is the
    length of [get_posted_articles_today] on day [d] *)
Definition posted_count (d : Z) (st : Stores) : Z :=
  Z.of_nat (length (List.filter (posted_on d)
                      (load_json_file (POSTED_ARTICLES_FILE st)))).

(** the content of the digest cache, as [workflow_daily_brief] loads it *)
Definition drain (st : Stores) : list Article :=
  load_json_file (DAILY_BRIEF_CACHE st).

(** The ways the post step of [workflow_post] fails on the popped entry
    before a post is confirmed: content generation raises or gives no
    text, posting raises, or the post result is falsy. *)
Inductive post_failure (cfg : Config) (env : PostEnv) (article : QueueEntry) : Prop :=
| generation_error (e : Exception) :
    lib_generate_social_media_content env (q_title article) (q_body article) = Raise e ->
    post_failure cfg env article
| generation_empty (tweet_text : option string) :
    lib_generate_social_media_content env (q_title article) (q_body article)
      = Ok tweet_text ->
    truthy tweet_text = false ->
    post_failure cfg env article
| posting_error (text : string) (e : Exception) :
    lib_generate_social_media_content env (q_title article) (q_body article)
      = Ok (Some text) ->
    truthy (Some text) = true ->
    lib_post_to_twitter env text (q_url article) (prepare_image cfg env article)
      = Raise e ->
    post_failure cfg env article
| post_falsy (text : string) (tweet_id : option string) :
    lib_generate_social_media_content env (q_title article) (q_body article)
      = Ok (Some text) ->
    truthy (Some text) = true ->
    lib_post_to_twitter env text (q_url article) (prepare_image cfg env article)
      = Ok tweet_id ->
    truthy tweet_id = false ->
    post_failure cfg env article.

(** ** Reading the trace of the retry loop *)

(** the wait before the retry that follows a non-fatal error at [attempt] *)
Definition backoff (e : Exception) (attempt : nat) : Z :=
  if is_rate_limit e then 10 * 2 ^ Z.of_nat attempt else 5 * 2 ^ Z.of_nat attempt.

(** the first [k] attempts all failed with errors that are not fatal *)
Definition retried (op : nat -> result (list Article)) (k : nat) : Prop :=
  forall i, (i < k)%nat -> exists e, op i = Raise e /\ is_fatal e = false.

(** the events of attempts [s], ..., [s + k - 1] when each of them is
    retried: the call, then the wait of its error class *)
Definition retried_events (op : nat -> result (list Article)) (s k : nat) : list Event :=
  flat_map (fun i => match op i with
                     | Raise e => [Call i; Sleep (backoff e i)]
                     | Ok _ => [Call i]
                     end) (seq s k).

Definition is_call (ev : Event) : bool :=
  match ev with
  | Call _ => true
  | Sleep _ => false
  end.

Definition count_calls (events : list Event) : nat :=
  length (List.filter is_call events).

(** ** Calls by keyword *)

Definition TypeError (msg : string) : Exception :=
  {| exc_class := "TypeError"; exc_msg := msg |}.

(** Python binds the keywords of a call to the parameters of the function
    called; the first keyword that names no parameter raises TypeError
    before the body runs. *)
Definition unexpected_keyword (parameters keywords : list string) : option string :=
  List.find (fun k => negb (existsb (String.eqb k) parameters)) keywords.

(** the parameters of [bot_lib.filter_articles] (bot_lib.py, lines 275-281) *)
Definition filter_articles_parameters : list string :=
  [ "articles"; "blacklisted_sources"; "blacklisted_keywords";
    "min_social_score"; "min_sentiment" ].

(** the keywords of the call in [workflow_monitor] (main.py, lines 158-164) *)
Definition monitor_filter_keywords : list string :=
  [ "articles"; "blacklisted_sources"; "blacklisted_keywords";
    "min_social_score"; "min_length" ].

(** the call of main.py, line 158, on the function of bot_lib.py, line
    275: were every keyword a parameter, the body would run with the
    default [min_sentiment = -1.0] *)
Definition call_filter_articles (articles : list Article)
    (blacklisted_sources blacklisted_keywords : list string)
    (min_social_score : Q) (min_length : Z) : result (list Article) :=
  match unexpected_keyword filter_articles_parameters monitor_filter_keywords with
  | Some k =>
      Raise (TypeError ("filter_articles() got an unexpected keyword argument '"
                        ++ k ++ "'")%string)
  | None =>
      Ok (filter_articles articles blacklisted_sources blacklisted_keywords
            min_social_score (-1)%Q)
  end.

(** a monitor run of the code as it is: [bot_lib.filter_articles] is the
    function of bot_lib.py *)
Definition shipped (env : MonitorEnv) : Prop :=
  lib_filter_articles env = call_filter_articles.

(** one invocation of ingest, with [bot_lib.filter_articles] as bot_lib.py
    defines it, or of publish, in any environment *)
Inductive shipped_step (cfg : Config) : Stores -> Stores -> Prop :=
| shipped_monitor (env : MonitorEnv) (st : Stores) :
    shipped env ->
    shipped_step cfg st (fst (workflow_monitor cfg env st))
| shipped_post (env : PostEnv) (st : Stores) :
    shipped_step cfg st (fst (workflow_post cfg env st)).

(** ** Reading the queue step *)

(** [article.get('url') not in queue_urls], for the urls of [queue] *)
Definition not_queued (queue : list QueueEntry) (a : Article) : bool :=
  negb (url_in (url a) (list_to_set (map q_url queue))).

(** [x] is the first [n] characters of [s] (all of [s] when it is
    shorter) *)
Definition first_chars (n : nat) (s x : string) : Prop :=
  (exists rest, s = (x ++ rest)%string) /\
  String.length x = Nat.min n (String.length s).

(** [e] is the queue entry of article [a]: same url and title, and the
    first 500 characters of its body *)
Definition entry_of (a : Article) (e : QueueEntry) : Prop :=
  url a = Some (q_url e) /\
  title a = Some (q_title e) /\
  first_chars 500 (default "" (body a)) (q_body e).

(** ** Sample configuration and data *)

(** the constants of config.py, with every key set in the environment *)
Definition config_py : Config :=
  {| EVENT_REGISTRY_API_KEY := Some "er-key";
     GEMINI_API_KEY := Some "gemini-key";
     TWITTER_API_KEY := Some "tw-key";
     TWITTER_API_SECRET := Some "tw-secret";
     TWITTER_ACCESS_TOKEN := Some "tw-token";
     TWITTER_ACCESS_SECRET := Some "tw-token-secret";
     UNSPLASH_ACCESS_KEY := Some "unsplash-key";
     GITHUB_TOKEN := Some "gh-token";
     BLACKLISTED_SOURCES :=
       [ "example-spam-site.com"; "clickbait-news.com"; "low-quality-source.com" ];
     BLACKLISTED_KEYWORDS :=
       [ "sponsored"; "advertisement"; "crypto scam"; "get rich quick" ];
     MIN_SOCIAL_SCORE := 5%Q;
     MIN_ARTICLE_LENGTH := 200;
     MAX_TWEETS_PER_DAY := 60;
     MAX_QUEUE_SIZE := 100 |}.

(** the same configuration with other limits *)
Definition config_with (min_length max_tweets max_queue : Z) : Config :=
  {| EVENT_REGISTRY_API_KEY := EVENT_REGISTRY_API_KEY config_py;
     GEMINI_API_KEY := GEMINI_API_KEY config_py;
     TWITTER_API_KEY := TWITTER_API_KEY config_py;
     TWITTER_API_SECRET := TWITTER_API_SECRET config_py;
     TWITTER_ACCESS_TOKEN := TWITTER_ACCESS_TOKEN config_py;
     TWITTER_ACCESS_SECRET := TWITTER_ACCESS_SECRET config_py;
     UNSPLASH_ACCESS_KEY := UNSPLASH_ACCESS_KEY config_py;
     GITHUB_TOKEN := GITHUB_TOKEN config_py;
     BLACKLISTED_SOURCES := BLACKLISTED_SOURCES config_py;
     BLACKLISTED_KEYWORDS := BLACKLISTED_KEYWORDS config_py;
     MIN_SOCIAL_SCORE := MIN_SOCIAL_SCORE config_py;
     MIN_ARTICLE_LENGTH := min_length;
     MAX_TWEETS_PER_DAY := max_tweets;
     MAX_QUEUE_SIZE := max_queue |}.

Definition sample_article (u t b : string) (d : option Z) : Article :=
  {| title := Some t; url := Some u; body := Some b;
     source := Some {| uri := Some "news.example.org"; source_title := Some "Example News" |};
     image := None; socialScore := Some 12%Q; sentiment := Some 0%Q; date := d |}.

Definition sample_entry (u : string) : QueueEntry :=
  {| q_url := u; q_title := u; q_body := ""; q_source := no_source;
     q_image := None; q_socialScore := 0%Q; q_added_at := 0 |}.

Definition sample_posted (u : string) (d : Z) : PostedRecord :=
  {| p_url := u; p_tweet_id := Some "1"; p_date := Some d; p_timestamp := d |}.

Definition sample_stores (queue : list QueueEntry) (posted : list PostedRecord)
    (cache : list Article) : Stores :=
  {| QUEUE_FILE := Some queue; POSTED_ARTICLES_FILE := Some posted;
     DAILY_BRIEF_CACHE := Some cache |}.

Definition api_error (msg : string) : Exception :=
  {| exc_class := "APIError"; exc_msg := msg |}.

(** a monitor run whose provider answers [articles] at the first attempt,
    with the clock standing at [now] and [bot_lib.filter_articles] called
    as bot_lib.py defines it *)
Definition monitor_env (articles : list Article) (now : Z) : MonitorEnv :=
  {| fetch_outcome := fun _ => Ok articles;
     lib_filter_articles := call_filter_articles;
     now_added_at := fun _ => now;
     now_cache_cutoff := now;
     now_default_date := fun _ => now |}.

(** a post run at instant [now] with the given outcomes of content
    generation and posting *)
Definition post_env (now : Z) (generated posted : result (option string)) : PostEnv :=
  {| now_today := now;
     lib_generate_social_media_content := fun _ _ => generated;
     lib_fetch_and_prepare_images := Ok [];
     lib_post_to_twitter := fun _ _ _ => posted;
     ledger_clock := {| now_date := now; now_timestamp := now; now_cutoff := now |} |}.

(** a digest run with the given outcomes of generation and delivery *)
Definition brief_env (generated : result string) (delivered : result GitHubResponse)
    : BriefEnv :=
  {| gemini_generate_content := fun _ => generated;
     requests_post := fun _ => delivered |}.

(** ** Reading the behaviour of the filter and of the retry loop *)

(** the gates of [filter_articles] on one article *)
Definition passes_gates (blacklisted_sources blacklisted_keywords : list string)
    (min_social_score min_sentiment : Q) (a : Article) : Prop :=
  truthy (title a) = true /\ truthy (url a) = true /\ truthy (body a) = true /\
  (forall b, b ∈ blacklisted_sources -> substr (lower b) (source_uri_of a) = false) /\
  (forall k, k ∈ blacklisted_keywords ->
     substr (lower k) (lower (default "" (title a))) = false /\
     substr (lower k) (lower (default "" (body a))) = false) /\
  (min_social_score <= default 0%Q (socialScore a))%Q /\
  (min_sentiment <= default 0%Q (sentiment a))%Q.

(** the seconds slept in a trace of the retry loop *)
Fixpoint total_sleep (events : list Event) : Z :=
  match events with
  | [] => 0
  | Call _ :: rest => total_sleep rest
  | Sleep seconds :: rest => seconds + total_sleep rest
  end.

(** the record that [add_posted_article] appends *)
Definition posted_record (clock : LedgerClock) (url : string)
    (tweet_id : option string) : PostedRecord :=
  {| p_url := url; p_tweet_id := tweet_id;
     p_date := Some (now_date clock); p_timestamp := now_timestamp clock |}.

(** a ledger record dated after [cutoff] *)
Definition dated_after (cutoff : Z) (p : PostedRecord) : bool :=
  match p_date p with
  | Some d => cutoff <? d
  | None => false
  end.

(** the post of the popped entry is confirmed: content generation gave
    a text and [post_to_twitter] answered with a tweet id *)
Definition post_confirmed (cfg : Config) (env : PostEnv) (article : QueueEntry)
    (tweet_id : option string) : Prop :=
  exists text,
    lib_generate_social_media_content env (q_title article) (q_body article)
      = Ok (Some text) /\
    truthy (Some text) = true /\
    lib_post_to_twitter env text (q_url article) (prepare_image cfg env article)
      = Ok tweet_id /\
    truthy tweet_id = true.

(** the same run with another outcome of the image preparation *)
Definition with_images (images : result (list string)) (env : PostEnv) : PostEnv :=
  {| now_today := now_today env;
     lib_generate_social_media_content := lib_generate_social_media_content env;
     lib_fetch_and_prepare_images := images;
     lib_post_to_twitter := lib_post_to_twitter env;
     ledger_clock := ledger_clock env |}.

(** ** bot_lib.py: images *)

Definition ValueError (msg : string) : Exception :=
  {| exc_class := "ValueError"; exc_msg := msg |}.

(** an image as [fetch_unsplash_images] returns it; a field is [None]
    when the API gave no value for it *)
Record UnsplashImage := {
  image_id : option string;
  image_url : option string;
  download_url : option string;
  image_width : option Z;
  image_height : option Z;
  description : option string;
  alt_description : option string;
  photographer : option string;
  photographer_url : option string
}.

(** [fetch_unsplash_images]: the check of [count], then the request;
    [search] is what the request and the reading of its answer give, a
    list of images or the exception raised for a failed request *)
Definition fetch_unsplash_images (count : Z) (search : result (list UnsplashImage))
    : result (list UnsplashImage) :=
  if (count <? 1) || (30 <? count)
  then Raise (ValueError "Count must be between 1 and 30")
  else search.

Fixpoint ends_with_slash (s : string) : bool :=
  match s with
  | EmptyString => false
  | String c EmptyString => Ascii.eqb c "/"
  | String _ s' => ends_with_slash s'
  end.

(** [os.path.join(a, b)] on POSIX paths *)
Definition path_join (a b : string) : string :=
  if String.prefix "/" b then b
  else if String.eqb a "" || ends_with_slash a then (a ++ b)%string
  else (a ++ "/" ++ b)%string.

(** [f"{n}"] for a natural number *)
Definition decimal (n : nat) : string := NilEmpty.string_of_uint (Nat.to_uint n).

(** [os.path.join(output_dir, f"image_{i+1}_raw.jpg")] and its optimized
    counterpart, for the image at index [i] *)
Definition raw_path (output_dir : string) (i : nat) : string :=
  path_join output_dir ("image_" ++ decimal (i + 1) ++ "_raw.jpg")%string.

Definition optimized_path (output_dir : string) (i : nat) : string :=
  path_join output_dir ("image_" ++ decimal (i + 1) ++ "_optimized.jpg")%string.

(** What one call of [fetch_and_prepare_images] gets from outside: the
    outcome of creating the directory, of the Unsplash request, and of the
    download and the optimization of the image at each index. *)
Record ImageEnv := {
  os_makedirs : result unit;
  unsplash_search : result (list UnsplashImage);
  download_image : nat -> result unit;
  optimize_image_for_twitter : nat -> result unit
}.

(** the loop [for i, image in enumerate(images)]: an exception while an
    image is processed is printed and the loop goes on *)
Fixpoint prepare_loop (env : ImageEnv) (output_dir : string) (i : nat)
    (images : list UnsplashImage) : list string :=
  match images with
  | [] => []
  | image :: rest =>
      match download_image env i with
      | Raise _ => prepare_loop env output_dir (S i) rest
      | Ok _ =>
          match optimize_image_for_twitter env i with
          | Raise _ => prepare_loop env output_dir (S i) rest
          | Ok _ => optimized_path output_dir i :: prepare_loop env output_dir (S i) rest
          end
      end
  end.

Definition fetch_and_prepare_images (env : ImageEnv) (output_dir : string)
    (count : Z) : result (list string) :=
  (* Create output directory *)
  bind (os_makedirs env) (fun _ =>
  (* Fetch images from Unsplash *)
  bind (fetch_unsplash_images count (unsplash_search env)) (fun images =>
  if is_empty images then Ok []
  else Ok (prepare_loop env output_dir 0 images))).

(** the image at index [i] was downloaded and optimized *)
Definition image_ready (env : ImageEnv) (i : nat) : Prop :=
  (exists u, download_image env i = Ok u) /\
  (exists u, optimize_image_for_twitter env i = Ok u).

(** ** tools.py *)

(** [cmd_clear_queue]: without [--confirm] the user is asked, and anything
    but a spelling of "yes" cancels; [response] is what the user types *)
Definition cmd_clear_queue (confirm : bool) (response : string) (st : Stores)
    : Stores * Z :=
  if negb confirm && negb (String.eqb (lower response) "yes") then (st, 0)
  else (set_queue (save_json_file []) st, 0).

(** [getattr(config, key)] for the keys that [cmd_config_check] looks up *)
Definition getattr (cfg : Config) (key : string) : option string :=
  if String.eqb key "EVENT_REGISTRY_API_KEY" then EVENT_REGISTRY_API_KEY cfg
  else if String.eqb key "GEMINI_API_KEY" then GEMINI_API_KEY cfg
  else if String.eqb key "TWITTER_API_KEY" then TWITTER_API_KEY cfg
  else if String.eqb key "TWITTER_API_SECRET" then TWITTER_API_SECRET cfg
  else if String.eqb key "TWITTER_ACCESS_TOKEN" then TWITTER_ACCESS_TOKEN cfg
  else if String.eqb key "TWITTER_ACCESS_SECRET" then TWITTER_ACCESS_SECRET cfg
  else if String.eqb key "UNSPLASH_ACCESS_KEY" then UNSPLASH_ACCESS_KEY cfg
  else if String.eqb key "GITHUB_TOKEN" then GITHUB_TOKEN cfg
  else None.

(** the [workflows] table of [cmd_config_check] *)
Definition workflow_requirements : list (string * list string) :=
  [ ("monitor", [ "EVENT_REGISTRY_API_KEY" ]);
    ("post", [ "GEMINI_API_KEY"; "TWITTER_API_KEY"; "TWITTER_API_SECRET";
               "TWITTER_ACCESS_TOKEN"; "TWITTER_ACCESS_SECRET" ]);
    ("daily-brief", [ "GEMINI_API_KEY"; "GITHUB_TOKEN" ]) ].

(** [[k for k in required_keys if not getattr(config, k)]] *)
Definition config_check_missing (cfg : Config) (required_keys : list string)
    : list string :=
  List.filter (fun k => negb (truthy (getattr cfg k))) required_keys.

(** the "Workflow Requirements" part of [cmd_config_check]: every workflow
    with the keys it misses (none: "Ready") *)
Definition cmd_config_check (cfg : Config) : list (string * list string) :=
  map (fun wr => (fst wr, config_check_missing cfg (snd wr))) workflow_requirements.

(** * Properties *)

(** ** Strings and slices *)

Lemma str_take_length (n : nat) (s : string) :
  (String.length (str_take n s) <= n)%nat.
Proof.
  revert s. induction n as [|n IH]; intros [|c s]; simpl; try lia.
  specialize (IH s). lia.
Qed.

Lemma str_take_prefix (n : nat) (s : string) :
  String.prefix (str_take n s) s = true.
Proof.
  revert s. induction n as [|n IH]; intros [|c s]; simpl; try reflexivity.
  destruct (ascii_dec c c) as [_|Hne]; [apply IH | congruence].
Qed.

Lemma str_take_all (n : nat) (s : string) :
  (String.length s <= n)%nat -> str_take n s = s.
Proof.
  revert s. induction n as [|n IH]; intros [|c s]; simpl; intros Hlen;
    try reflexivity; try lia.
  f_equal. apply IH. lia.
Qed.

Lemma str_take_first_chars (n : nat) (s : string) :
  first_chars n s (str_take n s).
Proof.
  revert s. induction n as [|n IH]; intros s.
  - split; [exists s; reflexivity | destruct s; reflexivity].
  - destruct s as [|c s].
    + split; [exists ""; reflexivity | reflexivity].
    + destruct (IH s) as [[rest Hrest] Hlen]. split.
      * exists rest. simpl.
        change (String c s = String c (str_take n s ++ rest)%string).
        by rewrite <- Hrest.
      * simpl. by rewrite Hlen.
Qed.

(** [first_chars] names one string *)
Lemma first_chars_unique (n : nat) (s x y : string) :
  first_chars n s x -> first_chars n s y -> x = y.
Proof.
  intros [[rx Hx] Hlx] [[ry Hy] Hly].
  assert (String.length x = String.length y) as Hlen by congruence.
  rewrite Hx in Hy. clear - Hy Hlen.
  revert y Hy Hlen. induction x as [|c x IH]; intros [|d y] Hy Hlen;
    try reflexivity; try discriminate.
  change (String c (x ++ rx)%string = String d (y ++ ry)%string) in Hy.
  injection Hy as -> Hy. f_equal. apply IH; [exact Hy|]. simpl in Hlen. lia.
Qed.

Lemma slice_last_spec {A : Type} (n : Z) (l : list A) :
  0 < n -> n < Z.of_nat (length l) ->
  exists evicted,
    l = evicted ++ slice_last n l /\
    Z.of_nat (length (slice_last n l)) = n /\
    (0 < length evicted)%nat.
Proof.
  intros Hpos Hlt. unfold slice_last.
  destruct (Z.ltb_spec 0 n) as [_|]; [|lia].
  exists (take (length l - Z.to_nat n) l). split; [|split].
  - symmetry. apply take_drop.
  - rewrite length_drop. lia.
  - rewrite length_take. lia.
Qed.

Lemma slice_last_suffix {A : Type} (n : Z) (l : list A) :
  exists evicted, l = evicted ++ slice_last n l.
Proof.
  unfold slice_last. destruct (0 <? n).
  - exists (take (length l - Z.to_nat n) l). symmetry. apply take_drop.
  - exists (take (Z.to_nat (- n)) l). symmetry. apply take_drop.
Qed.

Lemma slice_last_sublist {A : Type} (n : Z) (l : list A) :
  slice_last n l `sublist_of` l.
Proof. unfold slice_last. destruct (0 <? n); apply sublist_drop. Qed.

(** ** The ingestion filter *)

Lemma remove_duplicates_from_elem (seen : gset string) (articles : list Article)
    (a : Article) :
  a ∈ remove_duplicates_from seen articles ->
  a ∈ articles /\ exists u, url a = Some u /\ (u ∉ seen) /\ truthy (url a) = true.
Proof.
  revert seen. induction articles as [|x rest IH]; intros seen; simpl.
  - intros H. inversion H.
  - destruct (url x) as [[|c u']|] eqn:Hurl.
    + intros H. destruct (IH _ H) as [Hin Hu]. split; [by right | exact Hu].
    + case_bool_decide as Hseen.
      * intros H. destruct (IH _ H) as [Hin Hu]. split; [by right | exact Hu].
      * intros H. apply elem_of_cons in H as [-> | H].
        -- split; [by left|]. exists (String c u'). rewrite Hurl. by repeat split.
        -- destruct (IH _ H) as [Hin (u & Hu & Hnot & Ht)].
           split; [by right|]. exists u. repeat split; auto.
           intros Hs. apply Hnot, elem_of_union. by right.
    + intros H. destruct (IH _ H) as [Hin Hu]. split; [by right | exact Hu].
Qed.

Lemma remove_duplicates_from_NoDup (seen : gset string) (articles : list Article) :
  NoDup (map url (remove_duplicates_from seen articles)).
Proof.
  revert seen. induction articles as [|x rest IH]; intros seen; simpl.
  - constructor.
  - destruct (url x) as [[|c u']|] eqn:Hurl; try apply IH.
    case_bool_decide as Hseen; [apply IH|].
    simpl. constructor; [|apply IH].
    rewrite Hurl. intros Hin. apply list_elem_of_In, in_map_iff in Hin.
    destruct Hin as (a & Ha & Hin). apply list_elem_of_In in Hin.
    apply remove_duplicates_from_elem in Hin as [_ (u & Hu & Hnot & _)].
    rewrite Hu in Ha. injection Ha as ->.
    apply Hnot, elem_of_union. left. by apply elem_of_singleton.
Qed.

(** the urls of a deduplicated batch are pairwise distinct *)
Lemma remove_duplicate_articles_NoDup (articles : list Article) :
  NoDup (map url (remove_duplicate_articles articles)).
Proof. apply remove_duplicates_from_NoDup. Qed.

(** Everything the ingestion filter lets through has its required fields,
    matches no blacklisted source or keyword and meets the two score
    thresholds; the filter has no gate on the length of the body. *)
Lemma ingestion_filter_gates (articles : list Article)
    (blacklisted_sources blacklisted_keywords : list string)
    (min_social_score min_sentiment : Q) (a : Article) :
  a ∈ remove_duplicate_articles
        (filter_articles articles blacklisted_sources blacklisted_keywords
           min_social_score min_sentiment) ->
  truthy (title a) = true /\ truthy (url a) = true /\ truthy (body a) = true /\
  (forall b, b ∈ blacklisted_sources -> substr (lower b) (source_uri_of a) = false) /\
  (forall k, k ∈ blacklisted_keywords ->
     substr (lower k) (lower (default "" (title a))) = false /\
     substr (lower k) (lower (default "" (body a))) = false) /\
  (min_social_score <= default 0%Q (socialScore a))%Q /\
  (min_sentiment <= default 0%Q (sentiment a))%Q.
Proof.
  intros Hin. apply remove_duplicates_from_elem in Hin as [Hin _].
  apply list_elem_of_In, filter_In in Hin as [_ Hkeep].
  unfold filter_keep in Hkeep.
  destruct (truthy (title a)); [|discriminate].
  destruct (truthy (url a)); [|discriminate].
  destruct (truthy (body a)); [|discriminate]. simpl in Hkeep.
  destruct (existsb _ blacklisted_sources) eqn:Hsrc; [discriminate|].
  destruct (existsb _ blacklisted_keywords) eqn:Hkw; [discriminate|].
  destruct (Qle_bool min_social_score _) eqn:Hscore; [|discriminate].
  destruct (Qle_bool min_sentiment _) eqn:Hsent; [|discriminate].
  repeat split; auto.
  - intros b Hb. apply list_elem_of_In in Hb.
    destruct (substr (lower b) (source_uri_of a)) eqn:E; [|reflexivity].
    assert (existsb (fun blacklisted => substr (lower blacklisted) (source_uri_of a))
              blacklisted_sources = true) as Hex
      by (apply existsb_exists; eauto).
    congruence.
  - destruct (substr (lower k) (lower (default "" (title a)))) eqn:E; [|reflexivity].
    apply list_elem_of_In in H.
    assert (existsb (fun keyword =>
                       substr (lower keyword) (lower (default "" (title a)))
                       || substr (lower keyword) (lower (default "" (body a))))
              blacklisted_keywords = true) as Hex
      by (apply existsb_exists; exists k; rewrite E; auto).
    congruence.
  - destruct (substr (lower k) (lower (default "" (body a)))) eqn:E; [|reflexivity].
    apply list_elem_of_In in H.
    assert (existsb (fun keyword =>
                       substr (lower keyword) (lower (default "" (title a)))
                       || substr (lower keyword) (lower (default "" (body a))))
              blacklisted_keywords = true) as Hex
      by (apply existsb_exists; exists k; rewrite E, orb_true_r; auto).
    congruence.
  - by apply Qle_bool_iff.
  - by apply Qle_bool_iff.
Qed.

(** C2.  The ingestion filter ([filter_articles], then
    [remove_duplicate_articles]) run with the thresholds of config.py lets
    through an article whose body has 6 characters, although the
    configured minimum body length is 200: the filter has no gate on the
    length of the body. *)
Theorem filter_articles_keeps_short_body :
  let a := sample_article "https://news.example.org/a" "Hashrate climbs" "Short." None in
  remove_duplicate_articles
    (filter_articles [a] (BLACKLISTED_SOURCES config_py)
       (BLACKLISTED_KEYWORDS config_py) (MIN_SOCIAL_SCORE config_py) (-1)%Q) = [a]
  /\ Z.of_nat (String.length (default "" (body a))) < MIN_ARTICLE_LENGTH config_py.
Proof. vm_compute. split; reflexivity. Qed.

(** ** The domain-relevance gate *)

Lemma count_keywords_filter (keywords : list string) (content : string) :
  BitcoinMiningFilter.count_keywords keywords content =
  Z.of_nat (length (List.filter (fun keyword => substr keyword content) keywords)).
Proof.
  induction keywords as [|k rest IH]; simpl; [reflexivity|].
  rewrite IH. destruct (substr k content); simpl; lia.
Qed.

(** C9, as stated, fails: a title that mentions one term twice has two
    occurrences of terms of the keyword set, yet the check with minimum 2
    rejects the article. *)
Lemma is_mining_relevant_not_occurrences :
  let a := sample_article "https://news.example.org/chips"
             "New ASIC beats old ASIC" "The chip ships next month." None in
  ~ (BitcoinMiningFilter._is_mining_relevant 2 a = true
     <-> 2 <= BitcoinMiningFilter.spec_occurrence_count a).
Proof.
  intros a [_ H].
  assert (BitcoinMiningFilter._is_mining_relevant 2 a = true) as Hrel
    by (apply H; vm_compute; discriminate).
  vm_compute in Hrel. discriminate.
Qed.

(** C9, amended.  The relevance check passes if and only if the number of
    entries of the fixed keyword list that occur, as substrings, in the
    lowered title, a space and the lowered body is at least the configured
    minimum: every keyword counts once, however often it occurs. *)
Theorem is_mining_relevant_iff (min_mining_terms : Z) (article : Article) :
  BitcoinMiningFilter._is_mining_relevant min_mining_terms article = true <->
  min_mining_terms <=
    Z.of_nat (length (List.filter
      (fun keyword =>
         substr keyword (lower (default "" (title article)) ++ " "
                         ++ lower (default "" (body article)))%string)
      BitcoinMiningFilter.MINING_KEYWORDS)).
Proof.
  unfold BitcoinMiningFilter._is_mining_relevant.
  rewrite count_keywords_filter. unfold BitcoinMiningFilter.content_of.
  apply Z.leb_le.
Qed.

(** ** The queue step of workflow_monitor *)

Lemma queue_entry_url (t : Z) (a : Article) (e : QueueEntry) :
  queue_entry t a = Ok e -> url a = Some (q_url e).
Proof.
  unfold queue_entry. destruct (url a); [|discriminate].
  destruct (title a); [|discriminate]. intros [= <-]. reflexivity.
Qed.

Lemma queue_entry_body (t : Z) (a : Article) (e : QueueEntry) :
  queue_entry t a = Ok e -> q_body e = str_take 500 (default "" (body a)).
Proof.
  unfold queue_entry. destruct (url a); [|discriminate].
  destruct (title a); [|discriminate]. intros [= <-]. reflexivity.
Qed.

(** the push loop only appends: what it returns is the old queue followed
    by one entry for each article whose url is not in [queue_urls], in the
    order of the batch *)
Lemma push_new_spec (queue_urls : gset string) (now : nat -> Z)
    (unique_articles : list Article) :
  forall (k : nat) (queue queue' : list QueueEntry),
    push_new queue_urls now k queue unique_articles = Ok queue' ->
    exists new,
      queue' = queue ++ new /\
      Forall (fun e => exists a j, a ∈ unique_articles /\
                         queue_entry (now j) a = Ok e /\ q_url e ∉ queue_urls) new /\
      map (fun e => Some (q_url e)) new `sublist_of` map url unique_articles.
Proof.
  induction unique_articles as [|a rest IH]; intros k queue queue'; simpl.
  - intros [= <-]. exists []. rewrite app_nil_r. repeat split; constructor.
  - destruct (url_in (url a) queue_urls) eqn:Hin.
    + intros H. destruct (IH _ _ _ H) as (new & -> & Hall & Hsub).
      exists new. repeat split.
      * eapply Forall_impl; [exact Hall|]. intros e (a' & j & Ha & He & Hn).
        exists a', j. repeat split; auto. by right.
      * by apply sublist_cons.
    + destruct (queue_entry (now k) a) as [e|] eqn:He; simpl; [|discriminate].
      intros H. destruct (IH _ _ _ H) as (new & -> & Hall & Hsub).
      exists (e :: new). rewrite <- app_assoc. repeat split.
      * constructor.
        -- exists a, k. repeat split; auto; [by left|].
           apply queue_entry_url in He. rewrite He in Hin. simpl in Hin.
           by apply bool_decide_eq_false in Hin.
        -- eapply Forall_impl; [exact Hall|]. intros e' (a' & j & Ha & He' & Hn).
           exists a', j. repeat split; auto. by right.
      * simpl. rewrite <- (queue_entry_url _ _ _ He). by apply sublist_skip.
Qed.

(** a run of [workflow_monitor] either leaves the three stores as they
    were, or ends with status 0 having saved the queue step's and the
    cache step's results for the deduplicated batch *)
Lemma workflow_monitor_cases (cfg : Config) (env : MonitorEnv) (st : Stores) :
  fst (workflow_monitor cfg env st) = st \/
  exists filtered_articles queue,
    let unique_articles := remove_duplicate_articles filtered_articles in
    monitor_queue_step cfg (now_added_at env) (QUEUE_FILE st) unique_articles = Ok queue /\
    workflow_monitor cfg env st =
      (set_cache (Some (monitor_cache_step (now_cache_cutoff env) (now_default_date env)
                          (DAILY_BRIEF_CACHE st) unique_articles))
         (set_queue (Some queue) st), 0).
Proof.
  unfold workflow_monitor.
  destruct (negb (truthy (EVENT_REGISTRY_API_KEY cfg))); [by left|].
  destruct (snd (fetch_articles_with_retry (fetch_outcome env) 3)) as [articles|];
    [|by left].
  destruct (is_empty articles); [by left|].
  destruct (lib_filter_articles env articles _ _ _ _) as [filtered|]; [|by left].
  destruct (is_empty filtered); [by left|].
  destruct (monitor_queue_step cfg (now_added_at env) (QUEUE_FILE st)
              (remove_duplicate_articles filtered)) as [queue|] eqn:Hq; [|by left].
  right. exists filtered, queue. split; [exact Hq|].
  reflexivity.
Qed.

(** the run exposed: a run that changes a store fetched [articles], got
    [filtered_articles] from the call of [bot_lib.filter_articles] on them
    and saved the queue step's result for the deduplicated batch *)
Lemma workflow_monitor_cases_batch (cfg : Config) (env : MonitorEnv) (st : Stores) :
  fst (workflow_monitor cfg env st) = st \/
  exists articles filtered_articles queue,
    snd (fetch_articles_with_retry (fetch_outcome env) 3) = Ok articles /\
    lib_filter_articles env articles (BLACKLISTED_SOURCES cfg)
      (BLACKLISTED_KEYWORDS cfg) (MIN_SOCIAL_SCORE cfg) (MIN_ARTICLE_LENGTH cfg)
      = Ok filtered_articles /\
    monitor_queue_step cfg (now_added_at env) (QUEUE_FILE st)
      (remove_duplicate_articles filtered_articles) = Ok queue /\
    load_json_file (QUEUE_FILE (fst (workflow_monitor cfg env st))) = queue.
Proof.
  unfold workflow_monitor.
  destruct (negb (truthy (EVENT_REGISTRY_API_KEY cfg))); [by left|].
  destruct (snd (fetch_articles_with_retry (fetch_outcome env) 3)) as [articles|];
    [|by left].
  destruct (is_empty articles); [by left|].
  destruct (lib_filter_articles env articles _ _ _ _) as [filtered|] eqn:Hf; [|by left].
  destruct (is_empty filtered); [by left|].
  destruct (monitor_queue_step cfg (now_added_at env) (QUEUE_FILE st)
              (remove_duplicate_articles filtered)) as [queue|] eqn:Hq; [|by left].
  right. exists articles, filtered, queue. repeat split; auto.
Qed.

(** the call of main.py, line 158, raises whatever it is given *)
Lemma call_filter_articles_raises (articles : list Article)
    (blacklisted_sources blacklisted_keywords : list string)
    (min_social_score : Q) (min_length : Z) :
  call_filter_articles articles blacklisted_sources blacklisted_keywords
    min_social_score min_length
  = Raise (TypeError "filter_articles() got an unexpected keyword argument 'min_length'").
Proof. reflexivity. Qed.

(** with [bot_lib.filter_articles] as bot_lib.py defines it, no run of
    [workflow_monitor] writes a store *)
Lemma workflow_monitor_shipped (cfg : Config) (env : MonitorEnv) (st : Stores) :
  shipped env -> fst (workflow_monitor cfg env st) = st.
Proof.
  intros Henv. unfold workflow_monitor.
  destruct (negb (truthy (EVENT_REGISTRY_API_KEY cfg))); [reflexivity|].
  destruct (snd (fetch_articles_with_retry (fetch_outcome env) 3)) as [articles|];
    [|reflexivity].
  destruct (is_empty articles); [reflexivity|].
  rewrite Henv, call_filter_articles_raises. reflexivity.
Qed.

(** the push loop, exactly: the returned queue is the old queue followed by
    one entry for each article of the batch whose url is not in
    [queue_urls], in the order of the batch *)
Lemma push_new_exact (queue_urls : gset string) (now : nat -> Z)
    (unique_articles : list Article) :
  forall (k : nat) (queue queue' : list QueueEntry),
    push_new queue_urls now k queue unique_articles = Ok queue' ->
    exists new,
      queue' = queue ++ new /\
      Forall2 (fun a e => exists j, queue_entry (now j) a = Ok e)
        (List.filter (fun a => negb (url_in (url a) queue_urls)) unique_articles) new.
Proof.
  induction unique_articles as [|a rest IH]; intros k queue queue'; simpl.
  - intros [= <-]. exists []. rewrite app_nil_r. split; [reflexivity | constructor].
  - destruct (url_in (url a) queue_urls); simpl.
    + apply IH.
    + destruct (queue_entry (now k) a) as [e|] eqn:He; simpl; [|discriminate].
      intros H. destruct (IH _ _ _ H) as (new & -> & Hall).
      exists (e :: new). rewrite <- app_assoc. split; [reflexivity|].
      constructor; [by exists k | exact Hall].
Qed.

(** the push loop returns a queue when every article of the batch has its
    [url] and [title] keys *)
Lemma push_new_total (queue_urls : gset string) (now : nat -> Z)
    (unique_articles : list Article) :
  Forall (fun a => url a <> None /\ title a <> None) unique_articles ->
  forall (k : nat) (queue : list QueueEntry),
    exists queue', push_new queue_urls now k queue unique_articles = Ok queue'.
Proof.
  induction 1 as [|a rest [Hu Ht] _ IH]; intros k queue; simpl; [by eexists|].
  destruct (url_in (url a) queue_urls); [apply IH|].
  unfold queue_entry. destruct (url a) as [u|]; [|congruence].
  destruct (title a) as [t|]; [|congruence]. simpl. apply IH.
Qed.

(** the queue step, exactly: one entry is pushed for each article of the
    batch that is not queued yet, in the order of the batch, and the result
    is the pushed queue, sliced when it is longer than the maximum *)
Lemma monitor_queue_step_exact (cfg : Config) (now : nat -> Z)
    (queue_file : option (list QueueEntry)) (unique_articles : list Article)
    (queue' : list QueueEntry) :
  monitor_queue_step cfg now queue_file unique_articles = Ok queue' ->
  exists new,
    Forall2 (fun a e => exists j, queue_entry (now j) a = Ok e)
      (List.filter (not_queued (load_json_file queue_file)) unique_articles) new /\
    queue' = (if MAX_QUEUE_SIZE cfg <? Z.of_nat (length (load_json_file queue_file ++ new))
              then slice_last (MAX_QUEUE_SIZE cfg) (load_json_file queue_file ++ new)
              else load_json_file queue_file ++ new).
Proof.
  unfold monitor_queue_step. intros Hstep.
  destruct (push_new _ _ 0 _ unique_articles) as [pushed|] eqn:Hpush; simpl in Hstep;
    [|discriminate].
  injection Hstep as <-.
  apply push_new_exact in Hpush as (new & -> & Hall).
  exists new. split; [exact Hall | reflexivity].
Qed.

(** what the dict literal of lines 184-192 stores of an article *)
Lemma queue_entry_entry_of (t : Z) (a : Article) (e : QueueEntry) :
  queue_entry t a = Ok e ->
  entry_of a e /\
  q_body e = str_take 500 (default "" (body a)) /\
  (String.length (q_body e) <= 500)%nat /\
  (body a = None -> q_body e = "").
Proof.
  intros He.
  pose proof (queue_entry_url _ _ _ He) as Hu.
  pose proof (queue_entry_body _ _ _ He) as Hb.
  assert (title a = Some (q_title e)) as Ht.
  { unfold queue_entry in He. destruct (url a); [|discriminate].
    destruct (title a); [|discriminate]. by injection He as <-. }
  unfold entry_of. rewrite Hb.
  split; [|split; [|split]].
  - split; [exact Hu|]. split; [exact Ht|]. apply str_take_first_chars.
  - reflexivity.
  - apply str_take_length.
  - intros ->. reflexivity.
Qed.

(** C10.  Every queue entry that [workflow_monitor] creates stores only an
    excerpt of the body of its article.  The queue step (lines 176-200)
    creates one entry for each article of the batch that is not queued
    yet, in the order of the batch, and saves a suffix of the old queue
    followed by these entries; the entry of an article has its url and
    title and, as body, the first 500 characters of the article's body:
    the body is the stored text followed by a rest, and the stored text
    has 500 characters, or as many as the body has when it is shorter, so
    at most 500 whatever the length of the body, and the empty string when
    the article has no body.  A run of [workflow_monitor] that changes a
    store has saved the result of this step on the deduplicated output of
    the filter call on the fetched articles. *)
Theorem monitor_queue_entries_hold_excerpt :
  (forall (cfg : Config) (now : nat -> Z) (queue_file : option (list QueueEntry))
          (unique_articles : list Article) (queue' : list QueueEntry),
     monitor_queue_step cfg now queue_file unique_articles = Ok queue' ->
     exists new evicted,
       load_json_file queue_file ++ new = evicted ++ queue' /\
       Forall2 (fun a e => entry_of a e /\
                           q_body e = str_take 500 (default "" (body a)) /\
                           (String.length (q_body e) <= 500)%nat /\
                           (body a = None -> q_body e = ""))
         (List.filter (not_queued (load_json_file queue_file)) unique_articles) new)
  /\
  (forall (cfg : Config) (env : MonitorEnv) (st : Stores),
     fst (workflow_monitor cfg env st) = st \/
     exists articles filtered_articles new evicted,
       snd (fetch_articles_with_retry (fetch_outcome env) 3) = Ok articles /\
       lib_filter_articles env articles (BLACKLISTED_SOURCES cfg)
         (BLACKLISTED_KEYWORDS cfg) (MIN_SOCIAL_SCORE cfg) (MIN_ARTICLE_LENGTH cfg)
         = Ok filtered_articles /\
       load_json_file (QUEUE_FILE st) ++ new
         = evicted ++ load_json_file (QUEUE_FILE (fst (workflow_monitor cfg env st))) /\
       Forall2 (fun a e => entry_of a e /\
                           q_body e = str_take 500 (default "" (body a)) /\
                           (String.length (q_body e) <= 500)%nat /\
                           (body a = None -> q_body e = ""))
         (List.filter (not_queued (load_json_file (QUEUE_FILE st)))
            (remove_duplicate_articles filtered_articles)) new).
Proof.
  assert (forall cfg now queue_file unique_articles queue',
            monitor_queue_step cfg now queue_file unique_articles = Ok queue' ->
            exists new evicted,
              load_json_file queue_file ++ new = evicted ++ queue' /\
              Forall2 (fun a e => entry_of a e /\
                                  q_body e = str_take 500 (default "" (body a)) /\
                                  (String.length (q_body e) <= 500)%nat /\
                                  (body a = None -> q_body e = ""))
                (List.filter (not_queued (load_json_file queue_file)) unique_articles) new)
    as Hstep.
  { intros cfg now queue_file unique queue' Hq.
    apply monitor_queue_step_exact in Hq as (new & Hall & ->).
    exists new.
    assert (Forall2 (fun a e => entry_of a e /\
                                q_body e = str_take 500 (default "" (body a)) /\
                                (String.length (q_body e) <= 500)%nat /\
                                (body a = None -> q_body e = ""))
              (List.filter (not_queued (load_json_file queue_file)) unique) new) as Hnew.
    { eapply Forall2_impl; [exact Hall|]. intros a e [j He].
      exact (queue_entry_entry_of _ _ _ He). }
    destruct (_ <? _).
    - destruct (slice_last_suffix (MAX_QUEUE_SIZE cfg) (load_json_file queue_file ++ new))
        as [evicted Hev].
      exists evicted. split; [exact Hev | exact Hnew].
    - exists []. split; [reflexivity | exact Hnew]. }
  split; [exact Hstep|].
  intros cfg env st.
  destruct (workflow_monitor_cases_batch cfg env st)
    as [Hsame | (articles & filtered & queue & Hfetch & Hfilter & Hq & Hsaved)];
    [by left|].
  right. destruct (Hstep _ _ _ _ _ Hq) as (new & evicted & Heq & Hnew).
  exists articles, filtered, new, evicted. rewrite Hsaved. repeat split; auto.
Qed.

Lemma monitor_queue_entries_hold_excerpt_witness :
  let long_body := String.concat "" (repeat "hashrate and difficulty " 40) in
  let a := sample_article "https://news.example.org/long" "Hashrate report" long_body None in
  let e := {| q_url := "https://news.example.org/long"; q_title := "Hashrate report";
              q_body := str_take 500 long_body;
              q_source := {| uri := Some "news.example.org";
                             source_title := Some "Example News" |};
              q_image := None; q_socialScore := 12%Q; q_added_at := 1000 |} in
  String.length long_body = 960%nat /\
  String.length (q_body e) = 500%nat /\
  monitor_queue_step config_py (fun _ => 1000) (Some []) [a] = Ok [e] /\
  exists new evicted,
    [] ++ new = evicted ++ [e] /\
    Forall2 (fun a e => entry_of a e /\
                        q_body e = str_take 500 (default "" (body a)) /\
                        (String.length (q_body e) <= 500)%nat /\
                        (body a = None -> q_body e = ""))
      (List.filter (not_queued []) [a]) new.
Proof.
  intros long_body a e.
  assert (monitor_queue_step config_py (fun _ => 1000) (Some []) [a] = Ok [e]) as Hstep
    by (vm_compute; reflexivity).
  split; [vm_compute; reflexivity|]. split; [vm_compute; reflexivity|].
  split; [exact Hstep|].
  exact (proj1 monitor_queue_entries_hold_excerpt config_py (fun _ => 1000) (Some []) [a]
           [e] Hstep).
Defined.

(** C4.  The queue step of [workflow_monitor] (lines 176-200) run with a
    positive maximum saves exactly the most recently pushed entries: one
    entry is pushed for each article of the batch that is not queued yet,
    in the order of the batch, behind the old queue, and the saved queue
    is what is left of the pushed queue when its first entries are
    dropped until the maximum is met (none when it is met already), so
    its length is the smaller of the maximum and the pushed length; the
    step returns a queue whenever the articles have their url and title.
    With maximum 3, queue [x, y, z] and a new article w, the step gives
    [y, z, w].  Two things break the claim.  With maximum 0 the slice
    [queue[-0:]] is the whole queue, and the step gives the four entries
    [x, y, z, w].  And a run of [workflow_monitor] on the scenario never
    comes to the queue step: the call of [bot_lib.filter_articles] raises,
    the run returns 1 and the queue is still [x, y, z]. *)
Theorem monitor_queue_bound :
  (forall (cfg : Config) (now : nat -> Z) (queue_file : option (list QueueEntry))
          (unique_articles : list Article) (queue' : list QueueEntry),
     0 < MAX_QUEUE_SIZE cfg ->
     monitor_queue_step cfg now queue_file unique_articles = Ok queue' ->
     exists new,
       Forall2 (fun a e => exists k, queue_entry (now k) a = Ok e)
         (List.filter (not_queued (load_json_file queue_file)) unique_articles) new /\
       queue' = skipn (length (load_json_file queue_file ++ new)
                       - Z.to_nat (MAX_QUEUE_SIZE cfg))%nat
                  (load_json_file queue_file ++ new) /\
       Z.of_nat (length queue')
       = Z.min (MAX_QUEUE_SIZE cfg) (Z.of_nat (length (load_json_file queue_file ++ new))))
  /\
  (forall (cfg : Config) (now : nat -> Z) (queue_file : option (list QueueEntry))
          (unique_articles : list Article),
     Forall (fun a => url a <> None /\ title a <> None) unique_articles ->
     exists queue', monitor_queue_step cfg now queue_file unique_articles = Ok queue')
  /\
  (forall now : nat -> Z,
     exists w,
       queue_entry (now 0%nat)
         (sample_article "w" "Difficulty falls" "The difficulty fell." None) = Ok w /\
       monitor_queue_step (config_with 10 60 3) now
         (Some [sample_entry "x"; sample_entry "y"; sample_entry "z"])
         [sample_article "w" "Difficulty falls" "The difficulty fell." None]
       = Ok [sample_entry "y"; sample_entry "z"; w])
  /\
  (forall now : nat -> Z,
     exists w,
       queue_entry (now 0%nat)
         (sample_article "w" "Difficulty falls" "The difficulty fell." None) = Ok w /\
       monitor_queue_step (config_with 10 60 0) now
         (Some [sample_entry "x"; sample_entry "y"; sample_entry "z"])
         [sample_article "w" "Difficulty falls" "The difficulty fell." None]
       = Ok [sample_entry "x"; sample_entry "y"; sample_entry "z"; w])
  /\
  (forall now : Z,
     workflow_monitor (config_with 10 60 3)
       (monitor_env [sample_article "w" "Difficulty falls" "The difficulty fell." None] now)
       (sample_stores [sample_entry "x"; sample_entry "y"; sample_entry "z"] [] [])
     = (sample_stores [sample_entry "x"; sample_entry "y"; sample_entry "z"] [] [], 1)).
Proof.
  split; [|split; [|split; [|split]]].
  - intros cfg now queue_file unique queue' Hpos Hstep.
    apply monitor_queue_step_exact in Hstep as (new & Hall & ->).
    exists new. split; [exact Hall|].
    set (pushed := load_json_file queue_file ++ new).
    unfold slice_last. destruct (Z.ltb_spec 0 (MAX_QUEUE_SIZE cfg)) as [_|]; [|lia].
    destruct (Z.ltb_spec (MAX_QUEUE_SIZE cfg) (Z.of_nat (length pushed))) as [Hover|Hfit].
    + split; [reflexivity|]. rewrite length_skipn. lia.
    + replace (length pushed - Z.to_nat (MAX_QUEUE_SIZE cfg))%nat with 0%nat by lia.
      simpl. split; [reflexivity | lia].
  - intros cfg now queue_file unique Hkeys. unfold monitor_queue_step.
    destruct (push_new_total (list_to_set (map q_url (load_json_file queue_file))) now
                unique Hkeys 0%nat (load_json_file queue_file)) as [pushed ->].
    simpl. by eexists.
  - intros now. eexists. split; reflexivity.
  - intros now. eexists. split; reflexivity.
  - intros now. reflexivity.
Qed.

Lemma monitor_queue_bound_witness :
  let cfg := config_with 10 60 3 in
  let queue_file := Some [sample_entry "x"; sample_entry "y"; sample_entry "z"] in
  let batch := [sample_article "w" "Difficulty falls" "The difficulty fell." None] in
  let queue' := [sample_entry "y"; sample_entry "z";
                 {| q_url := "w"; q_title := "Difficulty falls";
                    q_body := "The difficulty fell.";
                    q_source := {| uri := Some "news.example.org";
                                   source_title := Some "Example News" |};
                    q_image := None; q_socialScore := 12%Q; q_added_at := 7 |}] in
  0 < MAX_QUEUE_SIZE cfg /\
  monitor_queue_step cfg (fun _ => 7) queue_file batch = Ok queue' /\
  exists new,
    Forall2 (fun a e => exists k : nat, queue_entry 7 a = Ok e)
      (List.filter (not_queued (load_json_file queue_file)) batch) new /\
    queue' = skipn (length (load_json_file queue_file ++ new)
                    - Z.to_nat (MAX_QUEUE_SIZE cfg))%nat
               (load_json_file queue_file ++ new) /\
    Z.of_nat (length queue')
    = Z.min (MAX_QUEUE_SIZE cfg) (Z.of_nat (length (load_json_file queue_file ++ new))).
Proof.
  intros cfg queue_file batch queue'.
  assert (0 < MAX_QUEUE_SIZE cfg) as Hpos by (vm_compute; reflexivity).
  assert (monitor_queue_step cfg (fun _ => 7) queue_file batch = Ok queue') as Hstep
    by (vm_compute; reflexivity).
  split; [exact Hpos|]. split; [exact Hstep|].
  exact (proj1 monitor_queue_bound cfg (fun _ => 7) queue_file batch queue' Hpos Hstep).
Defined.

(** ** Retention *)

Lemma keep_after_spec (cutoff : Z) (posted kept : list PostedRecord) :
  keep_after cutoff posted = Ok kept ->
  forall p, p ∈ kept -> p ∈ posted /\ exists d, p_date p = Some d /\ cutoff < d.
Proof.
  revert kept. induction posted as [|x rest IH]; intros kept; simpl.
  - intros [= <-] p Hp. inversion Hp.
  - destruct (p_date x) as [d|] eqn:Hd; [|discriminate].
    destruct (keep_after cutoff rest) as [kept'|]; simpl; [|discriminate].
    intros [= <-] p Hp.
    destruct (Z.ltb_spec cutoff d) as [Hlt|Hge].
    + apply elem_of_cons in Hp as [-> | Hp].
      * split; [by left | eauto].
      * destruct (IH _ eq_refl p Hp) as [Hin Hex]. split; [by right | exact Hex].
    + destruct (IH _ eq_refl p Hp) as [Hin Hex]. split; [by right | exact Hex].
Qed.

Lemma keep_after_total (cutoff : Z) (posted : list PostedRecord) :
  (forall p, p ∈ posted -> p_date p <> None) ->
  exists kept, keep_after cutoff posted = Ok kept.
Proof.
  induction posted as [|x rest IH]; intros Hdates; simpl; [eauto|].
  destruct (p_date x) as [d|] eqn:Hd.
  - destruct IH as [kept ->]; [intros p Hp; apply Hdates; by right|].
    simpl. eauto.
  - exfalso. apply (Hdates x); [by left | exact Hd].
Qed.

Lemma keep_recent_spec (cutoff : Z) (now : nat -> Z) (cache : list Article) :
  forall (k : nat) (a : Article),
    a ∈ keep_recent cutoff now k cache ->
    a ∈ cache /\ forall d, date a = Some d -> cutoff < d.
Proof.
  induction cache as [|x rest IH]; intros k a; simpl.
  - intros H. inversion H.
  - destruct (Z.ltb_spec cutoff (default (now k) (date x))) as [Hlt|Hge].
    + intros H. apply elem_of_cons in H as [-> | H].
      * split; [by left|]. intros d Hd. rewrite Hd in Hlt. exact Hlt.
      * destruct (IH _ _ H) as [Hin Hd]. split; [by right | exact Hd].
    + intros H. destruct (IH _ _ H) as [Hin Hd]. split; [by right | exact Hd].
Qed.

(** C8.  When [add_posted_article] has written the ledger, every record
    in it is dated later than the clock reading minus 30 days, so none
    precedes it; the write happens whenever every stored record has a
    date.  After the accumulate step of [workflow_monitor], every cached
    article that has a publication date is dated later than the clock
    reading minus 24 hours; this holds of the cache that any run of
    [workflow_monitor] that changes a store leaves behind. *)
Theorem retention_pruning :
  (forall (clock : LedgerClock) (url : string) (tweet_id : option string)
          (st st' : Stores),
     add_posted_article clock url tweet_id st = Ok st' ->
     forall p, p ∈ load_json_file (POSTED_ARTICLES_FILE st') ->
       exists d, p_date p = Some d /\ now_cutoff clock - timedelta_days 30 < d)
  /\
  (forall (clock : LedgerClock) (url : string) (tweet_id : option string)
          (st : Stores),
     (forall p, p ∈ load_json_file (POSTED_ARTICLES_FILE st) -> p_date p <> None) ->
     exists st', add_posted_article clock url tweet_id st = Ok st')
  /\
  (forall (now_cutoff : Z) (now_default : nat -> Z)
          (cache_file : option (list Article)) (unique_articles : list Article)
          (a : Article) (d : Z),
     a ∈ monitor_cache_step now_cutoff now_default cache_file unique_articles ->
     date a = Some d ->
     now_cutoff - timedelta_hours 24 < d)
  /\
  (forall (cfg : Config) (env : MonitorEnv) (st : Stores),
     fst (workflow_monitor cfg env st) = st \/
     forall a d,
       a ∈ drain (fst (workflow_monitor cfg env st)) ->
       date a = Some d ->
       now_cache_cutoff env - timedelta_hours 24 < d).
Proof.
  split; [|split; [|split]].
  - intros clock url tweet_id st st' Hadd p Hp.
    unfold add_posted_article in Hadd.
    destruct (keep_after _ _) as [kept|] eqn:Hkeep; simpl in Hadd; [|discriminate].
    injection Hadd as <-. simpl in Hp.
    apply (keep_after_spec _ _ _ Hkeep p Hp).
  - intros clock url tweet_id st Hdates. unfold add_posted_article.
    destruct (keep_after_total (now_cutoff clock - timedelta_days 30)
                (load_json_file (POSTED_ARTICLES_FILE st) ++
                 [ {| p_url := url; p_tweet_id := tweet_id;
                      p_date := Some (now_date clock);
                      p_timestamp := now_timestamp clock |} ])) as [kept Hkept].
    + intros p Hp. apply elem_of_app in Hp as [Hp | Hp]; [by apply Hdates|].
      apply list_elem_of_singleton in Hp as ->. discriminate.
    + rewrite Hkept. simpl. eauto.
  - intros now_cutoff now_default cache_file unique a d Hin Hd.
    unfold monitor_cache_step in Hin.
    apply keep_recent_spec in Hin as [_ Hlate]. by apply Hlate.
  - intros cfg env st.
    destruct (workflow_monitor_cases cfg env st) as [Hsame | (filtered & queue & _ & ->)];
      [by left|].
    right. intros a d Hin Hd. unfold drain in Hin. simpl in Hin.
    unfold monitor_cache_step in Hin.
    apply keep_recent_spec in Hin as [_ Hlate]. by apply Hlate.
Qed.

Lemma retention_pruning_witness :
  let now := 100 * day_us in
  let clock := {| now_date := now; now_timestamp := now; now_cutoff := now |} in
  let recent := sample_posted "https://news.example.org/recent" (99 * day_us) in
  let old := sample_posted "https://news.example.org/old" (60 * day_us) in
  let added := {| p_url := "https://news.example.org/new"; p_tweet_id := Some "42";
                  p_date := Some now; p_timestamp := now |} in
  let st := sample_stores [] [old; recent] [] in
  let st' := sample_stores [] [recent; added] [] in
  let fresh := sample_article "https://news.example.org/f" "Hashrate" "Body."
                 (Some (now - timedelta_hours 2)) in
  let stale := sample_article "https://news.example.org/s" "Miners" "Body."
                 (Some (now - timedelta_hours 30)) in
  add_posted_article clock "https://news.example.org/new" (Some "42") st = Ok st' /\
  (forall p, p ∈ load_json_file (POSTED_ARTICLES_FILE st') ->
     exists d, p_date p = Some d /\ now - timedelta_days 30 < d) /\
  (exists st'', add_posted_article clock "https://news.example.org/new" (Some "42") st
                = Ok st'') /\
  monitor_cache_step now (fun _ => now) (Some [stale]) [fresh] = [fresh] /\
  now - timedelta_hours 24 < now - timedelta_hours 2.
Proof.
  intros now clock recent old added st st' fresh stale.
  assert (add_posted_article clock "https://news.example.org/new" (Some "42") st = Ok st')
    as Hadd by (vm_compute; reflexivity).
  assert (monitor_cache_step now (fun _ => now) (Some [stale]) [fresh] = [fresh])
    as Hcache by (vm_compute; reflexivity).
  destruct retention_pruning as (Hledger & Htotal & Hdigest & _).
  split; [exact Hadd|]. split; [|split; [|split; [exact Hcache|]]].
  - exact (Hledger clock _ _ st st' Hadd).
  - apply (Htotal clock _ _ st). intros p Hp.
    apply list_elem_of_In in Hp. simpl in Hp.
    destruct Hp as [<- | [<- | []]]; discriminate.
  - apply (Hdigest now (fun _ => now) (Some [stale]) [fresh] fresh).
    + rewrite Hcache. apply list_elem_of_In. left. reflexivity.
    + reflexivity.
Defined.

(** ** workflow_post *)

Lemma requeue_same (st : Stores) (article : QueueEntry) (queue : list QueueEntry) :
  load_json_file (QUEUE_FILE st) = article :: queue ->
  set_queue (save_json_file (article :: queue)) st = st.
Proof.
  destruct st as [[q|] p c]; simpl; [|discriminate].
  intros ->. reflexivity.
Qed.

(** a run of [workflow_post] either leaves the three stores as they were,
    or has passed the key and rate checks, popped the head of the queue,
    posted it, recorded it in the ledger and saved the rest of the queue *)
Lemma workflow_post_cases (cfg : Config) (env : PostEnv) (st : Stores) :
  fst (workflow_post cfg env st) = st \/
  exists article queue tweet_id st1,
    posted_count (day_of (now_today env)) st < MAX_TWEETS_PER_DAY cfg /\
    load_json_file (QUEUE_FILE st) = article :: queue /\
    add_posted_article (ledger_clock env) (q_url article) tweet_id st = Ok st1 /\
    workflow_post cfg env st = (set_queue (Some queue) st1, 0).
Proof.
  unfold workflow_post.
  destruct (negb (is_empty (missing_keys cfg))); [by left|].
  unfold get_posted_articles_today. rewrite length_map.
  destruct (Z.leb_spec (MAX_TWEETS_PER_DAY cfg)
              (Z.of_nat (length (List.filter (posted_on (day_of (now_today env)))
                                   (load_json_file (POSTED_ARTICLES_FILE st))))))
    as [Hfull|Hroom]; [by left|].
  destruct (load_json_file (QUEUE_FILE st)) as [|article queue] eqn:Hq; [by left|].
  rewrite (requeue_same st article queue Hq).
  destruct (lib_generate_social_media_content env _ _) as [[[|c text]|]|]; try by left.
  destruct (lib_post_to_twitter env _ _ _) as [tweet_id|]; [|by left].
  destruct (truthy tweet_id); [|by left].
  destruct (add_posted_article _ _ _ st) as [st1|] eqn:Hadd; [|by left].
  right. exists article, queue, tweet_id, st1. repeat split; auto.
Qed.

(** C3.  When the key and rate checks pass and the head of the queue has
    been popped, every failure of the post step (content generation
    raises or gives no text, posting raises, or the post result is falsy)
    ends the workflow with status 1, the queue holding the popped entry
    at its head followed by the other entries in their order, and the
    posted ledger as it was.  With queue [a, b] and the post of a failing,
    the queue is [a, b] afterwards. *)
Theorem failed_post_restores_queue :
  (forall (cfg : Config) (env : PostEnv) (st : Stores)
          (article : QueueEntry) (rest : list QueueEntry),
     missing_keys cfg = [] ->
     Z.of_nat (length (get_posted_articles_today (now_today env) st))
       < MAX_TWEETS_PER_DAY cfg ->
     load_json_file (QUEUE_FILE st) = article :: rest ->
     post_failure cfg env article ->
     load_json_file (QUEUE_FILE (fst (workflow_post cfg env st))) = article :: rest /\
     POSTED_ARTICLES_FILE (fst (workflow_post cfg env st)) = POSTED_ARTICLES_FILE st /\
     snd (workflow_post cfg env st) = 1)
  /\
  (forall (now : Z) (generated : result (option string)) (e : Exception),
     let st := sample_stores [sample_entry "a"; sample_entry "b"] [] [] in
     workflow_post config_py (post_env now generated (Raise e)) st = (st, 1) /\
     workflow_post config_py (post_env now generated (Ok None)) st = (st, 1)).
Proof.
  split.
  - intros cfg env st article rest Hkeys Hrate Hq Hfail.
    unfold workflow_post. rewrite Hkeys. simpl.
    destruct (Z.leb_spec (MAX_TWEETS_PER_DAY cfg)
                (Z.of_nat (length (get_posted_articles_today (now_today env) st))))
      as [Hfull|_]; [lia|].
    rewrite Hq, (requeue_same st article rest Hq).
    destruct Hfail as [e Hgen | tweet_text Hgen Hempty | text e Hgen Htext Hpost
                      | text tweet_id Hgen Htext Hpost Hfalsy]; rewrite Hgen.
    + simpl. auto.
    + destruct tweet_text as [[|c t]|]; try discriminate; simpl; auto.
    + destruct text as [|c t]; [discriminate|]. rewrite Hpost. simpl. auto.
    + destruct text as [|c t]; [discriminate|]. rewrite Hpost, Hfalsy. simpl. auto.
  - intros now generated e st. unfold workflow_post. simpl.
    destruct generated as [[[|c t]|]|]; split; reflexivity.
Qed.

Lemma failed_post_restores_queue_witness :
  let env := post_env (100 * day_us) (Ok (Some "Hashrate hits a record")) (Ok None) in
  let a := sample_entry "a" in
  let b := sample_entry "b" in
  let st := sample_stores [a; b] [] [] in
  missing_keys config_py = [] /\
  Z.of_nat (length (get_posted_articles_today (now_today env) st))
    < MAX_TWEETS_PER_DAY config_py /\
  post_failure config_py env a /\
  load_json_file (QUEUE_FILE (fst (workflow_post config_py env st))) = [a; b] /\
  POSTED_ARTICLES_FILE (fst (workflow_post config_py env st)) = POSTED_ARTICLES_FILE st /\
  snd (workflow_post config_py env st) = 1.
Proof.
  intros env a b st.
  assert (missing_keys config_py = []) as Hkeys by reflexivity.
  assert (Z.of_nat (length (get_posted_articles_today (now_today env) st))
            < MAX_TWEETS_PER_DAY config_py) as Hrate by (vm_compute; reflexivity).
  assert (post_failure config_py env a) as Hfail
    by (apply (post_falsy config_py env a "Hashrate hits a record" None); reflexivity).
  split; [exact Hkeys|]. split; [exact Hrate|]. split; [exact Hfail|].
  exact (proj1 failed_post_restores_queue config_py env st a [b] Hkeys Hrate
           eq_refl Hfail).
Defined.

(** ** The daily rate limit *)

Lemma keep_after_filter_le (P : PostedRecord -> bool) (cutoff : Z)
    (posted kept : list PostedRecord) :
  keep_after cutoff posted = Ok kept ->
  (length (List.filter P kept) <= length (List.filter P posted))%nat.
Proof.
  revert kept. induction posted as [|x rest IH]; intros kept; simpl.
  - intros [= <-]. simpl. lia.
  - destruct (p_date x); [|discriminate].
    destruct (keep_after cutoff rest) as [kept'|]; simpl; [|discriminate].
    intros [= <-]. specialize (IH _ eq_refl).
    destruct (cutoff <? z); simpl; destruct (P x); simpl; lia.
Qed.

(** recording a post adds at most one record to the day it is dated in,
    and none to any other day *)
Lemma add_posted_article_count (clock : LedgerClock) (url : string)
    (tweet_id : option string) (st st1 : Stores) (d : Z) :
  add_posted_article clock url tweet_id st = Ok st1 ->
  posted_count d st1 <=
  posted_count d st + (if day_of (now_date clock) =? d then 1 else 0).
Proof.
  unfold add_posted_article, posted_count.
  destruct (keep_after _ _) as [kept|] eqn:Hkeep; simpl; [|discriminate].
  intros [= <-]. simpl.
  pose proof (keep_after_filter_le (posted_on d) _ _ _ Hkeep) as Hle.
  rewrite List.filter_app, length_app in Hle. simpl in Hle.
  unfold posted_on at 3 in Hle. simpl in Hle.
  destruct (day_of (now_date clock) =? d); simpl in Hle; lia.
Qed.

(** C5.  A run of [workflow_post] never takes the number of records dated
    in the current calendar day (the day of the rate check) beyond
    MAX_TWEETS_PER_DAY; when the run stays within one calendar day the
    same holds for the count of every day.  When the count has reached
    the maximum at invocation, the run changes no store, and it ends with
    status 0 when the required keys are configured. *)
Theorem daily_rate_limit (cfg : Config) (env : PostEnv) (st : Stores) :
  (posted_count (day_of (now_today env)) st <= MAX_TWEETS_PER_DAY cfg ->
   posted_count (day_of (now_today env)) (fst (workflow_post cfg env st))
     <= MAX_TWEETS_PER_DAY cfg)
  /\
  (forall d,
     day_of (now_date (ledger_clock env)) = day_of (now_today env) ->
     posted_count d st <= MAX_TWEETS_PER_DAY cfg ->
     posted_count d (fst (workflow_post cfg env st)) <= MAX_TWEETS_PER_DAY cfg)
  /\
  (MAX_TWEETS_PER_DAY cfg
     <= Z.of_nat (length (get_posted_articles_today (now_today env) st)) ->
   fst (workflow_post cfg env st) = st /\
   (missing_keys cfg = [] -> workflow_post cfg env st = (st, 0))).
Proof.
  split; [|split].
  - intros Hbefore.
    destruct (workflow_post_cases cfg env st)
      as [-> | (article & queue & tweet_id & st1 & Hroom & _ & Hadd & ->)];
      [exact Hbefore|].
    simpl. change (posted_count (day_of (now_today env)) (set_queue (Some queue) st1))
      with (posted_count (day_of (now_today env)) st1).
    pose proof (add_posted_article_count _ _ _ _ _ (day_of (now_today env)) Hadd) as Hle.
    destruct (_ =? _) in Hle; lia.
  - intros d Hday Hbefore.
    destruct (workflow_post_cases cfg env st)
      as [-> | (article & queue & tweet_id & st1 & Hroom & _ & Hadd & ->)];
      [exact Hbefore|].
    simpl. change (posted_count d (set_queue (Some queue) st1))
      with (posted_count d st1).
    pose proof (add_posted_article_count _ _ _ _ _ d Hadd) as Hle.
    rewrite Hday in Hle.
    destruct (Z.eqb_spec (day_of (now_today env)) d) as [<-|Hne]; lia.
  - intros Hfull. unfold workflow_post.
    destruct (is_empty (missing_keys cfg)) eqn:Hkeys; simpl.
    + destruct (Z.leb_spec (MAX_TWEETS_PER_DAY cfg)
                  (Z.of_nat (length (get_posted_articles_today (now_today env) st))))
        as [_|Hroom]; [|lia].
      split; [reflexivity|]. intros _. reflexivity.
    + split; [reflexivity|]. intros Hnone. rewrite Hnone in Hkeys. discriminate.
Qed.

Lemma daily_rate_limit_witness :
  let now := 100 * day_us + 5 in
  let cfg := config_with 200 2 100 in
  let env := post_env now (Ok (Some "Hashrate hits a record")) (Ok (Some "1850")) in
  let one := sample_stores [sample_entry "a"; sample_entry "b"]
               [sample_posted "p" (100 * day_us)] [] in
  let full := sample_stores [sample_entry "a"; sample_entry "b"]
                [sample_posted "p" (100 * day_us); sample_posted "q" (100 * day_us + 1)] [] in
  (posted_count (day_of now) one = 1 /\
   posted_count (day_of now) (fst (workflow_post cfg env one)) = 2 /\
   posted_count (day_of now) (fst (workflow_post cfg env one)) <= MAX_TWEETS_PER_DAY cfg) /\
  (day_of (now_date (ledger_clock env)) = day_of (now_today env) /\
   posted_count 100 (fst (workflow_post cfg env one)) <= MAX_TWEETS_PER_DAY cfg) /\
  (MAX_TWEETS_PER_DAY cfg
     <= Z.of_nat (length (get_posted_articles_today (now_today env) full)) /\
   missing_keys cfg = [] /\
   workflow_post cfg env full = (full, 0)).
Proof.
  intros now cfg env one full.
  destruct (daily_rate_limit cfg env one) as (Hday & Hdays & _).
  destruct (daily_rate_limit cfg env full) as (_ & _ & Hfull).
  assert (posted_count (day_of now) one <= MAX_TWEETS_PER_DAY cfg) as H1
    by (vm_compute; discriminate).
  assert (posted_count 100 one <= MAX_TWEETS_PER_DAY cfg) as H2
    by (vm_compute; discriminate).
  assert (MAX_TWEETS_PER_DAY cfg
            <= Z.of_nat (length (get_posted_articles_today (now_today env) full))) as H3
    by (vm_compute; discriminate).
  split; [|split].
  - split; [vm_compute; reflexivity|]. split; [vm_compute; reflexivity|].
    exact (Hday H1).
  - split; [reflexivity|]. exact (Hdays 100 eq_refl H2).
  - split; [exact H3|]. split; [reflexivity|].
    exact (proj2 (Hfull H3) eq_refl).
Defined.

(** the rate check of [workflow_post] counts the records of the current
    day *)
Lemma posted_count_today (now : Z) (st : Stores) :
  Z.of_nat (length (get_posted_articles_today now st)) = posted_count (day_of now) st.
Proof. unfold get_posted_articles_today, posted_count. by rewrite length_map. Qed.

(** ** The digest *)

(** C6.  A run of [workflow_daily_brief] touches neither the queue nor
    the ledger, and it changes the digest cache only by emptying it, which
    it does only after the brief was generated and the issue request
    answered 201.  When the run fails (status other than 0) the stores
    are as they were, so the next run drains everything the failed one
    drained; when it succeeds the cache is empty. *)
Theorem digest_two_phase (cfg : Config) (env : BriefEnv) (st : Stores) :
  let st' := fst (workflow_daily_brief cfg env st) in
  let status := snd (workflow_daily_brief cfg env st) in
  QUEUE_FILE st' = QUEUE_FILE st /\
  POSTED_ARTICLES_FILE st' = POSTED_ARTICLES_FILE st /\
  (DAILY_BRIEF_CACHE st' <> DAILY_BRIEF_CACHE st ->
   DAILY_BRIEF_CACHE st' = Some [] /\
   exists articles_text brief_content response,
     brief_lines (firstn 50 (drain st)) = Ok articles_text /\
     gemini_generate_content env articles_text = Ok brief_content /\
     requests_post env brief_content = Ok response /\
     status_code response = 201) /\
  (status <> 0 -> st' = st /\ forall a, a ∈ drain st -> a ∈ drain st') /\
  (status = 0 -> drain st' = []).
Proof.
  unfold workflow_daily_brief, drain.
  destruct (negb (truthy (GEMINI_API_KEY cfg)));
    [simpl; repeat split; auto; congruence|].
  destruct (negb (truthy (GITHUB_TOKEN cfg)));
    [simpl; repeat split; auto; congruence|].
  destruct (load_json_file (DAILY_BRIEF_CACHE st)) as [|a0 rest] eqn:Hload;
    [simpl; rewrite Hload; repeat split; auto; congruence|].
  unfold is_empty.
  destruct (brief_lines _) as [articles_text|] eqn:Hlines;
    [|simpl; rewrite Hload; repeat split; auto; congruence].
  destruct (gemini_generate_content env articles_text) as [brief_content|] eqn:Hgen;
    [|simpl; rewrite Hload; repeat split; auto; congruence].
  destruct (requests_post env brief_content) as [response|] eqn:Hpost;
    [|simpl; rewrite Hload; repeat split; auto; congruence].
  destruct (Z.eqb_spec (status_code response) 201) as [H201|Hnot];
    [|simpl; rewrite Hload; repeat split; auto; congruence].
  destruct (html_url response);
    [|simpl; rewrite Hload; repeat split; auto; congruence].
  simpl. repeat split; auto; try congruence.
  exists articles_text, brief_content, response. repeat split; auto.
Qed.

Lemma digest_two_phase_witness :
  let a := sample_article "https://news.example.org/a" "Hashrate" "Body." None in
  let st := sample_stores [] [] [a] in
  let failing := brief_env (Ok "Daily brief")
                   (Ok {| status_code := 500; html_url := None |}) in
  let passing := brief_env (Ok "Daily brief")
                   (Ok {| status_code := 201;
                          html_url := Some "https://github.com/o/r/issues/1" |}) in
  (snd (workflow_daily_brief config_py failing st) <> 0 /\
   fst (workflow_daily_brief config_py failing st) = st /\
   a ∈ drain (fst (workflow_daily_brief config_py failing st))) /\
  (snd (workflow_daily_brief config_py passing st) = 0 /\
   drain (fst (workflow_daily_brief config_py passing st)) = []) /\
  (DAILY_BRIEF_CACHE (fst (workflow_daily_brief config_py passing st))
     <> DAILY_BRIEF_CACHE st /\
   DAILY_BRIEF_CACHE (fst (workflow_daily_brief config_py passing st)) = Some []).
Proof.
  intros a st failing passing.
  destruct (digest_two_phase config_py failing st) as (_ & _ & _ & Hfail & _).
  destruct (digest_two_phase config_py passing st) as (_ & _ & Hclear & _ & Hpass).
  assert (snd (workflow_daily_brief config_py failing st) <> 0) as H1
    by (vm_compute; discriminate).
  assert (snd (workflow_daily_brief config_py passing st) = 0) as H2
    by (vm_compute; reflexivity).
  assert (DAILY_BRIEF_CACHE (fst (workflow_daily_brief config_py passing st))
            <> DAILY_BRIEF_CACHE st) as H3 by (vm_compute; discriminate).
  split; [|split].
  - split; [exact H1|]. split; [exact (proj1 (Hfail H1))|].
    apply (proj2 (Hfail H1)). apply list_elem_of_In. left. reflexivity.
  - split; [exact H2 | exact (Hpass H2)].
  - split; [exact H3 | exact (proj1 (Hclear H3))].
Defined.

(** ** The retry loop *)

Section RetryProperties.
Variable op : nat -> result (list Article).
Variable max_retries : Z.

Lemma retry_loop_fatal (attempt : nat) (rest : list nat) (e : Exception) :
  op attempt = Raise e -> is_fatal e = true ->
  retry_loop op max_retries (attempt :: rest) = ([Call attempt], Raise e).
Proof. intros Hop Hfatal. simpl. rewrite Hop, Hfatal. reflexivity. Qed.

Lemma retry_loop_ok (attempt : nat) (rest : list nat) (articles : list Article) :
  op attempt = Ok articles ->
  retry_loop op max_retries (attempt :: rest) = ([Call attempt], Ok articles).
Proof. intros Hop. simpl. rewrite Hop. reflexivity. Qed.

Lemma retry_loop_last (attempt : nat) (rest : list nat) (e : Exception) :
  op attempt = Raise e -> is_fatal e = false ->
  max_retries - 1 <= Z.of_nat attempt ->
  retry_loop op max_retries (attempt :: rest) = ([Call attempt], Raise e).
Proof.
  intros Hop Hfatal Hlast. simpl. rewrite Hop, Hfatal.
  destruct (Z.ltb_spec (Z.of_nat attempt) (max_retries - 1)); [lia|].
  destruct (is_rate_limit e); reflexivity.
Qed.

Lemma retry_loop_again (attempt : nat) (rest : list nat) (e : Exception) :
  op attempt = Raise e -> is_fatal e = false ->
  Z.of_nat attempt < max_retries - 1 ->
  retry_loop op max_retries (attempt :: rest) =
  (Call attempt :: Sleep (backoff e attempt)
     :: fst (retry_loop op max_retries rest),
   snd (retry_loop op max_retries rest)).
Proof.
  intros Hop Hfatal Hmore. simpl. rewrite Hop, Hfatal. unfold backoff.
  destruct (Z.ltb_spec (Z.of_nat attempt) (max_retries - 1)); [|lia].
  destruct (retry_loop op max_retries rest) as [events r].
  destruct (is_rate_limit e); simpl; rewrite Z.mul_comm; reflexivity.
Qed.

Lemma retry_loop_head (attempt : nat) (rest : list nat) :
  exists events,
    fst (retry_loop op max_retries (attempt :: rest)) = Call attempt :: events.
Proof.
  simpl. destruct (op attempt) as [articles|e]; [simpl; eauto|].
  destruct (is_fatal e); [simpl; eauto|].
  destruct (retry_loop op max_retries rest) as [events r].
  destruct (is_rate_limit e), (Z.of_nat attempt <? max_retries - 1); simpl; eauto.
Qed.

Lemma retry_loop_calls (range : list nat) :
  (count_calls (fst (retry_loop op max_retries range)) <= length range)%nat.
Proof.
  unfold count_calls. induction range as [|attempt rest IH]; simpl; [lia|].
  destruct (op attempt) as [articles|e]; [simpl; lia|].
  destruct (is_fatal e); [simpl; lia|].
  destruct (retry_loop op max_retries rest) as [events r]. simpl in IH.
  destruct (is_rate_limit e), (Z.of_nat attempt <? max_retries - 1); simpl; lia.
Qed.

(** while the errors are not fatal and attempts are left, the loop
    calls, waits and goes on with the next attempt *)
Lemma retry_loop_skip (k : nat) :
  forall s n : nat,
    (k < n)%nat ->
    (s + n)%nat = Z.to_nat max_retries ->
    (forall i, (i < k)%nat -> exists e, op (s + i)%nat = Raise e /\ is_fatal e = false) ->
    retry_loop op max_retries (seq s n) =
    (retried_events op s k ++ fst (retry_loop op max_retries (seq (s + k) (n - k))),
     snd (retry_loop op max_retries (seq (s + k) (n - k)))).
Proof.
  induction k as [|k IH]; intros s n Hk Hn Hop.
  - rewrite Nat.add_0_r, Nat.sub_0_r. unfold retried_events. simpl.
    by destruct (retry_loop op max_retries (seq s n)).
  - destruct n as [|n]; [lia|].
    destruct (Hop 0%nat) as (e & He & Hfatal); [lia|].
    rewrite Nat.add_0_r in He.
    change (seq s (S n)) with (s :: seq (S s) n).
    rewrite (retry_loop_again s _ e He Hfatal) by lia.
    rewrite (IH (S s) n); [|lia|lia|].
    + simpl. unfold retried_events.
      change (seq s (S k)) with (s :: seq (S s) k). simpl. rewrite He. simpl.
      replace (s + S k)%nat with (S (s + k)) by lia. reflexivity.
    + intros i Hi. destruct (Hop (S i)) as (e' & He' & Hf'); [lia|].
      replace (S s + i)%nat with (s + S i)%nat by lia. eauto.
Qed.

Lemma retried_events_snoc (k : nat) (e : Exception) :
  op k = Raise e ->
  retried_events op 0 (S k) = retried_events op 0 k ++ [Call k; Sleep (backoff e k)].
Proof.
  intros He. unfold retried_events. rewrite seq_S, flat_map_app. simpl.
  rewrite He. reflexivity.
Qed.
End RetryProperties.

(** C7.  In [fetch_articles_with_retry], whatever errors the provider
    answers with: the provider is called at most [max_retries] times;
    while earlier attempts failed with errors that are not fatal, each was
    followed by a wait of 10 * 2^attempt seconds for a rate-limit error
    and 5 * 2^attempt seconds for any other, and then by the next attempt;
    a fatal (authentication) error is raised at once, with no wait and no
    further call; a success is returned at once; and an error at the last
    of the [max_retries] attempts is raised to the caller, again with no
    wait. *)
Theorem retry_classification (op : nat -> result (list Article)) (max_retries : Z) :
  (count_calls (fst (fetch_articles_with_retry op max_retries))
     <= Z.to_nat max_retries)%nat
  /\
  (forall k e,
     Z.of_nat k < max_retries -> retried op k ->
     op k = Raise e -> is_fatal e = true ->
     fetch_articles_with_retry op max_retries
     = (retried_events op 0 k ++ [Call k], Raise e))
  /\
  (forall k e,
     Z.of_nat k < max_retries - 1 -> retried op k ->
     op k = Raise e -> is_fatal e = false ->
     exists events,
       fst (fetch_articles_with_retry op max_retries)
       = retried_events op 0 k
         ++ Call k
            :: Sleep (if is_rate_limit e then 10 * 2 ^ Z.of_nat k else 5 * 2 ^ Z.of_nat k)
            :: Call (S k) :: events)
  /\
  (forall k e,
     Z.of_nat k = max_retries - 1 -> retried op k ->
     op k = Raise e -> is_fatal e = false ->
     fetch_articles_with_retry op max_retries
     = (retried_events op 0 k ++ [Call k], Raise e))
  /\
  (forall k articles,
     Z.of_nat k < max_retries -> retried op k ->
     op k = Ok articles ->
     fetch_articles_with_retry op max_retries
     = (retried_events op 0 k ++ [Call k], Ok articles)).
Proof.
  unfold fetch_articles_with_retry.
  assert (forall k, Z.of_nat k < max_retries -> retried op k ->
            retry_loop op max_retries (seq 0 (Z.to_nat max_retries)) =
            (retried_events op 0 k
               ++ fst (retry_loop op max_retries (k :: seq (S k) (Z.to_nat max_retries - S k))),
             snd (retry_loop op max_retries (k :: seq (S k) (Z.to_nat max_retries - S k)))))
    as Hreach.
  { intros k Hk Hret.
    rewrite (retry_loop_skip op max_retries k 0 (Z.to_nat max_retries)); [|lia|lia|].
    - simpl. replace (Z.to_nat max_retries - k)%nat
        with (S (Z.to_nat max_retries - S k)) by lia. reflexivity.
    - intros i Hi. simpl. by apply Hret. }
  split; [|split; [|split; [|split]]].
  - pose proof (retry_loop_calls op max_retries (seq 0 (Z.to_nat max_retries))) as H.
    by rewrite length_seq in H.
  - intros k e Hk Hret Hop Hfatal.
    rewrite (Hreach k Hk Hret), (retry_loop_fatal op max_retries k _ e Hop Hfatal).
    reflexivity.
  - intros k e Hk Hret Hop Hfatal.
    assert (retried op (S k)) as Hret'.
    { intros i Hi. destruct (Nat.eq_dec i k) as [->|Hne]; [eauto|].
      apply Hret. lia. }
    rewrite (Hreach (S k)) by (auto; lia).
    rewrite (retried_events_snoc op k e Hop). cbn [fst].
    destruct (retry_loop_head op max_retries (S k)
                (seq (S (S k)) (Z.to_nat max_retries - S (S k)))) as [events ->].
    exists events. rewrite <- app_assoc. reflexivity.
  - intros k e Hk Hret Hop Hfatal.
    rewrite (Hreach k) by (auto; lia).
    rewrite (retry_loop_last op max_retries k _ e Hop Hfatal) by lia.
    reflexivity.
  - intros k articles Hk Hret Hop.
    rewrite (Hreach k Hk Hret), (retry_loop_ok op max_retries k _ articles Hop).
    reflexivity.
Qed.

Lemma retry_classification_witness :
  let op := fun k : nat =>
              match k with
              | 0%nat => Raise (api_error "Rate limit exceeded")
              | 1%nat => Raise (api_error "Connection reset by peer")
              | 2%nat => Raise (api_error "Invalid API key")
              | _ => Ok []
              end in
  let flaky := fun k : nat =>
                 match k with
                 | 2%nat => Ok [sample_article "u" "Hashrate" "Body." None]
                 | _ => Raise (api_error "503 Service Unavailable")
                 end in
  fetch_articles_with_retry op 5
    = ([Call 0; Sleep 10; Call 1; Sleep 10; Call 2], Raise (api_error "Invalid API key")) /\
  (exists events,
     fst (fetch_articles_with_retry op 5)
     = [Call 0; Sleep 10] ++ Call 1 :: Sleep 10 :: Call 2 :: events) /\
  fetch_articles_with_retry (fun _ => Raise (api_error "Rate limit exceeded")) 3
    = ([Call 0; Sleep 10; Call 1; Sleep 20; Call 2],
       Raise (api_error "Rate limit exceeded")) /\
  fetch_articles_with_retry flaky 3
    = ([Call 0; Sleep 5; Call 1; Sleep 10; Call 2],
       Ok [sample_article "u" "Hashrate" "Body." None]).
Proof.
  intros op flaky.
  assert (retried op 1) as Hop1.
  { intros [|i] Hi; [|lia]. eexists. split; reflexivity. }
  assert (retried op 2) as Hop2.
  { intros [|[|i]] Hi; try lia; eexists; split; reflexivity. }
  assert (retried (fun _ => Raise (api_error "Rate limit exceeded")) 2) as Hlim.
  { intros i Hi. eexists. split; reflexivity. }
  assert (retried flaky 2) as Hfl.
  { intros [|[|i]] Hi; try lia; eexists; split; reflexivity. }
  split; [|split; [|split]].
  - exact (proj1 (proj2 (retry_classification op 5)) 2%nat _
             eq_refl Hop2 eq_refl eq_refl).
  - exact (proj1 (proj2 (proj2 (retry_classification op 5))) 1%nat _
             eq_refl Hop1 eq_refl eq_refl).
  - exact (proj1 (proj2 (proj2 (proj2
             (retry_classification (fun _ => Raise (api_error "Rate limit exceeded")) 3))))
             2%nat _ eq_refl Hlim eq_refl eq_refl).
  - exact (proj2 (proj2 (proj2 (proj2 (retry_classification flaky 3))))
             2%nat _ eq_refl Hfl eq_refl).
Defined.

(** ** Uniqueness of urls *)

Lemma add_posted_article_frame (clock : LedgerClock) (url : string)
    (tweet_id : option string) (st st1 : Stores) :
  add_posted_article clock url tweet_id st = Ok st1 ->
  QUEUE_FILE st1 = QUEUE_FILE st /\
  forall p, p ∈ load_json_file (POSTED_ARTICLES_FILE st1) ->
    p ∈ load_json_file (POSTED_ARTICLES_FILE st) \/ p_url p = url.
Proof.
  unfold add_posted_article.
  destruct (keep_after _ _) as [kept|] eqn:Hkeep; simpl; [|discriminate].
  intros [= <-]. simpl. split; [reflexivity|]. intros p Hp.
  destruct (keep_after_spec _ _ _ Hkeep p Hp) as [Hin _].
  apply elem_of_app in Hin as [Hin | Hin]; [by left|].
  apply list_elem_of_singleton in Hin as ->. by right.
Qed.

Lemma NoDup_map_sublist {A B : Type} (f : A -> B) (l1 l2 : list A) :
  l1 `sublist_of` l2 -> NoDup (map f l2) -> NoDup (map f l1).
Proof.
  intros Hsub Hnd. eapply sublist_NoDup; [exact Hnd|].
  exact (fmap_sublist f l1 l2 Hsub).
Qed.

(** the queue step keeps the urls of the queue pairwise distinct when
    those of the batch are *)
Lemma monitor_queue_step_NoDup (cfg : Config) (now : nat -> Z)
    (queue_file : option (list QueueEntry)) (unique_articles : list Article)
    (queue' : list QueueEntry) :
  NoDup (map url unique_articles) ->
  NoDup (map q_url (load_json_file queue_file)) ->
  monitor_queue_step cfg now queue_file unique_articles = Ok queue' ->
  NoDup (map q_url queue').
Proof.
  intros Hbatch Hqueue Hstep. unfold monitor_queue_step in Hstep.
  destruct (push_new _ _ 0 _ unique_articles) as [pushed|] eqn:Hpush; simpl in Hstep;
    [|discriminate].
  injection Hstep as <-.
  apply push_new_spec in Hpush as (new & -> & Hall & Hsub).
  assert (NoDup (map q_url (load_json_file queue_file ++ new))) as Hpushed.
  { rewrite map_app. apply NoDup_app. split; [exact Hqueue|]. split.
    - intros u Hold Hnew. apply list_elem_of_In, in_map_iff in Hnew.
      destruct Hnew as (e & <- & He). apply list_elem_of_In in He.
      rewrite Forall_forall in Hall. destruct (Hall e He) as (_ & _ & _ & _ & Hfresh).
      apply Hfresh. by apply elem_of_list_to_set.
    - apply (NoDup_fmap_1 Some). change (NoDup (map Some (map q_url new))).
      rewrite map_map.
      eapply sublist_NoDup; [exact Hbatch | exact Hsub]. }
  destruct (_ <? _); [|exact Hpushed].
  eapply NoDup_map_sublist; [apply slice_last_sublist | exact Hpushed].
Qed.

Lemma workflow_monitor_NoDup (cfg : Config) (env : MonitorEnv) (st : Stores) :
  NoDup (queue_urls_of st) ->
  NoDup (queue_urls_of (fst (workflow_monitor cfg env st))).
Proof.
  intros Hnd.
  destruct (workflow_monitor_cases cfg env st) as [-> | (filtered & queue & Hq & ->)];
    [exact Hnd|].
  unfold queue_urls_of. simpl.
  eapply monitor_queue_step_NoDup; [apply remove_duplicate_articles_NoDup | exact Hnd | exact Hq].
Qed.

Lemma workflow_post_url_unique (cfg : Config) (env : PostEnv) (st : Stores) :
  url_unique st -> url_unique (fst (workflow_post cfg env st)).
Proof.
  intros [Hnd Hdisj].
  destruct (workflow_post_cases cfg env st)
    as [-> | (article & queue & tweet_id & st1 & _ & Hq & Hadd & ->)];
    [by split|].
  apply add_posted_article_frame in Hadd as [_ Hposted].
  unfold url_unique, queue_urls_of, posted_urls_of in *. simpl.
  rewrite Hq in Hnd, Hdisj. simpl in Hnd, Hdisj.
  apply NoDup_cons in Hnd as [Hhead Htail].
  split; [exact Htail|].
  intros u Hu Hp. apply list_elem_of_In, in_map_iff in Hp.
  destruct Hp as (p & <- & Hp). apply list_elem_of_In in Hp.
  destruct (Hposted p Hp) as [Hold | Hnew].
  - apply (Hdisj (p_url p)); [by right|].
    apply list_elem_of_In, in_map. by apply list_elem_of_In.
  - rewrite Hnew in Hu. contradiction.
Qed.

(** for any function bound to [bot_lib.filter_articles], the urls of the
    queue stay pairwise distinct along ingest and publish runs *)
Lemma queue_urls_NoDup_runs (cfg : Config) (st st' : Stores) :
  rtc (step cfg) st st' ->
  NoDup (queue_urls_of st) -> NoDup (queue_urls_of st').
Proof.
  intros Hrun. induction Hrun as [st | st mid st' Hstep _ IH]; [auto|].
  intros Hnd. apply IH. destruct Hstep as [env st | env st].
  - by apply workflow_monitor_NoDup.
  - destruct (workflow_post_cases cfg env st)
      as [-> | (article & queue & tweet_id & st1 & _ & Hq & _ & ->)]; [exact Hnd|].
    unfold queue_urls_of in *. simpl. rewrite Hq in Hnd. simpl in Hnd.
    by apply NoDup_cons in Hnd as [_ Htail].
Qed.

(** C1.  Urls are unique across the queue and the posted ledger.  From
    stores in which no url is queued twice and none is both queued and
    posted, every sequence of ingest and publish runs leads to such
    stores.  An ingest run writes no store: whatever was fetched, the run
    ends before the queue step, at an early return or at the call of
    [bot_lib.filter_articles], which raises; so every entry of the queue
    after ingest was in it before, and its url is not in the ledger.  A
    publish run, whatever content generation and posting answer, removes
    the head of the queue before it records the head's url in the
    ledger. *)
Theorem url_unique_invariant (cfg : Config) :
  (forall st st',
     url_unique st -> rtc (shipped_step cfg) st st' -> url_unique st')
  /\
  (forall (env : MonitorEnv) (st : Stores),
     shipped env -> fst (workflow_monitor cfg env st) = st)
  /\
  (forall (env : MonitorEnv) (st : Stores) (e : QueueEntry),
     shipped env ->
     url_unique st ->
     e ∈ load_json_file (QUEUE_FILE (fst (workflow_monitor cfg env st))) ->
     e ∈ load_json_file (QUEUE_FILE st) /\
     q_url e ∉ posted_urls_of (fst (workflow_monitor cfg env st)))
  /\
  (forall (env : PostEnv) (st : Stores),
     url_unique st -> url_unique (fst (workflow_post cfg env st))).
Proof.
  split; [|split; [|split]].
  - intros st st' Hu Hrun. induction Hrun as [st | st mid st' Hstep _ IH]; [exact Hu|].
    apply IH. destruct Hstep as [env st Henv | env st].
    + by rewrite workflow_monitor_shipped.
    + by apply workflow_post_url_unique.
  - intros env st Henv. by apply workflow_monitor_shipped.
  - intros env st e Henv [_ Hdisj]. rewrite (workflow_monitor_shipped cfg env st Henv).
    intros He. split; [exact He|]. apply Hdisj.
    apply list_elem_of_In, in_map. by apply list_elem_of_In.
  - intros env st. apply workflow_post_url_unique.
Qed.

Lemma url_unique_invariant_witness :
  let cfg := config_py in
  let a := sample_article "https://news.example.org/p" "Hashrate climbs"
             "Miners added hashrate this week." None in
  let st := sample_stores [sample_entry "https://news.example.org/x"]
              [sample_posted "https://news.example.org/p" (99 * day_us)] [] in
  let ingest := monitor_env [a] (100 * day_us) in
  let publish :=
    post_env (100 * day_us)
      (Raise (TypeError
                "generate_social_media_content() got an unexpected keyword argument 'article_title'"))
      (Ok None) in
  let st1 := fst (workflow_monitor cfg ingest st) in
  let st2 := fst (workflow_post cfg publish st1) in
  url_unique st /\
  rtc (shipped_step cfg) st st2 /\
  st1 = st /\
  url_unique st2.
Proof.
  intros cfg a st ingest publish st1 st2.
  assert (shipped ingest) as Hshipped by reflexivity.
  assert (url_unique st) as Hu.
  { split; [apply NoDup_singleton|].
    intros u Hq Hp. apply list_elem_of_In in Hq, Hp. vm_compute in Hq, Hp.
    destruct Hq as [<- | []]. destruct Hp as [Hp | []]. discriminate. }
  assert (rtc (shipped_step cfg) st st2) as Hrun.
  { eapply rtc_l; [exact (shipped_monitor cfg ingest st Hshipped)|].
    apply rtc_once. exact (shipped_post cfg publish st1). }
  split; [exact Hu|]. split; [exact Hrun|].
  split; [exact (proj1 (proj2 (url_unique_invariant cfg)) ingest st Hshipped)|].
  exact (proj1 (url_unique_invariant cfg) st st2 Hu Hrun).
Defined.

(** * Further properties of the code *)

(** ** Substrings *)

Lemma string_app_cons (c : ascii) (a b : string) :
  (String c a ++ b = String c (a ++ b))%string.
Proof. reflexivity. Qed.

Lemma string_app_nil (b : string) : ("" ++ b = b)%string.
Proof. reflexivity. Qed.

Lemma string_app_assoc (a b c : string) :
  ((a ++ b) ++ c = a ++ b ++ c)%string.
Proof.
  induction a as [|x a IH]; [reflexivity|].
  by rewrite !string_app_cons, IH.
Qed.

Lemma prefix_iff (n h : string) :
  String.prefix n h = true <-> exists post, h = (n ++ post)%string.
Proof.
  revert h. induction n as [|c n IH]; intros h.
  - split; [intros _; by exists h | destruct h; reflexivity].
  - destruct h as [|d h]; simpl.
    { split; [discriminate|]. intros [post H]. rewrite string_app_cons in H.
      discriminate. }
    destruct (ascii_dec c d) as [->|Hne].
    + rewrite IH. split; intros [post H]; exists post.
      * rewrite string_app_cons. congruence.
      * rewrite string_app_cons in H. congruence.
    + split; [discriminate|]. intros [post H]. rewrite string_app_cons in H.
      congruence.
Qed.

Lemma substr_iff (n h : string) :
  substr n h = true <-> exists pre post, h = (pre ++ n ++ post)%string.
Proof.
  induction h as [|d h IH].
  - change (substr n "") with (String.prefix n "" || false).
    rewrite orb_false_r, prefix_iff. split.
    + intros [post H]. by exists "", post.
    + intros (pre & post & H). destruct pre as [|c pre].
      * by exists post.
      * rewrite string_app_cons in H. discriminate.
  - change (substr n (String d h))
      with (String.prefix n (String d h) || substr n h).
    rewrite orb_true_iff, IH, prefix_iff. split.
    + intros [[post H] | (pre & post & H)].
      * by exists "", post.
      * exists (String d pre), post. rewrite string_app_cons. by rewrite H.
    + intros (pre & post & H). destruct pre as [|c pre].
      * left. by exists post.
      * right. exists pre, post. rewrite string_app_cons in H. congruence.
Qed.

Lemma substr_empty (h : string) : substr "" h = true.
Proof. apply substr_iff. by exists "", h. Qed.

Lemma substr_trans (a b c : string) :
  substr a b = true -> substr b c = true -> substr a c = true.
Proof.
  rewrite !substr_iff. intros (p1 & q1 & ->) (p2 & q2 & ->).
  exists (p2 ++ p1)%string, (q1 ++ q2)%string.
  by rewrite !string_app_assoc.
Qed.

Lemma substr_app_l (n h t : string) :
  substr n h = true -> substr n (h ++ t)%string = true.
Proof.
  rewrite !substr_iff. intros (p & q & ->). exists p, (q ++ t)%string.
  by rewrite !string_app_assoc.
Qed.

Lemma substr_app_r (n h t : string) :
  substr n t = true -> substr n (h ++ t)%string = true.
Proof.
  rewrite !substr_iff. intros (p & q & ->). exists (h ++ p)%string, q.
  by rewrite !string_app_assoc.
Qed.

(** ** bot_lib.filter_articles *)

Lemma existsb_false_iff {A : Type} (f : A -> bool) (l : list A) :
  existsb f l = false <-> forall x, x ∈ l -> f x = false.
Proof.
  induction l as [|y l IH]; simpl.
  - split; [intros _ x Hx; inversion Hx | reflexivity].
  - rewrite orb_false_iff, IH. split.
    + intros [Hy Hl] x Hx. apply elem_of_cons in Hx as [-> | Hx]; auto.
    + intros H. split; [apply H; by left | intros x Hx; apply H; by right].
Qed.

Lemma existsb_map_arg {A B : Type} (g : A -> B) (f : B -> bool) (l : list A) :
  existsb (fun x => f (g x)) l = existsb f (map g l).
Proof. induction l as [|y l IH]; simpl; [reflexivity | by rewrite IH]. Qed.

Lemma List_filter_sublist {A : Type} (f : A -> bool) (l : list A) :
  List.filter f l `sublist_of` l.
Proof.
  induction l as [|x l IH]; simpl; [constructor|].
  destruct (f x); [by apply sublist_skip | by apply sublist_cons].
Qed.

Lemma List_filter_sublist_impl {A : Type} (f g : A -> bool) (l : list A) :
  (forall x, f x = true -> g x = true) ->
  List.filter f l `sublist_of` List.filter g l.
Proof.
  intros Himp. induction l as [|x l IH]; simpl; [constructor|].
  destruct (f x) eqn:Hf.
  - rewrite (Himp x Hf). by apply sublist_skip.
  - destruct (g x); [by apply sublist_cons | exact IH].
Qed.

Lemma List_filter_none {A : Type} (f : A -> bool) (l : list A) :
  (forall x, f x = false) -> List.filter f l = [].
Proof.
  intros Hf. induction l as [|x l IH]; simpl; [reflexivity|]. by rewrite Hf.
Qed.

Lemma filter_keep_iff (blacklisted_sources blacklisted_keywords : list string)
    (min_social_score min_sentiment : Q) (a : Article) :
  filter_keep blacklisted_sources blacklisted_keywords min_social_score
    min_sentiment a = true
  <-> passes_gates blacklisted_sources blacklisted_keywords min_social_score
        min_sentiment a.
Proof.
  unfold filter_keep, passes_gates.
  destruct (truthy (title a)); simpl; [|split; [discriminate | intros [? _]; discriminate]].
  destruct (truthy (url a)); simpl;
    [|split; [discriminate | intros (_ & ? & _); discriminate]].
  destruct (truthy (body a)); simpl;
    [|split; [discriminate | intros (_ & _ & ? & _); discriminate]].
  destruct (existsb _ blacklisted_sources) eqn:Hsrc.
  { split; [discriminate|]. intros (_ & _ & _ & Hs & _).
    apply existsb_false_iff in Hs. congruence. }
  destruct (existsb _ blacklisted_keywords) eqn:Hkw.
  { split; [discriminate|]. intros (_ & _ & _ & _ & Hk & _).
    assert (existsb (fun keyword =>
                       substr (lower keyword) (lower (default "" (title a)))
                       || substr (lower keyword) (lower (default "" (body a))))
              blacklisted_keywords = false) as Hno.
    { apply existsb_false_iff. intros k Hin. destruct (Hk k Hin) as [-> ->].
      reflexivity. }
    congruence. }
  rewrite existsb_false_iff in Hsrc. rewrite existsb_false_iff in Hkw.
  destruct (Qle_bool min_social_score _) eqn:Hscore; simpl.
  - destruct (Qle_bool min_sentiment _) eqn:Hsent; simpl.
    + split; [|reflexivity]. intros _. repeat split; auto.
      * destruct (proj1 (orb_false_iff _ _) (Hkw k H)) as [Hx _]. exact Hx.
      * destruct (proj1 (orb_false_iff _ _) (Hkw k H)) as [_ Hx]. exact Hx.
      * by apply Qle_bool_iff.
      * by apply Qle_bool_iff.
    + split; [discriminate|]. intros (_ & _ & _ & _ & _ & _ & H).
      apply Qle_bool_iff in H. congruence.
  - split; [discriminate|]. intros (_ & _ & _ & _ & _ & H & _).
    apply Qle_bool_iff in H. congruence.
Qed.

(** X1.  [filter_articles] returns, in their input order, exactly the
    articles of its input that pass every gate: required fields present,
    no blacklisted source or keyword, both thresholds met. *)
Theorem filter_articles_exact (articles : list Article)
    (blacklisted_sources blacklisted_keywords : list string)
    (min_social_score min_sentiment : Q) :
  filter_articles articles blacklisted_sources blacklisted_keywords
    min_social_score min_sentiment `sublist_of` articles
  /\
  forall a,
    a ∈ filter_articles articles blacklisted_sources blacklisted_keywords
          min_social_score min_sentiment
    <-> a ∈ articles /\
        passes_gates blacklisted_sources blacklisted_keywords min_social_score
          min_sentiment a.
Proof.
  split; [apply List_filter_sublist|].
  intros a. unfold filter_articles.
  rewrite list_elem_of_In, filter_In, filter_keep_iff, <- list_elem_of_In.
  reflexivity.
Qed.

(** X2.  An empty string in either blacklist matches every article: the
    filter then returns nothing, whatever the articles are. *)
Theorem filter_articles_empty_token (articles : list Article)
    (blacklisted_sources blacklisted_keywords : list string)
    (min_social_score min_sentiment : Q) :
  "" ∈ blacklisted_sources \/ "" ∈ blacklisted_keywords ->
  filter_articles articles blacklisted_sources blacklisted_keywords
    min_social_score min_sentiment = [].
Proof.
  intros Hempty. apply List_filter_none. intros a.
  destruct (filter_keep _ _ _ _ a) eqn:Hkeep; [|reflexivity].
  apply filter_keep_iff in Hkeep as (_ & _ & _ & Hs & Hk & _).
  destruct Hempty as [Hin | Hin].
  - specialize (Hs "" Hin). simpl in Hs. rewrite substr_empty in Hs. discriminate.
  - destruct (Hk "" Hin) as [Ht _]. simpl in Ht. rewrite substr_empty in Ht.
    discriminate.
Qed.

Lemma filter_articles_empty_token_witness :
  let a := sample_article "https://news.example.org/a" "Hashrate climbs"
             "Miners added hashrate this week." None in
  "" ∈ [ "spam.example.com"; "" ] /\
  filter_articles [a] [ "spam.example.com" ] [] 5%Q (-1)%Q = [a] /\
  filter_articles [a] [ "spam.example.com"; "" ] [] 5%Q (-1)%Q = [].
Proof.
  intros a.
  assert ("" ∈ [ "spam.example.com"; "" ]) as Hin
    by (apply list_elem_of_In; right; left; reflexivity).
  split; [exact Hin|]. split; [vm_compute; reflexivity|].
  exact (filter_articles_empty_token [a] _ [] 5%Q (-1)%Q (or_introl Hin)).
Defined.

(** X3.  Blacklist matching ignores the case of the blacklist entries:
    two pairs of blacklists that agree once lowered filter alike. *)
Theorem filter_articles_blacklist_case (articles : list Article)
    (sources1 sources2 keywords1 keywords2 : list string)
    (min_social_score min_sentiment : Q) :
  map lower sources1 = map lower sources2 ->
  map lower keywords1 = map lower keywords2 ->
  filter_articles articles sources1 keywords1 min_social_score min_sentiment
  = filter_articles articles sources2 keywords2 min_social_score min_sentiment.
Proof.
  intros Hs Hk. unfold filter_articles. apply filter_ext. intros a.
  unfold filter_keep.
  rewrite (existsb_map_arg lower (fun b => substr b (source_uri_of a)) sources1).
  rewrite (existsb_map_arg lower (fun b => substr b (source_uri_of a)) sources2).
  rewrite (existsb_map_arg lower
             (fun k => substr k (lower (default "" (title a)))
                       || substr k (lower (default "" (body a)))) keywords1).
  rewrite (existsb_map_arg lower
             (fun k => substr k (lower (default "" (title a)))
                       || substr k (lower (default "" (body a)))) keywords2).
  rewrite Hs, Hk. reflexivity.
Qed.

Lemma filter_articles_blacklist_case_witness :
  let a := sample_article "https://news.example.org/a" "Sponsored: buy a rig"
             "Miners added hashrate this week." None in
  map lower [ "News.Example.ORG" ] = map lower [ "news.example.org" ] /\
  map lower [ "SPONSORED" ] = map lower [ "sponsored" ] /\
  filter_articles [a] [ "News.Example.ORG" ] [ "SPONSORED" ] 5%Q (-1)%Q
  = filter_articles [a] [ "news.example.org" ] [ "sponsored" ] 5%Q (-1)%Q.
Proof.
  intros a. split; [reflexivity|]. split; [reflexivity|].
  exact (filter_articles_blacklist_case [a] _ _ _ _ 5%Q (-1)%Q eq_refl eq_refl).
Defined.

(** X4.  Tightening the filter only removes articles: with longer
    blacklists and higher thresholds the output is a sublist of the
    output with the looser settings. *)
Theorem filter_articles_monotone (articles : list Article)
    (sources1 sources2 keywords1 keywords2 : list string)
    (score1 score2 sentiment1 sentiment2 : Q) :
  (forall b, b ∈ sources1 -> b ∈ sources2) ->
  (forall k, k ∈ keywords1 -> k ∈ keywords2) ->
  (score1 <= score2)%Q -> (sentiment1 <= sentiment2)%Q ->
  filter_articles articles sources2 keywords2 score2 sentiment2
    `sublist_of` filter_articles articles sources1 keywords1 score1 sentiment1.
Proof.
  intros Hs Hk Hscore Hsent. apply List_filter_sublist_impl. intros a.
  rewrite !filter_keep_iff. intros (Ht & Hu & Hb & Hsrc & Hkw & H1 & H2).
  repeat split; auto.
  - by apply Hkw, Hk.
  - by apply Hkw, Hk.
  - eapply Qle_trans; [exact Hscore | exact H1].
  - eapply Qle_trans; [exact Hsent | exact H2].
Qed.

Lemma filter_articles_monotone_witness :
  let a := sample_article "https://news.example.org/a" "Hashrate climbs"
             "Miners added hashrate this week." None in
  let b := sample_article "https://news.example.org/b" "Sponsored: buy a rig"
             "Miners added hashrate this week." None in
  filter_articles [a; b] [] [] 5%Q (-1)%Q = [a; b] /\
  filter_articles [a; b] [] [ "sponsored" ] 10%Q 0%Q = [a] /\
  filter_articles [a; b] [] [ "sponsored" ] 10%Q 0%Q
    `sublist_of` filter_articles [a; b] [] [] 5%Q (-1)%Q.
Proof.
  intros a b. split; [vm_compute; reflexivity|]. split; [vm_compute; reflexivity|].
  apply (filter_articles_monotone [a; b] [] [] [] [ "sponsored" ] 5%Q 10%Q (-1)%Q 0%Q).
  - intros x Hx. exact Hx.
  - intros x Hx. apply list_elem_of_In in Hx. destruct Hx.
  - vm_compute. discriminate.
  - vm_compute. discriminate.
Defined.

(** ** bot_lib.remove_duplicate_articles *)

Lemma remove_duplicates_from_sublist (seen : gset string) (articles : list Article) :
  remove_duplicates_from seen articles `sublist_of` articles.
Proof.
  revert seen. induction articles as [|x rest IH]; intros seen; simpl; [constructor|].
  destruct (url x) as [[|c u']|]; try (apply sublist_cons, IH).
  case_bool_decide; [apply sublist_cons, IH | apply sublist_skip, IH].
Qed.

Lemma remove_duplicates_from_first (seen : gset string) (pre post : list Article)
    (a : Article) (u : string) :
  url a = Some u -> truthy (url a) = true -> u ∉ seen ->
  (forall b, b ∈ pre -> url b <> Some u) ->
  a ∈ remove_duplicates_from seen (pre ++ a :: post).
Proof.
  intros Hu Ht. revert seen. induction pre as [|x pre IH]; intros seen Hseen Hpre; simpl.
  - rewrite Hu in *. destruct u as [|c u']; [discriminate|].
    rewrite bool_decide_eq_false_2 by exact Hseen. by left.
  - assert (forall b, b ∈ pre -> url b <> Some u) as Hpre'
      by (intros b Hb; apply Hpre; by right).
    destruct (url x) as [[|c v']|] eqn:Hx; try (by apply IH).
    case_bool_decide; [by apply IH|].
    right. apply IH; [|exact Hpre'].
    intros Hin. apply elem_of_union in Hin as [Hin | Hin]; [|contradiction].
    apply elem_of_singleton in Hin. apply (Hpre x); [by left|]. congruence.
Qed.

Lemma NoDup_map_elem_inj {A B : Type} (f : A -> B) (l : list A) (a b : A) :
  NoDup (map f l) -> a ∈ l -> b ∈ l -> f a = f b -> a = b.
Proof.
  induction l as [|x l IH]; simpl; intros Hnd Ha Hb Hf; [inversion Ha|].
  apply NoDup_cons in Hnd as [Hx Hnd].
  apply elem_of_cons in Ha as [-> | Ha]; apply elem_of_cons in Hb as [-> | Hb]; auto.
  - exfalso. apply Hx. rewrite Hf. apply list_elem_of_In, in_map.
    by apply list_elem_of_In.
  - exfalso. apply Hx. rewrite <- Hf. apply list_elem_of_In, in_map.
    by apply list_elem_of_In.
Qed.

(** X5.  [remove_duplicate_articles] keeps the first occurrence of every
    url: the output is a sublist of the input, it holds the first article
    of each non-empty url, and no other article of that url. *)
Theorem remove_duplicate_articles_keeps_first (pre post : list Article) (a : Article) :
  truthy (url a) = true ->
  (forall b, b ∈ pre -> url b <> url a) ->
  remove_duplicate_articles (pre ++ a :: post) `sublist_of` (pre ++ a :: post) /\
  a ∈ remove_duplicate_articles (pre ++ a :: post) /\
  forall b, b ∈ remove_duplicate_articles (pre ++ a :: post) ->
            url b = url a -> b = a.
Proof.
  intros Ht Hpre.
  assert (a ∈ remove_duplicate_articles (pre ++ a :: post)) as Hin.
  { destruct (url a) as [u|] eqn:Hu; [|discriminate].
    apply (remove_duplicates_from_first ∅ pre post a u); auto.
    - by rewrite Hu.
    - apply not_elem_of_empty. }
  split; [apply remove_duplicates_from_sublist|]. split; [exact Hin|].
  intros b Hb Hurl.
  exact (NoDup_map_elem_inj url _ b a (remove_duplicate_articles_NoDup _) Hb Hin Hurl).
Qed.

Lemma remove_duplicate_articles_keeps_first_witness :
  let first := sample_article "https://news.example.org/a" "Hashrate climbs" "One." None in
  let again := sample_article "https://news.example.org/a" "Hashrate climbs again" "Two." None in
  let other := sample_article "https://news.example.org/b" "Difficulty falls" "Three." None in
  remove_duplicate_articles ([other] ++ first :: [again]) = [other; first] /\
  first ∈ remove_duplicate_articles ([other] ++ first :: [again]).
Proof.
  intros first again other. split; [vm_compute; reflexivity|].
  apply (remove_duplicate_articles_keeps_first [other] [again] first); [reflexivity|].
  intros b Hb. apply list_elem_of_In in Hb. destruct Hb as [<- | []]. discriminate.
Defined.

Lemma remove_duplicates_from_id (articles : list Article) :
  forall seen : gset string,
    NoDup (map url articles) ->
    (forall a, a ∈ articles -> truthy (url a) = true) ->
    (forall a u, a ∈ articles -> url a = Some u -> u ∉ seen) ->
    remove_duplicates_from seen articles = articles.
Proof.
  induction articles as [|x rest IH]; intros seen Hnd Ht Hseen; simpl; [reflexivity|].
  simpl in Hnd. apply NoDup_cons in Hnd as [Hx Hnd].
  pose proof (Ht x (list_elem_of_here _ _)) as Htx.
  destruct (url x) as [[|c u']|] eqn:Hurl; try discriminate.
  rewrite bool_decide_eq_false_2
    by (apply (Hseen x); [by left | exact Hurl]).
  f_equal. apply IH; auto.
  - intros a Ha. apply Ht. by right.
  - intros a u Ha Hu Hin. apply elem_of_union in Hin as [Hin | Hin].
    + apply elem_of_singleton in Hin. subst u. apply Hx. rewrite <- Hu.
      apply list_elem_of_In, in_map. by apply list_elem_of_In.
    + apply (Hseen a u); auto. by right.
Qed.

(** X6.  [remove_duplicate_articles] leaves a batch alone when its urls
    are non-empty and pairwise distinct, and running it a second time
    changes nothing. *)
Theorem remove_duplicate_articles_idempotent :
  (forall articles,
     NoDup (map url articles) ->
     (forall a, a ∈ articles -> truthy (url a) = true) ->
     remove_duplicate_articles articles = articles)
  /\
  (forall articles,
     remove_duplicate_articles (remove_duplicate_articles articles)
     = remove_duplicate_articles articles).
Proof.
  assert (forall articles,
            NoDup (map url articles) ->
            (forall a, a ∈ articles -> truthy (url a) = true) ->
            remove_duplicate_articles articles = articles) as Hid.
  { intros articles Hnd Ht. apply remove_duplicates_from_id; auto.
    intros a u _ _. apply not_elem_of_empty. }
  split; [exact Hid|].
  intros articles. apply Hid; [apply remove_duplicate_articles_NoDup|].
  intros a Ha. by apply remove_duplicates_from_elem in Ha as [_ (u & _ & _ & Ht)].
Qed.

Lemma remove_duplicate_articles_idempotent_witness :
  let a := sample_article "https://news.example.org/a" "Hashrate climbs" "One." None in
  let b := sample_article "https://news.example.org/b" "Difficulty falls" "Two." None in
  NoDup (map url [a; b]) /\ remove_duplicate_articles [a; b] = [a; b].
Proof.
  intros a b.
  assert (NoDup (map url [a; b])) as Hnd.
  { apply NoDup_cons. split; [|apply NoDup_singleton].
    intros Hin. apply list_elem_of_In in Hin. destruct Hin as [Heq | []].
    discriminate. }
  split; [exact Hnd|].
  apply (proj1 remove_duplicate_articles_idempotent [a; b] Hnd).
  intros x Hx. apply list_elem_of_In in Hx. destruct Hx as [<- | [<- | []]]; reflexivity.
Defined.

(** ** bot_lib.fetch_articles_with_retry *)

Lemma retry_loop_seq_result (op : nat -> result (list Article)) (max_retries : Z)
    (n : nat) :
  forall s : nat,
    (s + n)%nat = Z.to_nat max_retries ->
    (0 < n)%nat ->
    exists pre k,
      (s <= k < s + n)%nat /\
      fst (retry_loop op max_retries (seq s n)) = pre ++ [Call k] /\
      snd (retry_loop op max_retries (seq s n)) = op k.
Proof.
  induction n as [|n IH]; intros s Hn Hpos; [lia|].
  change (seq s (S n)) with (s :: seq (S s) n).
  destruct (op s) as [articles|e] eqn:Hop.
  { rewrite (retry_loop_ok op max_retries s _ articles Hop).
    exists [], s. rewrite Hop. repeat split; lia. }
  destruct (is_fatal e) eqn:Hfatal.
  { rewrite (retry_loop_fatal op max_retries s _ e Hop Hfatal).
    exists [], s. rewrite Hop. repeat split; lia. }
  destruct (Z.lt_ge_cases (Z.of_nat s) (max_retries - 1)) as [Hmore|Hlast].
  - rewrite (retry_loop_again op max_retries s _ e Hop Hfatal Hmore).
    destruct (IH (S s)) as (pre & k & Hk & Hev & Hres); [lia|lia|].
    exists (Call s :: Sleep (backoff e s) :: pre), k. simpl fst. simpl snd.
    rewrite Hev, Hres. repeat split; lia.
  - rewrite (retry_loop_last op max_retries s _ e Hop Hfatal Hlast).
    exists [], s. rewrite Hop. repeat split; lia.
Qed.

(** X7.  What [fetch_articles_with_retry] returns or raises is always the
    answer of its last call to the provider; only when [max_retries] is
    not positive does it make no call, and it then returns the empty
    list. *)
Theorem fetch_result_is_last_answer (op : nat -> result (list Article))
    (max_retries : Z) :
  (max_retries <= 0 -> fetch_articles_with_retry op max_retries = ([], Ok [])) /\
  (0 < max_retries ->
   exists pre k,
     Z.of_nat k < max_retries /\
     fst (fetch_articles_with_retry op max_retries) = pre ++ [Call k] /\
     snd (fetch_articles_with_retry op max_retries) = op k).
Proof.
  unfold fetch_articles_with_retry. split.
  - intros Hle. replace (Z.to_nat max_retries) with 0%nat by lia. reflexivity.
  - intros Hpos.
    destruct (retry_loop_seq_result op max_retries (Z.to_nat max_retries) 0%nat)
      as (pre & k & Hk & Hev & Hres); [lia|lia|].
    exists pre, k. repeat split; auto. lia.
Qed.

Lemma fetch_result_is_last_answer_witness :
  let flaky := fun k : nat =>
                 match k with
                 | 1%nat => Ok [sample_article "u" "Hashrate" "Body." None]
                 | _ => Raise (api_error "503 Service Unavailable")
                 end in
  fetch_articles_with_retry flaky 0 = ([], Ok []) /\
  fetch_articles_with_retry flaky 3 = ([Call 0; Sleep 5; Call 1], flaky 1%nat) /\
  exists pre k,
    Z.of_nat k < 3 /\
    fst (fetch_articles_with_retry flaky 3) = pre ++ [Call k] /\
    snd (fetch_articles_with_retry flaky 3) = flaky k.
Proof.
  intros flaky.
  split; [apply (proj1 (fetch_result_is_last_answer flaky 0)); lia|].
  split; [vm_compute; reflexivity|].
  apply (proj2 (fetch_result_is_last_answer flaky 3)). lia.
Defined.

Lemma retry_loop_seq_sleep (op : nat -> result (list Article)) (max_retries : Z)
    (n : nat) :
  forall s : nat,
    (s + n)%nat = Z.to_nat max_retries ->
    (0 < n)%nat ->
    0 <= total_sleep (fst (retry_loop op max_retries (seq s n)))
      <= 10 * (2 ^ (max_retries - 1) - 2 ^ Z.of_nat s).
Proof.
  induction n as [|n IH]; intros s Hn Hpos; [lia|].
  assert (2 ^ Z.of_nat s <= 2 ^ (max_retries - 1)) as Hpow
    by (apply Z.pow_le_mono_r; lia).
  change (seq s (S n)) with (s :: seq (S s) n).
  destruct (op s) as [articles|e] eqn:Hop.
  { rewrite (retry_loop_ok op max_retries s _ articles Hop). simpl. lia. }
  destruct (is_fatal e) eqn:Hfatal.
  { rewrite (retry_loop_fatal op max_retries s _ e Hop Hfatal). simpl. lia. }
  destruct (Z.lt_ge_cases (Z.of_nat s) (max_retries - 1)) as [Hmore|Hlast].
  - rewrite (retry_loop_again op max_retries s _ e Hop Hfatal Hmore).
    specialize (IH (S s) ltac:(lia) ltac:(lia)).
    cbn [fst total_sleep].
    assert (2 ^ Z.of_nat (S s) = 2 * 2 ^ Z.of_nat s) as Hs
      by (rewrite Nat2Z.inj_succ, Z.pow_succ_r; lia).
    rewrite Hs in IH.
    assert (0 < 2 ^ Z.of_nat s) as Hp by (apply Z.pow_pos_nonneg; lia).
    unfold backoff. destruct (is_rate_limit e); lia.
  - rewrite (retry_loop_last op max_retries s _ e Hop Hfatal Hlast). simpl. lia.
Qed.

(** X8.  The retry loop sleeps for at most 10 * (2^(max_retries - 1) - 1)
    seconds in total, whatever the provider answers; with the three
    attempts that [workflow_monitor] asks for, at most 30 seconds. *)
Theorem fetch_total_backoff_bound (op : nat -> result (list Article))
    (max_retries : Z) :
  0 < max_retries ->
  0 <= total_sleep (fst (fetch_articles_with_retry op max_retries))
    <= 10 * (2 ^ (max_retries - 1) - 1).
Proof.
  intros Hpos. unfold fetch_articles_with_retry.
  pose proof (retry_loop_seq_sleep op max_retries (Z.to_nat max_retries) 0%nat
                ltac:(lia) ltac:(lia)) as H.
  simpl in H. exact H.
Qed.

Lemma fetch_total_backoff_bound_witness :
  let limited := fun _ : nat => Raise (api_error "Rate limit exceeded") in
  0 < 3 /\
  total_sleep (fst (fetch_articles_with_retry limited 3)) = 30 /\
  0 <= total_sleep (fst (fetch_articles_with_retry limited 3))
    <= 10 * (2 ^ (3 - 1) - 1).
Proof.
  intros limited.
  assert (0 < 3) as Hpos by lia.
  split; [exact Hpos|]. split; [vm_compute; reflexivity|].
  exact (fetch_total_backoff_bound limited 3 Hpos).
Defined.

(** ** BitcoinMiningFilter *)

Lemma count_keywords_bounds (keywords : list string) (content : string) :
  0 <= BitcoinMiningFilter.count_keywords keywords content
    <= Z.of_nat (length keywords).
Proof.
  induction keywords as [|k rest IH]; simpl BitcoinMiningFilter.count_keywords;
    simpl length; [lia|].
  destruct (substr k content); lia.
Qed.

Lemma List_filter_all {A : Type} (f : A -> bool) (l : list A) :
  (forall x, f x = true) -> List.filter f l = l.
Proof.
  intros Hf. induction l as [|x l IH]; simpl; [reflexivity|].
  by rewrite Hf, IH.
Qed.

(** X9.  An article matches between 0 and 25 mining keywords (the size
    of the keyword list), so a relevance filter with a minimum of 0 or
    less keeps every article and one with a minimum above 25 keeps
    none. *)
Theorem mining_filter_threshold_edges (articles : list Article) :
  (forall a, 0 <= BitcoinMiningFilter.get_mining_keyword_count a <= 25) /\
  (forall m, m <= 0 -> BitcoinMiningFilter.filter_articles m articles = articles) /\
  (forall m, 25 < m -> BitcoinMiningFilter.filter_articles m articles = []).
Proof.
  assert (forall a, 0 <= BitcoinMiningFilter.get_mining_keyword_count a <= 25) as Hb.
  { intros a. unfold BitcoinMiningFilter.get_mining_keyword_count.
    pose proof (count_keywords_bounds BitcoinMiningFilter.MINING_KEYWORDS
                  (BitcoinMiningFilter.content_of a)) as H.
    simpl length in H. lia. }
  split; [exact Hb|]. split; intros m Hm.
  - apply List_filter_all. intros a.
    unfold BitcoinMiningFilter._is_mining_relevant. apply Z.leb_le.
    specialize (Hb a). unfold BitcoinMiningFilter.get_mining_keyword_count in Hb. lia.
  - apply List_filter_none. intros a.
    unfold BitcoinMiningFilter._is_mining_relevant. apply Z.leb_gt.
    specialize (Hb a). unfold BitcoinMiningFilter.get_mining_keyword_count in Hb. lia.
Qed.

Lemma mining_filter_threshold_edges_witness :
  let a := sample_article "https://news.example.org/a" "Weather report" "Rain." None in
  BitcoinMiningFilter.get_mining_keyword_count a = 0 /\
  BitcoinMiningFilter.filter_articles 0 [a] = [a] /\
  BitcoinMiningFilter.filter_articles 26 [a] = [].
Proof.
  intros a. split; [vm_compute; reflexivity|].
  destruct (mining_filter_threshold_edges [a]) as (_ & Hlow & Hhigh).
  split; [apply Hlow; lia | apply Hhigh; lia].
Defined.

Lemma count_keywords_two (keywords : list string) (content k1 k2 : string) :
  k1 ∈ keywords -> k2 ∈ keywords -> k1 <> k2 ->
  substr k1 content = true -> substr k2 content = true ->
  2 <= BitcoinMiningFilter.count_keywords keywords content.
Proof.
  intros H1 H2 Hne Hs1 Hs2. rewrite count_keywords_filter.
  assert ([k1; k2] ⊆+ List.filter (fun keyword => substr keyword content) keywords)
    as Hsub.
  { apply NoDup_submseteq.
    - apply NoDup_cons. split; [|apply NoDup_singleton].
      intros Hin. apply list_elem_of_singleton in Hin. contradiction.
    - intros x Hx. apply list_elem_of_In, filter_In.
      apply elem_of_cons in Hx as [-> | Hx].
      + split; [by apply list_elem_of_In | exact Hs1].
      + apply list_elem_of_singleton in Hx as ->.
        split; [by apply list_elem_of_In | exact Hs2]. }
  apply submseteq_length in Hsub. simpl in Hsub. lia.
Qed.

(** X10.  Keywords that contain one another count together: when the
    lowered title or body contains a keyword of the list that itself
    contains another keyword of the list, the article already reaches the
    default minimum of 2.  One word such as "miners" (which contains
    "miner") is enough. *)
Theorem mining_filter_nested_keywords (article : Article) (inner outer : string) :
  inner ∈ BitcoinMiningFilter.MINING_KEYWORDS ->
  outer ∈ BitcoinMiningFilter.MINING_KEYWORDS ->
  inner <> outer ->
  substr inner outer = true ->
  substr outer (lower (default "" (title article))) = true \/
  substr outer (lower (default "" (body article))) = true ->
  BitcoinMiningFilter._is_mining_relevant 2 article = true.
Proof.
  intros Hin Hout Hne Hnested Hocc.
  assert (substr outer (BitcoinMiningFilter.content_of article) = true) as Hcontent.
  { unfold BitcoinMiningFilter.content_of. destruct Hocc as [Ht | Hb].
    - by apply substr_app_l.
    - by apply substr_app_r, substr_app_r. }
  unfold BitcoinMiningFilter._is_mining_relevant. apply Z.leb_le.
  apply (count_keywords_two _ _ inner outer); auto.
  eapply substr_trans; [exact Hnested | exact Hcontent].
Qed.

Lemma mining_filter_nested_keywords_witness :
  let a := sample_article "https://news.example.org/a" "Miners leave town"
             "The last bus left at noon." None in
  "miner" ∈ BitcoinMiningFilter.MINING_KEYWORDS /\
  "miners" ∈ BitcoinMiningFilter.MINING_KEYWORDS /\
  substr "miner" "miners" = true /\
  substr "miners" (lower (default "" (title a))) = true /\
  BitcoinMiningFilter._is_mining_relevant 2 a = true.
Proof.
  intros a.
  assert ("miner" ∈ BitcoinMiningFilter.MINING_KEYWORDS) as H1
    by (apply list_elem_of_In; vm_compute; tauto).
  assert ("miners" ∈ BitcoinMiningFilter.MINING_KEYWORDS) as H2
    by (apply list_elem_of_In; vm_compute; tauto).
  assert (substr "miners" (lower (default "" (title a))) = true) as H3
    by (vm_compute; reflexivity).
  split; [exact H1|]. split; [exact H2|]. split; [reflexivity|]. split; [exact H3|].
  apply (mining_filter_nested_keywords a "miner" "miners" H1 H2);
    [discriminate | reflexivity | by left].
Defined.

(** ** The posted ledger *)

Lemma keep_after_dated (cutoff : Z) (posted : list PostedRecord) :
  (forall p, p ∈ posted -> p_date p <> None) ->
  keep_after cutoff posted = Ok (List.filter (dated_after cutoff) posted).
Proof.
  induction posted as [|x rest IH]; intros Hdates; simpl; [reflexivity|].
  unfold dated_after at 1.
  destruct (p_date x) as [d|] eqn:Hd;
    [|exfalso; apply (Hdates x); [by left | exact Hd]].
  rewrite IH by (intros p Hp; apply Hdates; by right). simpl.
  destruct (cutoff <? d); reflexivity.
Qed.

Lemma keep_after_undated (cutoff : Z) (posted : list PostedRecord) (p : PostedRecord) :
  p ∈ posted -> p_date p = None ->
  keep_after cutoff posted = Raise (KeyError "date").
Proof.
  intros Hin Hnone. induction posted as [|x rest IH]; [inversion Hin|]. simpl.
  apply elem_of_cons in Hin as [<- | Hin].
  - by rewrite Hnone.
  - destruct (p_date x); [|reflexivity]. by rewrite (IH Hin).
Qed.

(** X11.  Recording a post on a ledger whose records all have a date
    keeps, in order, exactly the records dated within the last 30 days,
    puts the new record last, leaves the queue and the cache alone, and
    the url then shows among the urls posted today. *)
Theorem add_posted_article_exact (clock : LedgerClock) (url : string)
    (tweet_id : option string) (st : Stores) :
  (forall p, p ∈ load_json_file (POSTED_ARTICLES_FILE st) -> p_date p <> None) ->
  now_cutoff clock - timedelta_days 30 < now_date clock ->
  exists st',
    add_posted_article clock url tweet_id st = Ok st' /\
    load_json_file (POSTED_ARTICLES_FILE st')
    = List.filter (dated_after (now_cutoff clock - timedelta_days 30))
        (load_json_file (POSTED_ARTICLES_FILE st))
      ++ [posted_record clock url tweet_id] /\
    QUEUE_FILE st' = QUEUE_FILE st /\
    DAILY_BRIEF_CACHE st' = DAILY_BRIEF_CACHE st /\
    forall now, day_of now = day_of (now_date clock) ->
                url ∈ get_posted_articles_today now st'.
Proof.
  intros Hdates Hwindow.
  assert (dated_after (now_cutoff clock - timedelta_days 30)
            (posted_record clock url tweet_id) = true) as Hrec
    by (unfold dated_after; simpl; by apply Z.ltb_lt).
  assert (add_posted_article clock url tweet_id st
          = Ok (set_posted
                  (Some (List.filter (dated_after (now_cutoff clock - timedelta_days 30))
                           (load_json_file (POSTED_ARTICLES_FILE st))
                         ++ [posted_record clock url tweet_id])) st)) as Hadd.
  { unfold add_posted_article. fold (posted_record clock url tweet_id).
    rewrite keep_after_dated.
    - simpl. rewrite List.filter_app. simpl. rewrite Hrec. reflexivity.
    - intros p Hp. apply elem_of_app in Hp as [Hp | Hp]; [by apply Hdates|].
      apply list_elem_of_singleton in Hp as ->. discriminate. }
  eexists. split; [exact Hadd|]. simpl. repeat split.
  intros now Hday. unfold get_posted_articles_today. simpl.
  apply list_elem_of_In, in_map_iff.
  exists (posted_record clock url tweet_id). split; [reflexivity|].
  apply filter_In. split.
  - apply in_or_app. right. simpl. left. reflexivity.
  - unfold posted_on. simpl. rewrite Hday. apply Z.eqb_refl.
Qed.

Lemma add_posted_article_exact_witness :
  let now := 100 * day_us in
  let clock := {| now_date := now; now_timestamp := now; now_cutoff := now |} in
  let recent := sample_posted "https://news.example.org/recent" (99 * day_us) in
  let old := sample_posted "https://news.example.org/old" (60 * day_us) in
  let st := sample_stores [] [old; recent] [] in
  (forall p, p ∈ load_json_file (POSTED_ARTICLES_FILE st) -> p_date p <> None) /\
  now_cutoff clock - timedelta_days 30 < now_date clock /\
  exists st',
    add_posted_article clock "https://news.example.org/new" (Some "42") st = Ok st' /\
    load_json_file (POSTED_ARTICLES_FILE st')
    = [recent; posted_record clock "https://news.example.org/new" (Some "42")] /\
    "https://news.example.org/new" ∈ get_posted_articles_today (now + 5) st'.
Proof.
  intros now clock recent old st.
  assert (forall p, p ∈ load_json_file (POSTED_ARTICLES_FILE st) -> p_date p <> None)
    as Hdates.
  { intros p Hp. apply list_elem_of_In in Hp. simpl in Hp.
    destruct Hp as [<- | [<- | []]]; discriminate. }
  assert (now_cutoff clock - timedelta_days 30 < now_date clock) as Hwin
    by (vm_compute; reflexivity).
  split; [exact Hdates|]. split; [exact Hwin|].
  destruct (add_posted_article_exact clock "https://news.example.org/new" (Some "42")
              st Hdates Hwin) as (st' & Hadd & Hload & _ & _ & Htoday).
  exists st'. split; [exact Hadd|]. split; [exact Hload|].
  apply Htoday. vm_compute. reflexivity.
Defined.

(** ** More on workflow_post *)

Lemma workflow_post_confirmed (cfg : Config) (env : PostEnv) (st : Stores)
    (article : QueueEntry) (rest : list QueueEntry) (tweet_id : option string) :
  missing_keys cfg = [] ->
  Z.of_nat (length (get_posted_articles_today (now_today env) st))
    < MAX_TWEETS_PER_DAY cfg ->
  load_json_file (QUEUE_FILE st) = article :: rest ->
  post_confirmed cfg env article tweet_id ->
  workflow_post cfg env st =
  match add_posted_article (ledger_clock env) (q_url article) tweet_id st with
  | Raise _ => (st, 1)
  | Ok st1 => (set_queue (Some rest) st1, 0)
  end.
Proof.
  intros Hkeys Hrate Hq (text & Hgen & Htext & Hpost & Hid).
  unfold workflow_post. rewrite Hkeys. simpl.
  destruct (Z.leb_spec (MAX_TWEETS_PER_DAY cfg)
              (Z.of_nat (length (get_posted_articles_today (now_today env) st))))
    as [Hfull|_]; [lia|].
  rewrite Hq, (requeue_same st article rest Hq), Hgen.
  destruct text as [|c t]; [discriminate|]. rewrite Hpost, Hid. reflexivity.
Qed.

Lemma workflow_post_cases_confirmed (cfg : Config) (env : PostEnv) (st : Stores) :
  (fst (workflow_post cfg env st) = st /\
   (snd (workflow_post cfg env st) = 0 \/ snd (workflow_post cfg env st) = 1)) \/
  exists article rest tweet_id st1,
    missing_keys cfg = [] /\
    load_json_file (QUEUE_FILE st) = article :: rest /\
    post_confirmed cfg env article tweet_id /\
    add_posted_article (ledger_clock env) (q_url article) tweet_id st = Ok st1 /\
    workflow_post cfg env st = (set_queue (Some rest) st1, 0).
Proof.
  unfold workflow_post.
  destruct (missing_keys cfg) as [|k ks] eqn:Hkeys; simpl; [|left; auto].
  destruct (Z.leb_spec (MAX_TWEETS_PER_DAY cfg)
              (Z.of_nat (length (get_posted_articles_today (now_today env) st))))
    as [Hfull|Hroom]; [left; auto|].
  destruct (load_json_file (QUEUE_FILE st)) as [|article rest] eqn:Hq; [left; auto|].
  rewrite (requeue_same st article rest Hq).
  destruct (lib_generate_social_media_content env _ _) as [[[|c text]|]|] eqn:Hgen;
    try solve [left; auto].
  destruct (lib_post_to_twitter env _ _ _) as [tweet_id|] eqn:Hpost; [|left; auto].
  destruct (truthy tweet_id) eqn:Hid; [|left; auto].
  destruct (add_posted_article _ _ _ st) as [st1|] eqn:Hadd; [|left; auto].
  right. exists article, rest, tweet_id, st1. repeat split; auto.
  exists (String c text). repeat split; auto.
Qed.

(** X12.  While the ledger holds a record without a date, recording a
    post raises and no run of [workflow_post] changes any store: a post
    that was confirmed is not recorded, its entry stays at the head of the
    queue, and the run ends with status 1. *)
Theorem undated_record_blocks_ledger (st : Stores) (p : PostedRecord) :
  p ∈ load_json_file (POSTED_ARTICLES_FILE st) ->
  p_date p = None ->
  (forall clock url tweet_id,
     add_posted_article clock url tweet_id st = Raise (KeyError "date")) /\
  (forall cfg env, fst (workflow_post cfg env st) = st) /\
  (forall cfg env article rest tweet_id,
     missing_keys cfg = [] ->
     Z.of_nat (length (get_posted_articles_today (now_today env) st))
       < MAX_TWEETS_PER_DAY cfg ->
     load_json_file (QUEUE_FILE st) = article :: rest ->
     post_confirmed cfg env article tweet_id ->
     workflow_post cfg env st = (st, 1)).
Proof.
  intros Hin Hnone.
  assert (forall clock url tweet_id,
            add_posted_article clock url tweet_id st = Raise (KeyError "date")) as Hadd.
  { intros clock url tweet_id. unfold add_posted_article.
    rewrite (keep_after_undated _ _ p); [reflexivity | | exact Hnone].
    apply elem_of_app. by left. }
  split; [exact Hadd|]. split.
  - intros cfg env.
    destruct (workflow_post_cases cfg env st)
      as [Hsame | (article & queue & tweet_id & st1 & _ & _ & Hok & _)]; [exact Hsame|].
    rewrite Hadd in Hok. discriminate.
  - intros cfg env article rest tweet_id Hkeys Hrate Hq Hconf.
    rewrite (workflow_post_confirmed cfg env st article rest tweet_id Hkeys Hrate Hq Hconf).
    by rewrite Hadd.
Qed.

Lemma undated_record_blocks_ledger_witness :
  let undated := {| p_url := "https://news.example.org/p"; p_tweet_id := None;
                    p_date := None; p_timestamp := 0 |} in
  let st := sample_stores [sample_entry "a"; sample_entry "b"] [undated] [] in
  let env := post_env (100 * day_us) (Ok (Some "Hashrate hits a record"))
               (Ok (Some "1850")) in
  undated ∈ load_json_file (POSTED_ARTICLES_FILE st) /\
  post_confirmed config_py env (sample_entry "a") (Some "1850") /\
  workflow_post config_py env st = (st, 1).
Proof.
  intros undated st env.
  assert (undated ∈ load_json_file (POSTED_ARTICLES_FILE st)) as Hin
    by (apply list_elem_of_In; left; reflexivity).
  assert (post_confirmed config_py env (sample_entry "a") (Some "1850")) as Hconf
    by (exists "Hashrate hits a record"; repeat split; reflexivity).
  split; [exact Hin|]. split; [exact Hconf|].
  apply (proj2 (proj2 (undated_record_blocks_ledger st undated Hin eq_refl))
           config_py env (sample_entry "a") [sample_entry "b"] (Some "1850"));
    [reflexivity | vm_compute; reflexivity | reflexivity | exact Hconf].
Defined.

(** X13.  A run of [workflow_post] with the keys configured, the day's
    count below the maximum, a confirmed post of the head of the queue
    and a ledger whose records all have a date ends with status 0: the
    queue has lost exactly its head, the ledger has gained the record of
    the head's url and tweet id after pruning, and the cache is as it
    was. *)
Theorem workflow_post_success (cfg : Config) (env : PostEnv) (st : Stores)
    (article : QueueEntry) (rest : list QueueEntry) (tweet_id : option string) :
  missing_keys cfg = [] ->
  Z.of_nat (length (get_posted_articles_today (now_today env) st))
    < MAX_TWEETS_PER_DAY cfg ->
  load_json_file (QUEUE_FILE st) = article :: rest ->
  post_confirmed cfg env article tweet_id ->
  (forall p, p ∈ load_json_file (POSTED_ARTICLES_FILE st) -> p_date p <> None) ->
  snd (workflow_post cfg env st) = 0 /\
  load_json_file (QUEUE_FILE (fst (workflow_post cfg env st))) = rest /\
  load_json_file (POSTED_ARTICLES_FILE (fst (workflow_post cfg env st)))
  = List.filter (dated_after (now_cutoff (ledger_clock env) - timedelta_days 30))
      (load_json_file (POSTED_ARTICLES_FILE st)
       ++ [posted_record (ledger_clock env) (q_url article) tweet_id]) /\
  DAILY_BRIEF_CACHE (fst (workflow_post cfg env st)) = DAILY_BRIEF_CACHE st.
Proof.
  intros Hkeys Hrate Hq Hconf Hdates.
  rewrite (workflow_post_confirmed cfg env st article rest tweet_id Hkeys Hrate Hq Hconf).
  unfold add_posted_article. rewrite keep_after_dated.
  - simpl. repeat split; reflexivity.
  - intros p Hp. apply elem_of_app in Hp as [Hp | Hp]; [by apply Hdates|].
    apply list_elem_of_singleton in Hp as ->. discriminate.
Qed.

Lemma workflow_post_success_witness :
  let now := 100 * day_us in
  let env := post_env now (Ok (Some "Hashrate hits a record")) (Ok (Some "1850")) in
  let st := sample_stores [sample_entry "a"; sample_entry "b"]
              [sample_posted "p" (99 * day_us)] [] in
  post_confirmed config_py env (sample_entry "a") (Some "1850") /\
  snd (workflow_post config_py env st) = 0 /\
  load_json_file (QUEUE_FILE (fst (workflow_post config_py env st))) = [sample_entry "b"] /\
  map p_url (load_json_file (POSTED_ARTICLES_FILE (fst (workflow_post config_py env st))))
  = [ "p"; "a" ].
Proof.
  intros now env st.
  assert (post_confirmed config_py env (sample_entry "a") (Some "1850")) as Hconf
    by (exists "Hashrate hits a record"; repeat split; reflexivity).
  destruct (workflow_post_success config_py env st (sample_entry "a") [sample_entry "b"]
              (Some "1850")) as (Hstatus & Hqueue & Hledger & _);
    [reflexivity | vm_compute; reflexivity | reflexivity | exact Hconf | |].
  - intros p Hp. apply list_elem_of_In in Hp. destruct Hp as [<- | []]. discriminate.
  - split; [exact Hconf|]. split; [exact Hstatus|]. split; [exact Hqueue|].
    rewrite Hledger. vm_compute. reflexivity.
Defined.

(** X14.  [workflow_post] writes the ledger only after a confirmed post:
    when a run has changed the ledger file, content was generated for the
    head of the queue, [post_to_twitter] answered with a tweet id, the
    queue has lost that head and the status is 0. *)
Theorem ledger_changes_only_after_post (cfg : Config) (env : PostEnv) (st : Stores) :
  POSTED_ARTICLES_FILE (fst (workflow_post cfg env st)) <> POSTED_ARTICLES_FILE st ->
  exists article rest tweet_id,
    load_json_file (QUEUE_FILE st) = article :: rest /\
    post_confirmed cfg env article tweet_id /\
    load_json_file (QUEUE_FILE (fst (workflow_post cfg env st))) = rest /\
    snd (workflow_post cfg env st) = 0.
Proof.
  intros Hchanged.
  destruct (workflow_post_cases_confirmed cfg env st)
    as [[Hsame _] | (article & rest & tweet_id & st1 & _ & Hq & Hconf & _ & Hrun)].
  - rewrite Hsame in Hchanged. contradiction.
  - exists article, rest, tweet_id. rewrite Hrun. repeat split; auto.
Qed.

Lemma ledger_changes_only_after_post_witness :
  let env := post_env (100 * day_us) (Ok (Some "Hashrate hits a record"))
               (Ok (Some "1850")) in
  let st := sample_stores [sample_entry "a"; sample_entry "b"] [] [] in
  POSTED_ARTICLES_FILE (fst (workflow_post config_py env st)) <> POSTED_ARTICLES_FILE st /\
  exists article rest tweet_id,
    load_json_file (QUEUE_FILE st) = article :: rest /\
    post_confirmed config_py env article tweet_id /\
    load_json_file (QUEUE_FILE (fst (workflow_post config_py env st))) = rest /\
    snd (workflow_post config_py env st) = 0.
Proof.
  intros env st.
  assert (POSTED_ARTICLES_FILE (fst (workflow_post config_py env st))
            <> POSTED_ARTICLES_FILE st) as Hch by (vm_compute; discriminate).
  split; [exact Hch|].
  exact (ledger_changes_only_after_post config_py env st Hch).
Defined.

(** X15.  Image preparation is best effort: a run in which it raises
    behaves exactly like a run in which it finds no image. *)
Theorem image_failure_is_swallowed (cfg : Config) (env : PostEnv) (st : Stores)
    (e : Exception) :
  workflow_post cfg (with_images (Raise e) env) st
  = workflow_post cfg (with_images (Ok []) env) st.
Proof.
  unfold workflow_post, prepare_image, with_images. simpl.
  destruct (truthy (UNSPLASH_ACCESS_KEY cfg)); reflexivity.
Qed.

Lemma add_posted_article_cache (clock : LedgerClock) (url : string)
    (tweet_id : option string) (st st1 : Stores) :
  add_posted_article clock url tweet_id st = Ok st1 ->
  DAILY_BRIEF_CACHE st1 = DAILY_BRIEF_CACHE st.
Proof.
  unfold add_posted_article.
  destruct (keep_after _ _) as [kept|]; simpl; [|discriminate].
  intros [= <-]. reflexivity.
Qed.

(** X16.  Whatever happens, a run of [workflow_post] ends with status 0
    or 1, never touches the digest cache, and leaves the queue either as
    it was or without its head; a run that ends with status 1 has changed
    no store. *)
Theorem workflow_post_frame (cfg : Config) (env : PostEnv) (st : Stores) :
  (snd (workflow_post cfg env st) = 0 \/ snd (workflow_post cfg env st) = 1) /\
  DAILY_BRIEF_CACHE (fst (workflow_post cfg env st)) = DAILY_BRIEF_CACHE st /\
  (load_json_file (QUEUE_FILE (fst (workflow_post cfg env st)))
   = load_json_file (QUEUE_FILE st) \/
   exists article,
     load_json_file (QUEUE_FILE st)
     = article :: load_json_file (QUEUE_FILE (fst (workflow_post cfg env st)))) /\
  (snd (workflow_post cfg env st) = 1 -> fst (workflow_post cfg env st) = st).
Proof.
  destruct (workflow_post_cases_confirmed cfg env st)
    as [[Hsame Hstatus] | (article & rest & tweet_id & st1 & _ & Hq & _ & Hadd & Hrun)].
  - rewrite Hsame. repeat split; auto.
  - rewrite Hrun. simpl.
    apply add_posted_article_cache in Hadd.
    split; [by left|]. split; [exact Hadd|].
    split; [right; by exists article | discriminate].
Qed.

Lemma workflow_post_frame_witness :
  let env := post_env (100 * day_us) (Raise (api_error "quota exceeded")) (Ok None) in
  let st := sample_stores [sample_entry "a"; sample_entry "b"] [] [] in
  snd (workflow_post config_py env st) = 1 /\
  fst (workflow_post config_py env st) = st.
Proof.
  intros env st.
  assert (snd (workflow_post config_py env st) = 1) as Hstatus by reflexivity.
  split; [exact Hstatus|].
  exact (proj2 (proj2 (proj2 (workflow_post_frame config_py env st))) Hstatus).
Defined.

(** ** More on workflow_monitor *)

Lemma push_new_all_known (queue_urls : gset string) (now : nat -> Z)
    (unique_articles : list Article) :
  forall (k : nat) (queue : list QueueEntry),
    (forall a, a ∈ unique_articles -> url_in (url a) queue_urls = true) ->
    push_new queue_urls now k queue unique_articles = Ok queue.
Proof.
  induction unique_articles as [|a rest IH]; intros k queue Hknown; simpl;
    [reflexivity|].
  rewrite (Hknown a) by (by left). apply IH. intros b Hb. apply Hknown. by right.
Qed.

Lemma push_new_covers (queue_urls : gset string) (now : nat -> Z)
    (unique_articles : list Article) :
  forall (k : nat) (queue queue' : list QueueEntry),
    push_new queue_urls now k queue unique_articles = Ok queue' ->
    forall a, a ∈ unique_articles ->
      exists u, url a = Some u /\ (u ∈ queue_urls \/ u ∈ map q_url queue').
Proof.
  induction unique_articles as [|x rest IH]; intros k queue queue' Hpush a Ha;
    [inversion Ha|].
  simpl in Hpush. destruct (url_in (url x) queue_urls) eqn:Hin.
  - apply elem_of_cons in Ha as [-> | Ha]; [|by apply (IH _ _ _ Hpush)].
    destruct (url x) as [u|]; [|discriminate]. exists u. split; [reflexivity|].
    left. simpl in Hin. by apply bool_decide_eq_true in Hin.
  - destruct (queue_entry (now k) x) as [e|] eqn:He; simpl in Hpush; [|discriminate].
    apply elem_of_cons in Ha as [-> | Ha]; [|by apply (IH _ _ _ Hpush)].
    exists (q_url e). split; [by apply queue_entry_url in He|]. right.
    apply push_new_spec in Hpush as (new & -> & _ & _).
    apply list_elem_of_In, in_map, in_or_app. left. apply in_or_app. right.
    simpl. by left.
Qed.

(** X17.  While the queue has room for the whole batch, ingesting the
    same batch a second time changes nothing: every url of the batch is
    then in the queue, so no entry is pushed again. *)
Theorem monitor_queue_step_idempotent (cfg : Config) (now now' : nat -> Z)
    (queue_file : option (list QueueEntry)) (unique_articles : list Article)
    (queue1 : list QueueEntry) :
  Z.of_nat (length (load_json_file queue_file)) + Z.of_nat (length unique_articles)
    <= MAX_QUEUE_SIZE cfg ->
  monitor_queue_step cfg now queue_file unique_articles = Ok queue1 ->
  monitor_queue_step cfg now' (Some queue1) unique_articles = Ok queue1.
Proof.
  intros Hroom Hstep. unfold monitor_queue_step in Hstep.
  destruct (push_new _ _ 0 _ unique_articles) as [pushed|] eqn:Hpush; simpl in Hstep;
    [|discriminate].
  pose proof (push_new_covers _ _ _ _ _ _ Hpush) as Hcov.
  apply push_new_spec in Hpush as (new & -> & _ & Hsub).
  apply sublist_length in Hsub. rewrite !length_map in Hsub.
  destruct (Z.ltb_spec (MAX_QUEUE_SIZE cfg)
              (Z.of_nat (length (load_json_file queue_file ++ new)))) as [Hover|Hfit].
  { rewrite length_app in Hover. lia. }
  injection Hstep as <-.
  unfold monitor_queue_step. simpl load_json_file.
  rewrite push_new_all_known.
  - simpl. destruct (Z.ltb_spec (MAX_QUEUE_SIZE cfg)
                       (Z.of_nat (length (load_json_file queue_file ++ new))));
      [lia | reflexivity].
  - intros a Ha. destruct (Hcov a Ha) as (u & -> & Hu). simpl.
    apply bool_decide_eq_true, elem_of_list_to_set.
    destruct Hu as [Hold | Hnew]; [|exact Hnew].
    apply elem_of_list_to_set in Hold.
    apply list_elem_of_In. rewrite map_app. apply in_or_app. left.
    by apply list_elem_of_In.
Qed.

Lemma monitor_queue_step_idempotent_witness :
  let cfg := config_with 10 60 3 in
  let batch := [sample_article "w" "Difficulty falls" "The difficulty fell." None;
                sample_article "x" "Hashrate climbs" "The hashrate rose." None] in
  let queue_file := Some [sample_entry "x"] in
  exists queue1,
    monitor_queue_step cfg (fun _ => 7) queue_file batch = Ok queue1 /\
    map q_url queue1 = [ "x"; "w" ] /\
    monitor_queue_step cfg (fun _ => 9) (Some queue1) batch = Ok queue1.
Proof.
  intros cfg batch queue_file. eexists. split; [vm_compute; reflexivity|].
  split; [reflexivity|].
  apply (monitor_queue_step_idempotent cfg (fun _ => 7) (fun _ => 9) queue_file batch);
    [vm_compute; discriminate | vm_compute; reflexivity].
Defined.

Lemma keep_recent_app (cutoff : Z) (now : nat -> Z) (l1 l2 : list Article) :
  forall k : nat,
    keep_recent cutoff now k (l1 ++ l2)
    = keep_recent cutoff now k l1 ++ keep_recent cutoff now (k + length l1) l2.
Proof.
  induction l1 as [|a l1 IH]; intros k; simpl.
  - by rewrite Nat.add_0_r.
  - rewrite IH. replace (S k + length l1)%nat with (k + S (length l1))%nat by lia.
    destruct (cutoff <? default (now k) (date a)); reflexivity.
Qed.

Lemma keep_recent_fixed (cutoff : Z) (now : nat -> Z) (l : list Article) :
  (forall k, cutoff < now k) ->
  (forall a d, a ∈ l -> date a = Some d -> cutoff < d) ->
  forall k, keep_recent cutoff now k l = l.
Proof.
  intros Hnow. induction l as [|a l IH]; intros Hl k; simpl; [reflexivity|].
  assert (cutoff < default (now k) (date a)) as Hlt.
  { destruct (date a) as [d|] eqn:Hd; simpl; [|apply Hnow].
    apply (Hl a d); [by left | exact Hd]. }
  apply Z.ltb_lt in Hlt. rewrite Hlt. f_equal. apply IH.
  intros b d Hb. apply Hl. by right.
Qed.

(** X18.  The accumulate step never deduplicates.  When the clock
    readings taken for undated articles are later than the cutoff and the
    dated articles of the batch are within the last 24 hours, it stores
    the pruned cache followed by the whole batch, and accumulating the
    same batch again stores every article of the batch a second time. *)
Theorem monitor_cache_step_accumulates (now_cutoff : Z) (now_default : nat -> Z)
    (cache_file : option (list Article)) (batch : list Article) :
  (forall k, now_cutoff - timedelta_hours 24 < now_default k) ->
  (forall a d, a ∈ batch -> date a = Some d -> now_cutoff - timedelta_hours 24 < d) ->
  monitor_cache_step now_cutoff now_default cache_file batch
  = keep_recent (now_cutoff - timedelta_hours 24) now_default 0
      (load_json_file cache_file) ++ batch
  /\
  monitor_cache_step now_cutoff now_default
    (Some (monitor_cache_step now_cutoff now_default cache_file batch)) batch
  = monitor_cache_step now_cutoff now_default cache_file batch ++ batch.
Proof.
  intros Hnow Hbatch.
  assert (forall file,
            monitor_cache_step now_cutoff now_default file batch
            = keep_recent (now_cutoff - timedelta_hours 24) now_default 0
                (load_json_file file) ++ batch) as Hstep.
  { intros file. unfold monitor_cache_step. rewrite keep_recent_app.
    by rewrite (keep_recent_fixed _ _ batch Hnow Hbatch). }
  split; [apply Hstep|].
  rewrite (Hstep (Some _)). f_equal. simpl load_json_file.
  apply keep_recent_fixed; [exact Hnow|].
  intros a d Ha Hd. unfold monitor_cache_step in Ha.
  apply keep_recent_spec in Ha as [_ Hlate]. by apply Hlate.
Qed.

Lemma monitor_cache_step_accumulates_witness :
  let now := 100 * day_us in
  let a := sample_article "https://news.example.org/a" "Hashrate climbs" "Body."
             (Some (now - timedelta_hours 2)) in
  (forall k : nat, now - timedelta_hours 24 < (fun _ : nat => now) k) /\
  monitor_cache_step now (fun _ => now) (Some []) [a] = [a] /\
  monitor_cache_step now (fun _ => now) (Some [a]) [a] = [a; a].
Proof.
  intros now a.
  assert (forall k : nat, now - timedelta_hours 24 < (fun _ : nat => now) k) as Hnow
    by (intros k; vm_compute; reflexivity).
  assert (forall x d, x ∈ [a] -> date x = Some d -> now - timedelta_hours 24 < d)
    as Hbatch.
  { intros x d Hx Hd. apply list_elem_of_In in Hx. destruct Hx as [<- | []].
    injection Hd as <-. vm_compute. reflexivity. }
  destruct (monitor_cache_step_accumulates now (fun _ => now) (Some []) [a] Hnow Hbatch)
    as [Hfirst Hsecond].
  split; [exact Hnow|]. split; [exact Hfirst|].
  rewrite Hfirst in Hsecond. exact Hsecond.
Defined.

(** ** More on workflow_daily_brief *)

Lemma brief_lines_missing (articles : list Article) (a : Article) :
  a ∈ articles -> title a = None \/ url a = None ->
  exists e, brief_lines articles = Raise e.
Proof.
  intros Hin Hmiss. induction articles as [|x rest IH]; [inversion Hin|]. simpl.
  destruct (brief_line x) as [line|e] eqn:Hline; simpl; [|eauto].
  apply elem_of_cons in Hin as [<- | Hin].
  - unfold brief_line in Hline. destruct Hmiss as [Ht | Hu].
    + rewrite Ht in Hline. discriminate.
    + destruct (title a); [|discriminate]. rewrite Hu in Hline. discriminate.
  - destruct (IH Hin) as [e ->]. simpl. eauto.
Qed.

(** X19.  The brief is built from the first 50 cached articles only: two
    non-empty caches that agree on their first 50 articles give the same
    status, and on success the whole cache is emptied, the articles
    beyond the 50th included. *)
Theorem brief_reads_first_fifty (cfg : Config) (env : BriefEnv) (st1 st2 : Stores) :
  drain st1 <> [] -> drain st2 <> [] ->
  firstn 50 (drain st1) = firstn 50 (drain st2) ->
  snd (workflow_daily_brief cfg env st1) = snd (workflow_daily_brief cfg env st2) /\
  (snd (workflow_daily_brief cfg env st1) = 0 ->
   drain (fst (workflow_daily_brief cfg env st1)) = [] /\
   drain (fst (workflow_daily_brief cfg env st2)) = []).
Proof.
  unfold workflow_daily_brief, drain. intros H1 H2 Hsame.
  destruct (negb (truthy (GEMINI_API_KEY cfg))); [split; [reflexivity | discriminate]|].
  destruct (negb (truthy (GITHUB_TOKEN cfg))); [split; [reflexivity | discriminate]|].
  destruct (load_json_file (DAILY_BRIEF_CACHE st1)) as [|a1 l1] eqn:E1; [contradiction|].
  destruct (load_json_file (DAILY_BRIEF_CACHE st2)) as [|a2 l2] eqn:E2; [contradiction|].
  unfold is_empty. rewrite Hsame.
  destruct (brief_lines _) as [articles_text|]; [|split; [reflexivity | discriminate]].
  destruct (gemini_generate_content env articles_text) as [brief_content|];
    [|split; [reflexivity | discriminate]].
  destruct (requests_post env brief_content) as [response|];
    [|split; [reflexivity | discriminate]].
  destruct (status_code response =? 201); [|split; [reflexivity | discriminate]].
  destruct (html_url response); [|split; [reflexivity | discriminate]].
  simpl. auto.
Qed.

Lemma brief_reads_first_fifty_witness :
  let a := sample_article "https://news.example.org/a" "Hashrate" "Body." None in
  let late := sample_article "https://news.example.org/z" "Late news" "Body." None in
  let st1 := sample_stores [] [] (repeat a 50 ++ [late]) in
  let st2 := sample_stores [] [] (repeat a 50) in
  let env := brief_env (Ok "Daily brief")
               (Ok {| status_code := 201;
                      html_url := Some "https://github.com/o/r/issues/1" |}) in
  late ∈ drain st1 /\
  firstn 50 (drain st1) = firstn 50 (drain st2) /\
  snd (workflow_daily_brief config_py env st1) = 0 /\
  drain (fst (workflow_daily_brief config_py env st1)) = [].
Proof.
  intros a late st1 st2 env.
  assert (firstn 50 (drain st1) = firstn 50 (drain st2)) as Hsame
    by (vm_compute; reflexivity).
  assert (snd (workflow_daily_brief config_py env st1) = 0) as Hok
    by (vm_compute; reflexivity).
  destruct (brief_reads_first_fifty config_py env st1 st2) as [_ Hclear];
    [discriminate | discriminate | exact Hsame |].
  split; [|split; [exact Hsame | split; [exact Hok | exact (proj1 (Hclear Hok))]]].
  apply list_elem_of_In, in_or_app. right. simpl. left. reflexivity.
Defined.

(** X20.  One cached article without a title or without a url among the
    first 50 blocks the digest: every run ends with status 1 and leaves
    the cache as it is, whatever the generation and delivery services
    would answer. *)
Theorem brief_blocked_by_malformed_article (cfg : Config) (env : BriefEnv)
    (st : Stores) (a : Article) :
  a ∈ firstn 50 (drain st) ->
  title a = None \/ url a = None ->
  snd (workflow_daily_brief cfg env st) = 1 /\
  fst (workflow_daily_brief cfg env st) = st.
Proof.
  intros Hin Hmiss. unfold workflow_daily_brief.
  destruct (negb (truthy (GEMINI_API_KEY cfg))); [by split|].
  destruct (negb (truthy (GITHUB_TOKEN cfg))); [by split|].
  unfold drain in Hin.
  destruct (load_json_file (DAILY_BRIEF_CACHE st)) as [|x rest] eqn:Hload;
    [inversion Hin|].
  unfold is_empty.
  destruct (brief_lines_missing _ a Hin Hmiss) as [e ->]. by split.
Qed.

Lemma brief_blocked_by_malformed_article_witness :
  let untitled := {| title := None; url := Some "https://news.example.org/u";
                     body := Some "Body."; source := None; image := None;
                     socialScore := None; sentiment := None; date := None |} in
  let a := sample_article "https://news.example.org/a" "Hashrate" "Body." None in
  let st := sample_stores [] [] [a; untitled] in
  let env := brief_env (Ok "Daily brief")
               (Ok {| status_code := 201;
                      html_url := Some "https://github.com/o/r/issues/1" |}) in
  untitled ∈ firstn 50 (drain st) /\
  workflow_daily_brief config_py env st = (st, 1).
Proof.
  intros untitled a st env.
  assert (untitled ∈ firstn 50 (drain st)) as Hin
    by (apply list_elem_of_In; right; left; reflexivity).
  split; [exact Hin|].
  destruct (brief_blocked_by_malformed_article config_py env st untitled Hin
              (or_introl eq_refl)) as [Hstatus Hsame].
  destruct (workflow_daily_brief config_py env st) as [st' status].
  simpl in *. by subst.
Defined.

(** ** tools.py *)

(** X21.  [clear-queue], once confirmed by the flag or by any spelling
    of "yes", empties the queue and touches neither the ledger nor the
    cache, and a post run that follows finds nothing to post and changes
    nothing; any other answer cancels and leaves the stores alone. *)
Theorem clear_queue_then_post (confirm : bool) (response : string) (st : Stores) :
  (confirm = true \/ lower response = "yes" ->
   load_json_file (QUEUE_FILE (fst (cmd_clear_queue confirm response st))) = [] /\
   POSTED_ARTICLES_FILE (fst (cmd_clear_queue confirm response st))
     = POSTED_ARTICLES_FILE st /\
   DAILY_BRIEF_CACHE (fst (cmd_clear_queue confirm response st))
     = DAILY_BRIEF_CACHE st /\
   forall cfg env,
     fst (workflow_post cfg env (fst (cmd_clear_queue confirm response st)))
     = fst (cmd_clear_queue confirm response st)) /\
  (confirm = false -> lower response <> "yes" ->
   cmd_clear_queue confirm response st = (st, 0)).
Proof.
  unfold cmd_clear_queue. split.
  - intros Hyes.
    assert (negb confirm && negb (String.eqb (lower response) "yes") = false) as ->.
    { destruct Hyes as [-> | ->]; [reflexivity|]. simpl. apply andb_false_r. }
    simpl. repeat split. intros cfg env.
    destruct (workflow_post_cases cfg env (set_queue (save_json_file []) st))
      as [Hsame | (article & queue & tweet_id & st1 & _ & Hq & _)]; [exact Hsame|].
    discriminate.
  - intros -> Hno. apply String.eqb_neq in Hno. rewrite Hno. reflexivity.
Qed.

Lemma clear_queue_then_post_witness :
  let st := sample_stores [sample_entry "a"; sample_entry "b"]
              [sample_posted "p" (99 * day_us)] [] in
  let env := post_env (100 * day_us) (Ok (Some "Hashrate hits a record"))
               (Ok (Some "1850")) in
  lower "YES" = "yes" /\
  cmd_clear_queue false "YES" st = (sample_stores [] [sample_posted "p" (99 * day_us)] [], 0) /\
  workflow_post config_py env (fst (cmd_clear_queue false "YES" st))
  = (fst (cmd_clear_queue false "YES" st), 0) /\
  lower "no" <> "yes" /\
  cmd_clear_queue false "no" st = (st, 0).
Proof.
  intros st env.
  destruct (clear_queue_then_post false "YES" st) as [Hyes _].
  destruct (clear_queue_then_post false "no" st) as [_ Hno].
  assert (lower "no" <> "yes") as Hne by discriminate.
  split; [reflexivity|]. split; [reflexivity|]. split; [reflexivity|].
  split; [exact Hne | exact (Hno eq_refl Hne)].
Defined.

(** X22.  [config-check] and the workflows agree on the keys: the keys
    it reports missing for [post] are those [workflow_post] checks, and
    a workflow that it reports with a missing key ends with status 1
    without changing any store, whatever its environment. *)
Theorem config_check_agrees_with_workflows (cfg : Config) :
  cmd_config_check cfg
  = [ ("monitor", config_check_missing cfg [ "EVENT_REGISTRY_API_KEY" ]);
      ("post", missing_keys cfg);
      ("daily-brief", config_check_missing cfg [ "GEMINI_API_KEY"; "GITHUB_TOKEN" ]) ]
  /\
  (config_check_missing cfg [ "EVENT_REGISTRY_API_KEY" ] <> [] ->
   forall env st, workflow_monitor cfg env st = (st, 1)) /\
  (missing_keys cfg <> [] ->
   forall env st, workflow_post cfg env st = (st, 1)) /\
  (config_check_missing cfg [ "GEMINI_API_KEY"; "GITHUB_TOKEN" ] <> [] ->
   forall env st, workflow_daily_brief cfg env st = (st, 1)).
Proof.
  split; [|split; [|split]].
  - unfold cmd_config_check, workflow_requirements, config_check_missing, missing_keys.
    cbn [map fst snd List.filter].
    change (getattr cfg "GEMINI_API_KEY") with (GEMINI_API_KEY cfg).
    change (getattr cfg "TWITTER_API_KEY") with (TWITTER_API_KEY cfg).
    change (getattr cfg "TWITTER_API_SECRET") with (TWITTER_API_SECRET cfg).
    change (getattr cfg "TWITTER_ACCESS_TOKEN") with (TWITTER_ACCESS_TOKEN cfg).
    change (getattr cfg "TWITTER_ACCESS_SECRET") with (TWITTER_ACCESS_SECRET cfg).
    destruct (truthy (GEMINI_API_KEY cfg)), (truthy (TWITTER_API_KEY cfg)),
      (truthy (TWITTER_API_SECRET cfg)), (truthy (TWITTER_ACCESS_TOKEN cfg)),
      (truthy (TWITTER_ACCESS_SECRET cfg)); reflexivity.
  - unfold config_check_missing, workflow_monitor. cbn [List.filter].
    change (getattr cfg "EVENT_REGISTRY_API_KEY") with (EVENT_REGISTRY_API_KEY cfg).
    destruct (truthy (EVENT_REGISTRY_API_KEY cfg)); [contradiction | reflexivity].
  - intros Hmiss env st. unfold workflow_post.
    destruct (missing_keys cfg); [contradiction | reflexivity].
  - unfold config_check_missing, workflow_daily_brief. cbn [List.filter].
    change (getattr cfg "GEMINI_API_KEY") with (GEMINI_API_KEY cfg).
    change (getattr cfg "GITHUB_TOKEN") with (GITHUB_TOKEN cfg).
    destruct (truthy (GEMINI_API_KEY cfg)); [|reflexivity].
    destruct (truthy (GITHUB_TOKEN cfg)); [contradiction | reflexivity].
Qed.

Lemma config_check_agrees_with_workflows_witness :
  let cfg := {| EVENT_REGISTRY_API_KEY := Some "er-key";
                GEMINI_API_KEY := Some "gemini-key";
                TWITTER_API_KEY := Some "tw-key";
                TWITTER_API_SECRET := None;
                TWITTER_ACCESS_TOKEN := Some "tw-token";
                TWITTER_ACCESS_SECRET := Some "";
                UNSPLASH_ACCESS_KEY := None;
                GITHUB_TOKEN := None;
                BLACKLISTED_SOURCES := []; BLACKLISTED_KEYWORDS := [];
                MIN_SOCIAL_SCORE := 5%Q; MIN_ARTICLE_LENGTH := 200;
                MAX_TWEETS_PER_DAY := 60; MAX_QUEUE_SIZE := 100 |} in
  let st := sample_stores [sample_entry "a"] [] [] in
  cmd_config_check cfg
  = [ ("monitor", []);
      ("post", [ "TWITTER_API_SECRET"; "TWITTER_ACCESS_SECRET" ]);
      ("daily-brief", [ "GITHUB_TOKEN" ]) ] /\
  missing_keys cfg <> [] /\
  workflow_post cfg (post_env 0 (Ok (Some "text")) (Ok (Some "1"))) st = (st, 1) /\
  workflow_daily_brief cfg (brief_env (Ok "brief") (Raise (api_error "down"))) st = (st, 1).
Proof.
  intros cfg st.
  destruct (config_check_agrees_with_workflows cfg) as (_ & _ & Hpost & Hbrief).
  assert (missing_keys cfg <> []) as Hmiss by discriminate.
  split; [reflexivity|]. split; [exact Hmiss|].
  split; [apply (Hpost Hmiss) | apply Hbrief; discriminate].
Defined.

(** ** bot_lib.fetch_and_prepare_images *)

Lemma string_app_inv_head (a x y : string) :
  (a ++ x = a ++ y)%string -> x = y.
Proof.
  induction a as [|c a IH]; [auto|].
  rewrite !string_app_cons. intros [= H]. auto.
Qed.

Lemma string_length_app (a b : string) :
  String.length (a ++ b)%string = (String.length a + String.length b)%nat.
Proof.
  induction a as [|c a IH]; [reflexivity|].
  rewrite string_app_cons. simpl. by rewrite IH.
Qed.

Lemma string_app_inv_length (a b x y : string) :
  String.length a = String.length b ->
  (a ++ x = b ++ y)%string -> a = b /\ x = y.
Proof.
  revert b. induction a as [|c a IH]; intros [|d b] Hlen; try discriminate.
  - rewrite !string_app_nil. auto.
  - rewrite !string_app_cons. intros [= -> H].
    destruct (IH b) as [-> ->]; auto.
Qed.

Lemma string_app_inv_tail (a b s : string) :
  (a ++ s = b ++ s)%string -> a = b.
Proof.
  intros H. apply (string_app_inv_length a b s s); [|exact H].
  apply (f_equal String.length) in H. rewrite !string_length_app in H. lia.
Qed.

Lemma decimal_inj (n m : nat) : decimal n = decimal m -> n = m.
Proof.
  unfold decimal. intros H.
  assert (Some (Nat.to_uint n) = Some (Nat.to_uint m)) as Hu
    by (rewrite <- !NilEmpty.usu; by rewrite H).
  injection Hu as Hu. rewrite <- (Unsigned.of_to n), <- (Unsigned.of_to m).
  by rewrite Hu.
Qed.

Lemma optimized_path_inj (output_dir : string) (i j : nat) :
  optimized_path output_dir i = optimized_path output_dir j -> i = j.
Proof.
  unfold optimized_path, path_join.
  change (String.prefix "/" ("image_" ++ decimal (i + 1) ++ "_optimized.jpg")%string)
    with false.
  change (String.prefix "/" ("image_" ++ decimal (j + 1) ++ "_optimized.jpg")%string)
    with false.
  intros H.
  assert (("image_" ++ decimal (i + 1) ++ "_optimized.jpg")%string
          = ("image_" ++ decimal (j + 1) ++ "_optimized.jpg")%string) as Hname.
  { destruct (String.eqb output_dir "" || ends_with_slash output_dir).
    - by apply string_app_inv_head in H.
    - apply string_app_inv_head in H. by apply (string_app_inv_head "/") in H. }
  apply (string_app_inv_head "image_") in Hname.
  apply string_app_inv_tail, decimal_inj in Hname. lia.
Qed.

Lemma prepare_loop_elem (env : ImageEnv) (output_dir : string)
    (images : list UnsplashImage) :
  forall (i : nat) (path : string),
    path ∈ prepare_loop env output_dir i images <->
    exists k, (k < length images)%nat /\
              path = optimized_path output_dir (i + k) /\
              image_ready env (i + k).
Proof.
  unfold image_ready.
  induction images as [|image rest IH]; intros i path; simpl.
  - split; [intros H; inversion H | intros (k & Hk & _); lia].
  - assert ((exists k, (k < length rest)%nat /\
                       path = optimized_path output_dir (S i + k) /\
                       (exists u, download_image env (S i + k) = Ok u) /\
                       (exists u, optimize_image_for_twitter env (S i + k) = Ok u))
            -> exists k, (k < S (length rest))%nat /\
                         path = optimized_path output_dir (i + k) /\
                         (exists u, download_image env (i + k) = Ok u) /\
                         (exists u, optimize_image_for_twitter env (i + k) = Ok u))
      as Hshift.
    { intros (k & Hk & Hp & Hr). exists (S k).
      replace (i + S k)%nat with (S i + k)%nat by lia. split; [lia | auto]. }
    assert (forall k, (k < S (length rest))%nat ->
              k <> 0%nat ->
              path = optimized_path output_dir (i + k) ->
              (exists u, download_image env (i + k) = Ok u) ->
              (exists u, optimize_image_for_twitter env (i + k) = Ok u) ->
              path ∈ prepare_loop env output_dir (S i) rest) as Hback.
    { intros k Hk Hne Hp Hd Ho. apply IH. exists (k - 1)%nat.
      replace (S i + (k - 1))%nat with (i + k)%nat by lia. split; [lia | auto]. }
    destruct (download_image env i) as [u1|e1] eqn:Hd.
    + destruct (optimize_image_for_twitter env i) as [u2|e2] eqn:Ho.
      * rewrite elem_of_cons, IH. split.
        -- intros [-> | H]; [|by apply Hshift].
           exists 0%nat. rewrite Nat.add_0_r. split; [lia|]. eauto.
        -- intros (k & Hk & Hp & Hdk & Hok). destruct k as [|k].
           ++ left. by rewrite Nat.add_0_r in Hp.
           ++ right. apply IH. eapply Hback; eauto.
      * rewrite IH. split; [apply Hshift|].
        intros (k & Hk & Hp & Hdk & Hok). destruct k as [|k].
        -- rewrite Nat.add_0_r in Hok. rewrite Ho in Hok. destruct Hok. discriminate.
        -- apply IH. eapply Hback; eauto.
    + rewrite IH. split; [apply Hshift|].
      intros (k & Hk & Hp & Hdk & Hok). destruct k as [|k].
      * rewrite Nat.add_0_r in Hdk. rewrite Hd in Hdk. destruct Hdk. discriminate.
      * apply IH. eapply Hback; eauto.
Qed.

Lemma prepare_loop_NoDup (env : ImageEnv) (output_dir : string)
    (images : list UnsplashImage) :
  forall i : nat, NoDup (prepare_loop env output_dir i images).
Proof.
  induction images as [|image rest IH]; intros i; simpl; [constructor|].
  destruct (download_image env i); [|apply IH].
  destruct (optimize_image_for_twitter env i); [|apply IH].
  apply NoDup_cons. split; [|apply IH].
  intros Hin. apply prepare_loop_elem in Hin as (k & _ & Hp & _).
  apply optimized_path_inj in Hp. lia.
Qed.

(** X23.  [fetch_and_prepare_images] lets the errors of the search
    through: with the directory created, a [count] outside 1..30 raises
    the ValueError of [fetch_unsplash_images] whatever Unsplash would
    answer, and with a [count] in range a failed request raises its
    error. *)
Theorem prepare_images_search_errors (env : ImageEnv) (output_dir : string)
    (count : Z) (u : unit) :
  os_makedirs env = Ok u ->
  (count < 1 \/ 30 < count ->
   fetch_and_prepare_images env output_dir count
   = Raise (ValueError "Count must be between 1 and 30")) /\
  (1 <= count <= 30 ->
   forall e, unsplash_search env = Raise e ->
             fetch_and_prepare_images env output_dir count = Raise e).
Proof.
  intros Hdir. unfold fetch_and_prepare_images, fetch_unsplash_images.
  rewrite Hdir. simpl. split.
  - intros Hout.
    assert ((count <? 1) || (30 <? count) = true) as ->; [|reflexivity].
    apply orb_true_iff. destruct Hout; [left | right]; by apply Z.ltb_lt.
  - intros Hin e He.
    assert ((count <? 1) || (30 <? count) = false) as ->.
    { apply orb_false_iff. split; apply Z.ltb_ge; lia. }
    rewrite He. reflexivity.
Qed.

Lemma prepare_images_search_errors_witness :
  let env := {| os_makedirs := Ok tt;
                unsplash_search := Raise (api_error "Unsplash API error: 403");
                download_image := fun _ => Ok tt;
                optimize_image_for_twitter := fun _ => Ok tt |} in
  fetch_and_prepare_images env "/tmp/bitcoin_mining_images" 0
  = Raise (ValueError "Count must be between 1 and 30") /\
  fetch_and_prepare_images env "/tmp/bitcoin_mining_images" 1
  = Raise (api_error "Unsplash API error: 403").
Proof.
  intros env.
  destruct (prepare_images_search_errors env "/tmp/bitcoin_mining_images" 0 tt eq_refl)
    as [Hout _].
  destruct (prepare_images_search_errors env "/tmp/bitcoin_mining_images" 1 tt eq_refl)
    as [_ Hin].
  split; [apply Hout; lia | apply Hin; [lia | reflexivity]].
Defined.

(** X24.  Once the directory is created and the search has answered,
    [fetch_and_prepare_images] returns without raising, and the failure
    of one image does not affect the others: the optimized path of the
    image at index [i] is returned exactly when that image was downloaded
    and optimized, and no path is returned twice. *)
Theorem prepare_images_isolates_failures (env : ImageEnv) (output_dir : string)
    (count : Z) (u : unit) (images : list UnsplashImage) :
  os_makedirs env = Ok u ->
  1 <= count <= 30 ->
  unsplash_search env = Ok images ->
  exists paths,
    fetch_and_prepare_images env output_dir count = Ok paths /\
    (length paths <= length images)%nat /\
    (forall i, (i < length images)%nat ->
       (optimized_path output_dir i ∈ paths <-> image_ready env i)) /\
    (forall path, path ∈ paths ->
       exists i, (i < length images)%nat /\ path = optimized_path output_dir i) /\
    NoDup paths.
Proof.
  intros Hdir Hcount Hsearch.
  exists (prepare_loop env output_dir 0 images).
  assert (fetch_and_prepare_images env output_dir count
          = Ok (prepare_loop env output_dir 0 images)) as Hrun.
  { unfold fetch_and_prepare_images, fetch_unsplash_images. rewrite Hdir. simpl.
    assert ((count <? 1) || (30 <? count) = false) as ->.
    { apply orb_false_iff. split; apply Z.ltb_ge; lia. }
    rewrite Hsearch. simpl. by destruct images. }
  split; [exact Hrun|]. split; [|split; [|split]]; [| | |apply prepare_loop_NoDup].
  - clear. generalize 0%nat. induction images as [|image rest IH]; intros i; simpl;
      [lia|].
    specialize (IH (S i)).
    destruct (download_image env i); [|lia].
    destruct (optimize_image_for_twitter env i); simpl; lia.
  - intros i Hi. rewrite prepare_loop_elem. simpl. split.
    + intros (k & Hk & Hp & Hready). apply optimized_path_inj in Hp. by subst.
    + intros Hready. exists i. auto.
  - intros path Hp. apply prepare_loop_elem in Hp as (k & Hk & -> & _).
    exists k. auto.
Qed.

Lemma prepare_images_isolates_failures_witness :
  let image := {| image_id := Some "abc"; image_url := None;
                  download_url := Some "https://images.example.org/raw/abc";
                  image_width := None; image_height := None;
                  description := None; alt_description := None;
                  photographer := Some "Unknown"; photographer_url := None |} in
  let env := {| os_makedirs := Ok tt;
                unsplash_search := Ok [image; image; image];
                download_image := fun _ => Ok tt;
                optimize_image_for_twitter :=
                  fun i => match i with
                           | 1%nat => Raise (ValueError "Failed to optimize image")
                           | _ => Ok tt
                           end |} in
  fetch_and_prepare_images env "/tmp/bitcoin_images" 3
  = Ok [ "/tmp/bitcoin_images/image_1_optimized.jpg";
         "/tmp/bitcoin_images/image_3_optimized.jpg" ] /\
  exists paths,
    fetch_and_prepare_images env "/tmp/bitcoin_images" 3 = Ok paths /\
    (optimized_path "/tmp/bitcoin_images" 2 ∈ paths <-> image_ready env 2).
Proof.
  intros image env. split; [vm_compute; reflexivity|].
  destruct (prepare_images_isolates_failures env "/tmp/bitcoin_images" 3 tt
              [image; image; image] eq_refl ltac:(lia) eq_refl)
    as (paths & Hrun & _ & Hiff & _ & _).
  exists paths. split; [exact Hrun|]. apply Hiff. simpl. lia.
Defined.

(** ** The exits of workflow_monitor *)

(** X25.  With the API key configured, [workflow_monitor] ends with
    status 1 and unchanged stores when the provider answers the first
    attempt with an authentication error or all three attempts with
    errors, and with status 0 and unchanged stores when the provider
    finds no article; and no run ever writes the posted ledger. *)
Theorem workflow_monitor_exits (cfg : Config) (env : MonitorEnv) (st : Stores) :
  (forall e, fetch_outcome env 0%nat = Raise e -> is_fatal e = true ->
             workflow_monitor cfg env st = (st, 1)) /\
  ((forall k, (k < 3)%nat -> exists e, fetch_outcome env k = Raise e) ->
   workflow_monitor cfg env st = (st, 1)) /\
  (truthy (EVENT_REGISTRY_API_KEY cfg) = true ->
   (fetch_outcome env 0%nat = Ok [] -> workflow_monitor cfg env st = (st, 0))) /\
  POSTED_ARTICLES_FILE (fst (workflow_monitor cfg env st)) = POSTED_ARTICLES_FILE st.
Proof.
  split; [|split; [|split]].
  - intros e He Hfatal. unfold workflow_monitor.
    destruct (negb (truthy (EVENT_REGISTRY_API_KEY cfg))); [reflexivity|].
    unfold fetch_articles_with_retry.
    change (seq 0 (Z.to_nat 3)) with [0%nat; 1%nat; 2%nat].
    by rewrite (retry_loop_fatal _ 3 0%nat _ e He Hfatal).
  - intros Hall. unfold workflow_monitor.
    destruct (negb (truthy (EVENT_REGISTRY_API_KEY cfg))); [reflexivity|].
    destruct (retry_loop_seq_result (fetch_outcome env) 3 3 0)
      as (pre & k & Hk & _ & Hres); [reflexivity | lia |].
    unfold fetch_articles_with_retry. change (Z.to_nat 3) with 3%nat.
    rewrite Hres. destruct (Hall k) as [e ->]; [lia | reflexivity].
  - intros Hkey Hnone. unfold workflow_monitor. rewrite Hkey. simpl negb. cbv iota.
    unfold fetch_articles_with_retry.
    change (seq 0 (Z.to_nat 3)) with [0%nat; 1%nat; 2%nat].
    by rewrite (retry_loop_ok _ 3 0%nat _ [] Hnone).
  - destruct (workflow_monitor_cases cfg env st) as [-> | (filtered & queue & _ & ->)];
      reflexivity.
Qed.

Lemma workflow_monitor_exits_witness :
  let st := sample_stores [sample_entry "a"] [sample_posted "p" (99 * day_us)] [] in
  let denied := {| fetch_outcome := fun _ => Raise (api_error "Invalid API key");
                   lib_filter_articles := call_filter_articles;
                   now_added_at := fun _ => 0; now_cache_cutoff := 0;
                   now_default_date := fun _ => 0 |} in
  is_fatal (api_error "Invalid API key") = true /\
  workflow_monitor config_py denied st = (st, 1) /\
  workflow_monitor config_py (monitor_env [] 0) st = (st, 0).
Proof.
  intros st denied.
  destruct (workflow_monitor_exits config_py denied st) as (Hfatal & _ & _ & _).
  destruct (workflow_monitor_exits config_py (monitor_env [] 0) st) as (_ & _ & Hnone & _).
  split; [reflexivity|].
  split; [exact (Hfatal _ eq_refl eq_refl) | exact (Hnone eq_refl eq_refl)].
Defined.
